(** * Medicine finder: the checkout transaction and the chat fallback chain

    A shallow embedding of [checkout] and [get_ai_response] of [app.py].

    - Python values decoded from the JSON request are [pyval]; Python's
      numbers are unbounded integers ([Z]) and binary64 floats (the
      kernel's [float]), with the mixed arithmetic Python performs.
    - A JSON object (a [dict]) is a [gmap string pyval].
    - The SQLAlchemy session is a unit of work: the committed database, the
      working state the handler reads and writes until [commit] or
      [rollback], and a journal of the session calls made.
    - A handler is a computation in a small monad with early [return] and
      raised exceptions, run against the session.
    - What the program does not decide is an [environment]: the memory
      there is for a long string, the row a key that is not an integer
      matches, the failures of the storage layer. *)

From Stdlib Require Import ZArith Floats String Ascii List Bool Lia.
From Stdlib Require Import Sorting.Sorted Sorting.Permutation.
From stdpp Require Import base option gmap strings.
Import ListNotations.

Set Warnings "-inexact-float".
Local Open Scope Z_scope.

(* ================================================================== *)
(** ** Python values, exceptions and results *)

Inductive pyexn :=
| KeyError (key : string)
| TypeError
| OverflowError
| IndexError
| AttributeError
| MemoryError
| ProviderError (detail : string)   (* an [Exception] raised by the API client *)
| DatabaseError (detail : string)   (* an [Exception] raised by the storage layer *)
| BaseExit (name : string).         (* KeyboardInterrupt, SystemExit: not an [Exception] *)

(** [except Exception] catches everything but the interpreter's exits. *)
Definition is_Exception (e : pyexn) : bool :=
  match e with BaseExit _ => false | _ => true end.

Inductive res (A : Type) :=
| Ret (a : A)
| Raise (e : pyexn).
Arguments Ret {A} a.
Arguments Raise {A} e.

Definition is_Ret {A} (m : res A) : bool :=
  match m with Ret _ => true | Raise _ => false end.

Definition res_bind {A B} (m : res A) (k : A -> res B) : res B :=
  match m with Ret a => k a | Raise e => Raise e end.

Declare Scope res_scope.
Delimit Scope res_scope with res.
Notation "x <~ m ;; k" := (res_bind m (fun x => k))
  (at level 100, m at next level, right associativity) : res_scope.

(** The scalars a JSON field decodes to.  Arrays and objects as field
    values of a cart line are outside this model. *)
Inductive pyval :=
| PNone
| PBool (b : bool)
| PInt (z : Z)
| PFloat (f : float)
| PStr (s : string).

Abbreviation dict := (gmap string pyval).

(** [item[key]] *)
Definition getitem (item : dict) (key : string) : res pyval :=
  match item !! key with
  | Some v => Ret v
  | None => Raise (KeyError key)
  end.

(** [item.get(key, default)] *)
Definition dict_get (item : dict) (key : string) (default : pyval) : pyval :=
  match item !! key with
  | Some v => v
  | None => default
  end.

(** Truth value of a scalar, as [not v] reads it. *)
Definition truthy (v : pyval) : bool :=
  match v with
  | PNone => false
  | PBool b => b
  | PInt z => negb (z =? 0)
  | PFloat f => negb (PrimFloat.eqb f 0%float)
  | PStr s => negb (String.eqb s EmptyString)
  end.

(* ================================================================== *)
(** ** Python numbers *)

Inductive num :=
| NInt (z : Z)
| NFloat (f : float).

(** [float(z)]: the nearest binary64 (ties to even); an integer that
    rounds beyond the largest float raises [OverflowError]. *)
Definition int_to_float (z : Z) : res float :=
  match binary_normalize prec emax z 0 false with
  | S754_infinity _ => Raise OverflowError
  | sf => Ret (SF2Prim sf)
  end.

(** The float a number is shown or stored as. *)
Definition float_of (a : num) : res float :=
  match a with
  | NInt z => int_to_float z
  | NFloat f => Ret f
  end.

(** Binary arithmetic: integers stay integers, anything else is computed
    in floats after converting the integer operand. *)
Definition num_arith (iop : Z -> Z -> Z) (fop : float -> float -> float)
    (a b : num) : res num :=
  match a, b with
  | NInt x, NInt y => Ret (NInt (iop x y))
  | NInt x, NFloat g => (f <~ int_to_float x ;; Ret (NFloat (fop f g)))%res
  | NFloat f, NInt y => (g <~ int_to_float y ;; Ret (NFloat (fop f g)))%res
  | NFloat f, NFloat g => Ret (NFloat (fop f g))
  end.

Definition num_mul := num_arith Z.mul PrimFloat.mul.
Definition num_add := num_arith Z.add PrimFloat.add.
Definition num_sub := num_arith Z.sub PrimFloat.sub.

(** The integer [z] against the finite float [±m·2^e], exactly. *)
Definition compare_scaled (z : Z) (s : bool) (m : positive) (e : Z) : comparison :=
  let v := cond_Zopp s (Zpos m) in
  if 0 <=? e then z ?= v * 2 ^ e else z * 2 ^ (- e) ?= v.

(** Integer against float: Python compares the exact values, it does not
    convert the integer.  [None] when the float is a NaN. *)
Definition Z_compare_float (z : Z) (g : float) : option comparison :=
  match Prim2SF g with
  | S754_nan => None
  | S754_infinity s => Some (if s then Gt else Lt)
  | S754_zero _ => Some (z ?= 0)
  | S754_finite s m e => Some (compare_scaled z s m e)
  end.

(** [a < b] on numbers. *)
Definition num_ltb (a b : num) : bool :=
  match a, b with
  | NInt x, NInt y => x <? y
  | NFloat f, NFloat g => PrimFloat.ltb f g
  | NInt x, NFloat g =>
      match Z_compare_float x g with Some Lt => true | _ => false end
  | NFloat f, NInt y =>
      match Z_compare_float y f with Some Gt => true | _ => false end
  end.

(** The number a scalar stands for in arithmetic; [bool] is a subclass
    of [int] ([True] is 1). *)
Definition as_num (v : pyval) : option num :=
  match v with
  | PBool b => Some (NInt (Z.b2z b))
  | PInt z => Some (NInt z)
  | PFloat f => Some (NFloat f)
  | PNone | PStr _ => None
  end.

Definition of_num (n : num) : pyval :=
  match n with NInt z => PInt z | NFloat f => PFloat f end.


(** The floats below zero. *)
Definition sf_negative (x : spec_float) : bool :=
  match x with
  | S754_infinity true | S754_finite true _ _ => true
  | _ => false
  end.

Definition as_int (v : pyval) : option Z :=
  match v with
  | PBool b => Some (Z.b2z b)
  | PInt z => Some z
  | _ => None
  end.

Fixpoint str_repeat (s : string) (n : nat) : string :=
  match n with
  | O => EmptyString
  | S n' => String.append s (str_repeat s n')
  end.

(** What the program does not decide: whether the interpreter finds the
    memory for a string of a given length; how the storage engine reads a
    key that is not an integer (a float or a string sent as the id), that
    is the row key it matches, if any; and whether the storage layer fails
    at the n-th call made on the session, and with what detail. *)
Record environment := {
  can_allocate : Z -> bool;
  coerce_key : pyval -> option Z;
  faults : nat -> option string
}.

(** The largest size and count of a sequence ([sys.maxsize], 64 bits). *)
Definition ssize_max : Z := 2 ^ 63 - 1.

Section Interpreter.

Variable env : environment.

(** [s * n], a string repeated: the count must fit a machine index and
    the result must not be too long, or [OverflowError]; it must find its
    memory, or [MemoryError]. *)
Definition str_mul (s : string) (n : Z) : res pyval :=
  let len := Z.of_nat (String.length s) in
  if (n <? - ssize_max - 1) || (ssize_max <? n) then Raise OverflowError
  else if (n <? 1) || (len =? 0) then Ret (PStr EmptyString)
  else if n =? 1 then Ret (PStr s)
  else if ssize_max / n <? len then Raise OverflowError
  else if can_allocate env (n * len)
       then Ret (PStr (str_repeat s (Z.to_nat n)))
       else Raise MemoryError.

(** [a * b]: numbers multiply, a string times an integer repeats the
    string, everything else is a [TypeError]. *)
Definition pymul (a b : pyval) : res pyval :=
  match as_num a, as_num b with
  | Some x, Some y => (n <~ num_mul x y ;; Ret (of_num n))%res
  | _, _ =>
      match a, as_int b, as_int a, b with
      | PStr s, Some n, _, _ => str_mul s n
      | _, _, Some n, PStr s => str_mul s n
      | _, _, _, _ => Raise TypeError
      end
  end.

End Interpreter.

(** [total + v] for a number [total]. *)
Definition pyadd (total : num) (v : pyval) : res num :=
  match as_num v with
  | Some y => num_add total y
  | None => Raise TypeError
  end.

(** [q < v] for a number [q]. *)
Definition pylt (q : num) (v : pyval) : res bool :=
  match as_num v with
  | Some y => Ret (num_ltb q y)
  | None => Raise TypeError
  end.

(** [q - v] for a number [q]. *)
Definition pysub (q : num) (v : pyval) : res num :=
  match as_num v with
  | Some y => num_sub q y
  | None => Raise TypeError
  end.

(* ================================================================== *)
(** ** Binary64, exactly *)

(** The value of a finite binary64, counted in units of 2^-1074 (the
    smallest positive one): an integer. *)
Definition units (x : spec_float) : Z :=
  match x with
  | S754_finite s m e =>
      if s then - (Zpos m * 2 ^ (e + 1074)) else Zpos m * 2 ^ (e + 1074)
  | _ => 0
  end.

(** [M] is [m] rounded to 53 digits: [m] itself, or, when [m] has [53+n]
    digits, one of the two multiples of [2^n] around it, the upper one
    only when [m] is not a multiple itself. *)
Definition rounded (m M : Z) : Prop :=
  M = m \/
  exists n, 0 < n /\ 2 ^ (52 + n) <= m /\
    (M = m / 2 ^ n * 2 ^ n \/
     (M = (m / 2 ^ n + 1) * 2 ^ n /\ m mod 2 ^ n <> 0)).

(** [X] is the finite float of sign [s] and magnitude [V] (an integer),
    or an infinity. *)
Definition represents (s : bool) (V : Z) (X : spec_float) : Prop :=
  match X with
  | S754_finite s' mX eX =>
      s' = s /\ bounded prec emax mX eX = true /\
      Zpos mX * 2 ^ (eX + 1074) = V * 2 ^ 1074
  | S754_infinity _ => True
  | _ => False
  end.

(** After [k] shifts of [m0]: the quotient, and no round or sticky bit
    unless a one was shifted out. *)
Definition shifted (m0 : Z) (k : Z) (mrs : shr_record) : Prop :=
  shr_m mrs = m0 / 2 ^ k /\
  (orb (shr_r mrs) (shr_s mrs) = true -> m0 mod 2 ^ k <> 0).

(* ================================================================== *)
(** ** Database models and the session *)

(** Rows are keyed by their integer primary key; a row holds the Python
    values the program assigned to its attributes. *)
Module Medicine.
Record t := { name : string; quantity : num; price : num }.
End Medicine.

Module OrderItem.
Record t := { medicine_id : Z; quantity : pyval; price : pyval }.
End OrderItem.

(** [items] is the relationship collection of the order: building an
    [OrderItem(order=order, ...)] appends to it through the backref. *)
Module Order.
Record t := { user_id : Z; total : num; items : list OrderItem.t }.
End Order.

Record Database := {
  medicines : gmap Z Medicine.t;
  orders : gmap Z Order.t
}.

(** The calls made on the session, in order. *)
Inductive session_call :=
| CallAdd
| CallGet (ident : pyval)
| CallRollback
| CallCommit.

(** [store] is what is committed; [work] is what the session reads and
    writes inside the open transaction.  Only [commit] changes [store]. *)
Record Session := {
  store : Database;
  work : Database;
  journal : list session_call
}.

(** The scoped session a request starts with. *)
Definition open_session (db : Database) : Session :=
  {| store := db; work := db; journal := [] |}.

(** The key a new row gets: one more than the largest key in use. *)
Definition next_id {A} (table : gmap Z A) : Z :=
  1 + map_fold (fun k _ acc => Z.max k acc) 0 table.

(* ================================================================== *)
(** ** Responses and the handler monad *)

(** The error bodies of [checkout], by the message each one carries. *)
Inductive checkout_error :=
| EmptyCart                          (* 'Cart is empty' *)
| MissingItemId (name : pyval)       (* 'Missing ID for item {name}' *)
| InvalidLineData (name : pyval)     (* 'Invalid price or quantity for item {name}' *)
| ItemNotFound (name : pyval)        (* 'Medicine {name} not found in database' *)
| InsufficientStock (name : pyval)   (* 'Insufficient stock for {name}' *)
| PersistenceError (e : pyexn).      (* 'Checkout failed: {e}' *)

Inductive response :=
| Success (total : num)                          (* 200, the total in the message *)
| Failure (status : Z) (err : checkout_error)    (* {'error': ...}, status *)
| Unhandled (e : pyexn).                         (* the exception left the view *)

Inductive step (A : Type) :=
| Next (a : A)
| Return (r : response)
| Throw (e : pyexn).
Arguments Next {A} a.
Arguments Return {A} r.
Arguments Throw {A} e.

Definition handler (A : Type) := Session -> step A * Session.

Definition pure {A} (a : A) : handler A := fun s => (Next a, s).
Definition ret {A} (r : response) : handler A := fun s => (Return r, s).

Definition bind {A B} (m : handler A) (k : A -> handler B) : handler B :=
  fun s =>
    match m s with
    | (Next a, s') => k a s'
    | (Return r, s') => (Return r, s')
    | (Throw e, s') => (Throw e, s')
    end.

(** Evaluating an expression that may raise. *)
Definition eval {A} (r : res A) : handler A :=
  fun s => match r with Ret a => (Next a, s) | Raise e => (Throw e, s) end.

(** [try: body  except <classes>: handle] *)
Definition try_except {A} (body : handler A) (classes : pyexn -> bool)
    (handle : pyexn -> handler A) : handler A :=
  fun s =>
    match body s with
    | (Throw e, s') => if classes e then handle e s' else (Throw e, s')
    | other => other
    end.

Declare Scope handler_scope.
Delimit Scope handler_scope with handler.
Notation "x <- m ;; k" := (bind m (fun x => k))
  (at level 100, m at next level, right associativity) : handler_scope.
Notation "m ;; k" := (bind m (fun _ => k))
  (at level 100, right associativity) : handler_scope.

(** [for x in l: acc = body x acc] *)
Fixpoint for_each {A B} (body : A -> B -> handler B) (l : list A) (acc : B)
    : handler B :=
  match l with
  | [] => pure acc
  | x :: l' => (acc' <- body x acc ;; for_each body l' acc')%handler
  end.

(** The response the client gets: an exception that leaves the view is
    the framework's internal server error. *)
Definition dispatch (r : step response * Session) : response * Session :=
  match r with
  | (Next resp, s) => (resp, s)
  | (Return resp, s) => (resp, s)
  | (Throw e, s) => (Unhandled e, s)
  end.

(* ================================================================== *)
(** ** Session operations *)

Section Storage.

Variable env : environment.

Definition primary_key (ident : pyval) : option Z :=
  match ident with
  | PInt z => Some z
  | PBool b => Some (Z.b2z b)
  | other => coerce_key env other
  end.

Definition log (c : session_call) (s : Session) : Session :=
  {| store := store s; work := work s; journal := journal s ++ [c] |}.

Definition update (f : Database -> Database) (s : Session) : Session :=
  {| store := store s; work := f (work s); journal := journal s |}.

(** [db.session.add(order)]: the new row, under the key the flush gives
    it.  The handle returned stands for the Python object. *)
Definition session_add (o : Order.t) : handler Z :=
  fun s =>
    let k := next_id (orders (work s)) in
    (Next k,
     log CallAdd
       (update (fun d => {| medicines := medicines d;
                            orders := <[k := o]> (orders d) |}) s)).

(** [db.session.add(order_item)]: the item already belongs to the session
    through its order; the call adds nothing more. *)
Definition session_add_item : handler unit :=
  fun s => (Next tt, log CallAdd s).

(** [Medicine.query.get(ident)]: the row as the session sees it, with
    the writes made so far in this transaction; the query first flushes
    those writes, and raises when the storage layer fails. *)
Definition query_get (ident : pyval) : handler (option (Z * Medicine.t)) :=
  fun s =>
    match faults env (length (journal s)) with
    | None =>
        (Next (match primary_key ident with
               | Some k => option_map (pair k) (medicines (work s) !! k)
               | None => None
               end),
         log (CallGet ident) s)
    | Some detail => (Throw (DatabaseError detail), log (CallGet ident) s)
    end.

(** [db.session.rollback()] *)
Definition session_rollback : handler unit :=
  fun s =>
    (Next tt, log CallRollback
                {| store := store s; work := store s; journal := journal s |}).

(** [total = db.Column(db.Float, ...)]: the flush writes the total of
    an order of this transaction as a float, which an integer too large
    for one refuses.  [flushable] says that no such total is pending. *)
Definition flushable (s : Session) : bool :=
  forallb (fun '(k, o) =>
             match orders (store s) !! k with
             | Some _ => true
             | None => is_Ret (float_of (Order.total o))
             end)
          (map_to_list (orders (work s))).

Definition not_a_float : string :=
  "(builtins.OverflowError) int too large to convert to float".

(** [db.session.commit()]: all of the working state becomes the stored
    state, or the storage layer raises and nothing is stored.  It raises
    for reasons of its own ([faults]), and it raises on a total it cannot
    write. *)
Definition session_commit : handler unit :=
  fun s =>
    match faults env (length (journal s)) with
    | None =>
        if flushable s then
          (Next tt, log CallCommit
                      {| store := work s; work := work s; journal := journal s |})
        else (Throw (DatabaseError not_a_float), log CallCommit s)
    | Some detail => (Throw (DatabaseError detail), log CallCommit s)
    end.

(** [medicine.quantity = q] on the row with key [k]. *)
Definition set_quantity (k : Z) (q : num) : handler unit :=
  fun s =>
    (Next tt,
     update (fun d =>
       {| medicines :=
            alter (fun m => {| Medicine.name := Medicine.name m;
                               Medicine.quantity := q;
                               Medicine.price := Medicine.price m |})
                  k (medicines d);
          orders := orders d |}) s).

(** [OrderItem(order=order, ...)]: the item joins [order.items]. *)
Definition new_order_item (order : Z) (it : OrderItem.t) : handler unit :=
  fun s =>
    (Next tt,
     update (fun d =>
       {| medicines := medicines d;
          orders :=
            alter (fun o => {| Order.user_id := Order.user_id o;
                               Order.total := Order.total o;
                               Order.items := Order.items o ++ [it] |})
                  order (orders d) |}) s).

(** [order.total = total] *)
Definition set_total (order : Z) (total : num) : handler unit :=
  fun s =>
    (Next tt,
     update (fun d =>
       {| medicines := medicines d;
          orders :=
            alter (fun o => {| Order.user_id := Order.user_id o;
                               Order.total := total;
                               Order.items := Order.items o |})
                  order (orders d) |}) s).

(* ================================================================== *)
(** ** checkout *)

(** [item.get("name", "unknown")] *)
Definition name_or_unknown (item : dict) : pyval :=
  dict_get item "name" (PStr "unknown").

(** ['id' not in item or not item['id']] *)
Definition id_missing (item : dict) : bool :=
  match item !! "id" with
  | None => true
  | Some v => negb (truthy v)
  end.

(** [total + item['price'] * item['quantity']] *)
Definition add_line (total : num) (item : dict) : res num :=
  (p <~ getitem item "price" ;;
   q <~ getitem item "quantity" ;;
   x <~ pymul env p q ;;
   pyadd total x)%res.

Definition KeyError_or_TypeError (e : pyexn) : bool :=
  match e with KeyError _ | TypeError => true | _ => false end.

(** The body of [for item in cart], from the running total to the next. *)
Definition checkout_item (order : Z) (item : dict) (total : num) : handler num :=
  (if id_missing item then
     (session_rollback ;;
      ret (Failure 400 (MissingItemId (name_or_unknown item))))
   else
     total' <- try_except (eval (add_line total item)) KeyError_or_TypeError
                 (fun _ =>
                    session_rollback ;;
                    ret (Failure 400 (InvalidLineData (name_or_unknown item)))) ;;
     ident <- eval (getitem item "id") ;;
     medicine <- query_get ident ;;
     match medicine with
     | None =>
         session_rollback ;;
         ret (Failure 400 (ItemNotFound (name_or_unknown item)))
     | Some (k, m) =>
         requested <- eval (getitem item "quantity") ;;
         short <- eval (pylt (Medicine.quantity m) requested) ;;
         if (short : bool) then
           session_rollback ;;
           name <- eval (getitem item "name") ;;
           ret (Failure 400 (InsufficientStock name))
         else
           left <- eval (pysub (Medicine.quantity m) requested) ;;
           set_quantity k left ;;
           unit_price <- eval (getitem item "price") ;;
           new_order_item order
             {| OrderItem.medicine_id := k;
                OrderItem.quantity := requested;
                OrderItem.price := unit_price |} ;;
           session_add_item ;;
           pure total'
     end)%handler.

(** [f'{total:.2f}']: the number is shown as a float, which an integer
    too large for one refuses.  The digits are not spelled out: the
    response carries the number shown. *)
Definition format_2f (total : num) : res num :=
  (_ <~ float_of total ;; Ret total)%res.

(** The JSON body of the request: [request.json.get('cart', [])]. *)
Record request := { cart_field : option (list dict) }.

Definition request_cart (req : request) : list dict :=
  match cart_field req with Some c => c | None => [] end.

(** The view function, for the logged-in user [uid]. *)
Definition checkout (uid : Z) (req : request) : handler response :=
  let cart := request_cart req in
  match cart with
  | [] => ret (Failure 400 EmptyCart)
  | _ =>
      (order <- session_add {| Order.user_id := uid;
                               Order.total := NInt 0;
                               Order.items := [] |} ;;
       total <- for_each (checkout_item order) cart (NInt 0) ;;
       set_total order total ;;
       try_except
         (session_commit ;;
          shown <- eval (format_2f total) ;;
          ret (Success shown))
         is_Exception
         (fun e => session_rollback ;; ret (Failure 500 (PersistenceError e))))%handler
  end.

(** A request served from start to finish: a fresh session on the
    database, the view, and the database as the request leaves it. *)
Definition serve_checkout (uid : Z) (req : request) (db : Database)
    : response * Database :=
  let (resp, s) := dispatch (checkout uid req (open_session db)) in
  (resp, store s).

End Storage.

(* ================================================================== *)
(** ** get_ai_response *)

(** [str.isspace] on the code points a [string] holds here (below 256). *)
Definition isspace (c : ascii) : bool :=
  let n := N_of_ascii c in
  ((9 <=? n) && (n <=? 13) || (28 <=? n) && (n <=? 32)
   || (n =? 133) || (n =? 160))%N.

Fixpoint lstrip (s : string) : string :=
  match s with
  | String c s' => if isspace c then lstrip s' else s
  | EmptyString => EmptyString
  end.

Fixpoint rstrip (s : string) : string :=
  match s with
  | String c s' =>
      match rstrip s' with
      | EmptyString => if isspace c then EmptyString else String c EmptyString
      | t => String c t
      end
  | EmptyString => EmptyString
  end.

(** [s.strip()] *)
Definition strip (s : string) : string := rstrip (lstrip s).

(** The part of a completion the program reads: for each choice, its
    [message.content], which the API may leave null. *)
Record ChatCompletion := { choices : list (option string) }.

(** What happens during a call, in order: a request to a model, a line
    printed. *)
Inductive event :=
| Requested (model : string)
| Printed (line : string).

Definition system_prompt : string :=
  "You are a helpful assistant for a Medicine Availability Finder app.
            Respond concisely and helpfully. If the user asks about medicine availability, price, or stock,
            suggest they use the search bar but offer insights based on common knowledge.
            For general health queries, advise consulting a doctor. Keep responses under 150 words.".

Definition model_priority : list string :=
  [ "meta-llama/llama-3.1-8b-instruct";
    "google/gemma-7b-it";
    "nousresearch/hermes-2-pro-mistral" ].

Definition apology : string :=
  "Sorry, I encountered an issue with all available AI models. Please try again later.".

(** [str(e)] *)
Definition exn_str (e : pyexn) : string :=
  match e with
  | KeyError key => String.append "'" (String.append key "'")
  | IndexError => "list index out of range"
  | AttributeError => "'NoneType' object has no attribute 'strip'"
  | ProviderError detail | DatabaseError detail => detail
  | TypeError | OverflowError | MemoryError | BaseExit _ => EmptyString
  end.

Definition warning (model : string) (e : pyexn) : string :=
  String.append "[WARN] Model "
    (String.append model (String.append " failed: " (exn_str e))).

Definition chat_message (role : string) (content : pyval) : dict :=
  <["role" := PStr role]> (<["content" := content]> ∅).

(** [messages]: the system prompt, the history when there is one and it
    is not empty, the user's message. *)
Definition chat_messages (user_input : pyval)
    (conversation_history : option (list dict)) : list dict :=
  [chat_message "system" (PStr system_prompt)]
  ++ match conversation_history with
     | Some (m :: h) => m :: h
     | _ => []
     end
  ++ [chat_message "user" user_input].

Section Provider.

(** [client.chat.completions.create(model, messages, max_tokens,
    temperature)]: the provider's answer, or the exception it raises. *)
Variable create : string -> list dict -> Z -> float -> res ChatCompletion.

(** [response.choices[0].message.content.strip()] *)
Definition first_content (response : ChatCompletion) : res string :=
  match choices response with
  | [] => Raise IndexError
  | None :: _ => Raise AttributeError
  | Some text :: _ => Ret (strip text)
  end.

(** The body of the [try]: one request to one model. *)
Definition attempt (model : string) (messages : list dict) : res string :=
  (response <~ create model messages 200 0.7%float ;;
   first_content response)%res.

(** [for model in models: try ... except Exception ...], then the
    apology. *)
Fixpoint try_models (models : list string) (messages : list dict)
    : res string * list event :=
  match models with
  | [] => (Ret apology, [])
  | model :: rest =>
      match attempt model messages with
      | Ret text => (Ret text, [Requested model])
      | Raise e =>
          if is_Exception e then
            let (r, evs) := try_models rest messages in
            (r, Requested model :: Printed (warning model e) :: evs)
          else (Raise e, [Requested model])
      end
  end.

Definition get_ai_response (user_input : pyval)
    (conversation_history : option (list dict)) : res string * list event :=
  try_models model_priority (chat_messages user_input conversation_history).

End Provider.

Section Outcome.

Variable create : string -> list dict -> Z -> float -> res ChatCompletion.

(** The model's attempt raises an exception that [except Exception]
    catches: the call raised, or its answer had no first choice or no
    content. *)
Definition fails (messages : list dict) (model : string) : Prop :=
  exists e, attempt create model messages = Raise e /\ is_Exception e = true.

(** The events of the models that failed, one request and one warning
    each. *)
Definition failure_events (messages : list dict) (models : list string)
    : list event :=
  flat_map (fun model =>
              match attempt create model messages with
              | Raise e => [Requested model; Printed (warning model e)]
              | Ret _ => []
              end) models.

End Outcome.

(** The log lines of a run and the models it asked. *)
Definition warnings (evs : list event) : list string :=
  flat_map (fun ev => match ev with Printed l => [l] | _ => [] end) evs.

Definition requests (evs : list event) : list string :=
  flat_map (fun ev => match ev with Requested m => [m] | _ => [] end) evs.

(* ================================================================== *)
(** ** What the claims speak of *)

Definition is_success (r : response) : bool :=
  match r with Success _ => true | _ => false end.

(** A medicine row with its stock set to [q]. *)
Definition sell (q : num) (m : Medicine.t) : Medicine.t :=
  {| Medicine.name := Medicine.name m;
     Medicine.quantity := q;
     Medicine.price := Medicine.price m |}.

(** An order with one more line. *)
Definition with_item (it : OrderItem.t) (o : Order.t) : Order.t :=
  {| Order.user_id := Order.user_id o;
     Order.total := Order.total o;
     Order.items := Order.items o ++ [it] |}.

Definition with_total (total : num) (o : Order.t) : Order.t :=
  {| Order.user_id := Order.user_id o;
     Order.total := total;
     Order.items := Order.items o |}.

Definition with_items (items : list OrderItem.t) (o : Order.t) : Order.t :=
  {| Order.user_id := Order.user_id o;
     Order.total := Order.total o;
     Order.items := Order.items o ++ items |}.

Section Reading.

Variable env : environment.

(** The sum, from [total] on, of quantity × price over the cart lines. *)
Fixpoint sum_from (total : num) (cart : list dict) : res num :=
  match cart with
  | [] => Ret total
  | item :: rest =>
      (q <~ getitem item "quantity" ;;
       p <~ getitem item "price" ;;
       x <~ pymul env q p ;;
       t <~ pyadd total x ;;
       sum_from t rest)%res
  end.

Definition cart_sum (cart : list dict) : res num := sum_from (NInt 0) cart.

(** The same sum over the lines of a stored order. *)
Fixpoint order_sum_from (total : num) (items : list OrderItem.t) : res num :=
  match items with
  | [] => Ret total
  | it :: rest =>
      (x <~ pymul env (OrderItem.quantity it) (OrderItem.price it) ;;
       t <~ pyadd total x ;;
       order_sum_from t rest)%res
  end.

Definition order_sum (o : Order.t) : res num :=
  order_sum_from (NInt 0) (Order.items o).

(** The string [s] can be repeated [n] times: the count fits a machine
    index, and the result is not too long and finds its memory. *)
Definition repeats (s : string) (n : Z) : Prop :=
  let len := Z.of_nat (String.length s) in
  - ssize_max - 1 <= n <= ssize_max /\
  (n <= 1 \/ len = 0 \/
   (len <= ssize_max / n /\ can_allocate env (n * len) = true)).

(** Where [a * b] repeats a string, it can. *)
Definition within_reach (a b : pyval) : Prop :=
  forall s n,
    (a = PStr s /\ as_int b = Some n) \/ (b = PStr s /\ as_int a = Some n) ->
    repeats s n.

(** The storage layer does not fail at the next call on the session. *)
Definition responds (s : Session) : Prop :=
  faults env (length (journal s)) = None.

(** The storage layer does not fail at all. *)
Definition reliable : Prop := forall n, faults env n = None.

(** The cart line names the medicine with key [k]. *)
Definition refers_to (item : dict) (k : Z) : bool :=
  match item !! "id" with
  | Some ident => bool_decide (primary_key env ident = Some k)
  | None => false
  end.

(** The stock [q] of medicine [k] less the quantity of every line of
    the cart that names it, line after line. *)
Fixpoint stock_after (cart : list dict) (k : Z) (q : num) : res num :=
  match cart with
  | [] => Ret q
  | item :: rest =>
      if refers_to item k then
        (r <~ getitem item "quantity" ;;
         q' <~ pysub q r ;;
         stock_after rest k q')%res
      else stock_after rest k q
  end.

(** The order line [it] records the cart line [item]. *)
Definition line_of (item : dict) (it : OrderItem.t) : Prop :=
  exists ident,
    item !! "id" = Some ident /\
    primary_key env ident = Some (OrderItem.medicine_id it) /\
    item !! "quantity" = Some (OrderItem.quantity it) /\
    item !! "price" = Some (OrderItem.price it).

(** The session right after [db.session.add(order)], with the order's
    key. *)
Definition begun (uid : Z) (db : Database) : step Z * Session :=
  session_add {| Order.user_id := uid; Order.total := NInt 0; Order.items := [] |}
    (open_session db).

(** Every line of [lines], taken in order from the start of a checkout
    on [db], passed its checks (the running total is then [total], the
    session [s]). *)
Definition accepted (uid : Z) (db : Database) (lines : list dict)
    (total : num) (s : Session) : Prop :=
  for_each (checkout_item env (next_id (orders db))) lines (NInt 0)
    (snd (begun uid db)) = (Next total, s).

End Reading.

(** The session after [db.session.rollback()]. *)
Definition rolled_back (s : Session) : Session :=
  snd (session_rollback s).

(** [q < 0] is false. *)
Definition not_negative (q : num) : Prop := num_ltb q (NInt 0) = false.

(** A sample database and sample cart lines. *)
Definition pharmacy : Database :=
  {| medicines :=
       <[1 := {| Medicine.name := "Paracetamol";
                 Medicine.quantity := NInt 100;
                 Medicine.price := NFloat 5.99 |}]>
       (<[2 := {| Medicine.name := "Ibuprofen";
                  Medicine.quantity := NInt 50;
                  Medicine.price := NFloat 7.49 |}]> ∅);
     orders := ∅ |}.

Definition cart_line (ident : pyval) (name : string) (price quantity : pyval)
    : dict :=
  <["id" := ident]> (<["name" := PStr name]>
    (<["price" := price]> (<["quantity" := quantity]> ∅))).

(** A sample environment: a string of up to 2^31 characters finds its
    memory, the storage engine matches integer keys only and does not
    fail. *)
Definition steady : environment :=
  {| can_allocate := fun n => n <=? 2 ^ 31;
     coerce_key := fun _ => None;
     faults := fun _ => None |}.

(** Sample providers: one whose first two models are down, one whose
    first model answers with blanks only, one with every model down. *)
Definition third_answers (model : string) (_ : list dict) (_ : Z) (_ : float)
    : res ChatCompletion :=
  if String.eqb model "nousresearch/hermes-2-pro-mistral"
  then Ret {| choices := [Some "OK"] |}
  else Raise (ProviderError "503 Service Unavailable").

Definition blank_then_ok (model : string) (_ : list dict) (_ : Z) (_ : float)
    : res ChatCompletion :=
  if String.eqb model "meta-llama/llama-3.1-8b-instruct"
  then Ret {| choices := [Some "  "] |}
  else Ret {| choices := [Some "OK"] |}.

Definition all_down (model : string) (_ : list dict) (_ : Z) (_ : float)
    : res ChatCompletion :=
  Raise (ProviderError "503 Service Unavailable").

(* ================================================================== *)
(** ** What the further properties speak of *)

(** The same product, whatever its stock. *)
Definition same_product (m m' : Medicine.t) : Prop :=
  Medicine.name m = Medicine.name m' /\ Medicine.price m = Medicine.price m'.

(** An environment whose storage layer fails at its [n]-th call, and
    only there. *)
Definition locked_at (n : nat) : environment :=
  {| can_allocate := fun _ => true;
     coerce_key := fun _ => None;
     faults := fun i => if Nat.eqb i n then Some "database is locked" else None |}.

(** Two databases with the same stock of every medicine. *)
Definition same_stock (d d' : Database) : Prop :=
  forall k, Medicine.quantity <$> medicines d !! k
            = Medicine.quantity <$> medicines d' !! k.

(** Two sessions that made the same calls on databases with the same
    stock. *)
Definition alike (s s' : Session) : Prop :=
  journal s = journal s' /\
  same_stock (store s) (store s') /\ same_stock (work s) (work s').

(** The string neither begins nor ends with whitespace. *)
Definition begins_blank (s : string) : bool :=
  match s with String c _ => isspace c | EmptyString => false end.

Fixpoint ends_blank (s : string) : bool :=
  match s with
  | EmptyString => false
  | String c EmptyString => isspace c
  | String _ s' => ends_blank s'
  end.

(** Sample providers: one that is interrupted at the second model, and
    one that differs from [third_answers] only where the program does not
    ask. *)
Definition interrupted (model : string) (_ : list dict) (_ : Z) (_ : float)
    : res ChatCompletion :=
  if String.eqb model "google/gemma-7b-it"
  then Raise (BaseExit "KeyboardInterrupt")
  else Raise (ProviderError "503 Service Unavailable").

Definition third_answers_only (model : string) (messages : list dict)
    (max_tokens : Z) (temperature : float) : res ChatCompletion :=
  if (max_tokens =? 200) && PrimFloat.eqb temperature 0.7
     && bool_decide (In model model_priority)
  then third_answers model messages max_tokens temperature
  else Ret {| choices := [Some "Hello"] |}.

(* ================================================================== *)
(** ** The other views *)

(** The exceptions the other views can raise: those above, and the
    [ValueError] of [int] and [float] on text that is no number. *)
Inductive pyerror :=
| Known (e : pyexn)
| ValueError (detail : string).

(** What a library call gives: a value, or an exception. *)
Inductive result (A : Type) :=
| Done (a : A)
| Failed (e : pyerror).
Arguments Done {A} a.
Arguments Failed {A} e.

Inductive method := GET | POST.

Module User.
Record t := { email : string; password : string; is_admin : bool }.
End User.

Module Chat.
Record t := { user_id : Z; message : pyval; response : string; timestamp : Z }.
End Chat.

(** What a view hands back: a redirect to an endpoint, a template with
    the data it is given, or a JSON body. *)
Inductive answer :=
| Redirect (endpoint : string)
| Page (template : string)
| AdminPage (medicines : list (Z * Medicine.t))
| ProfilePage (orders : list (Z * Order.t))
| ChatPage (chats : list (Z * Chat.t))
| ChatJson (response : string) (history : list dict)
| SearchJson (results : list (Z * Medicine.t)) (has_next has_prev : bool)
    (page total_pages : Z).

(** A view answers, having flashed messages (each with its category), or
    lets an exception out. *)
Inductive outcome :=
| Answer (a : answer) (flashed : list (string * string))
| Uncaught (e : pyerror).

(** [current_user]: the row [load_user] finds for the id kept in the login
    session, if there is one. *)
Definition current_user (users : gmap Z User.t) (login : option Z)
    : option (Z * User.t) :=
  match login with
  | Some id => option_map (pair id) (users !! id)
  | None => None
  end.

(** [@login_required]: an anonymous request is sent to the login page
    (flask-login's [login_view]) and the view is not run. *)
Definition login_required {S} (user : option (Z * User.t)) (state : S)
    (view : Z -> User.t -> outcome * S) : outcome * S :=
  match user with
  | Some (id, u) => view id u
  | None =>
      (Answer (Redirect "login")
         [("Please log in to access this page.", "message")], state)
  end.

(** Rows in the order of a comparison, by insertion. *)
Fixpoint insert_by {A} (leb : A -> A -> bool) (x : A) (l : list A) : list A :=
  match l with
  | [] => [x]
  | y :: l' => if leb x y then x :: l else y :: insert_by leb x l'
  end.

Definition sort_by {A} (leb : A -> A -> bool) (l : list A) : list A :=
  fold_right (insert_by leb) [] l.

(** The rows of a table in the order of their keys. *)
Definition rows {A} (table : gmap Z A) : list (Z * A) :=
  sort_by (fun a b => a.1 <=? b.1) (map_to_list table).

(* ------------------------------------------------------------------ *)
(** *** signup, login, logout *)

Section Accounts.

Variable env : environment.

(** [bcrypt.hashpw(password, salt)] and [bcrypt.checkpw(password,
    hashed)], on the UTF-8 bytes of the texts; either may raise (a
    password the library refuses, a stored text that is no hash). *)
Variable hashpw : string -> string -> result string.
Variable checkpw : string -> string -> result bool.

(** [User.query.filter_by(email=email).first()]; the column is unique and
    not null, so at most one row matches, and none matches [None]. *)
Definition by_email (users : gmap Z User.t) (email : option string)
    : option (Z * User.t) :=
  match email with
  | Some e => List.find (fun row => String.eqb (User.email row.2) e) (rows users)
  | None => None
  end.

(** The state these views work on: the user table and the id the login
    session holds. *)
Record Accounts := { users : gmap Z User.t; login : option Z }.

Definition signed_in (a : Accounts) : bool :=
  bool_decide (is_Some (current_user (users a) (login a))).

(** [signup]; [salt] is what [bcrypt.gensalt()] draws. *)
Definition signup (m : method) (form : gmap string string) (salt : string)
    (a : Accounts) : outcome * Accounts :=
  if signed_in a then (Answer (Redirect "index") [], a)
  else
    match m with
    | GET => (Answer (Page "signup.html") [], a)
    | POST =>
        let email := form !! "email" in
        let password := form !! "password" in
        match faults env 0 with
        | Some detail => (Uncaught (Known (DatabaseError detail)), a)
        | None =>
            match by_email (users a) email with
            | Some _ =>
                (Answer (Redirect "signup")
                   [("Email already registered.", "error")], a)
            | None =>
                match password with
                | None => (Uncaught (Known AttributeError), a)
                | Some p =>
                    match hashpw p salt with
                    | Failed e => (Uncaught e, a)
                    | Done hashed =>
                        match email, faults env 2 with
                        | _, Some detail =>
                            (Uncaught (Known (DatabaseError detail)), a)
                        | None, None =>
                            (Uncaught (Known (DatabaseError
                               "NOT NULL constraint failed: user.email")), a)
                        | Some e, None =>
                            (Answer (Redirect "login")
                               [("Signup successful! Please log in.",
                                 "success")],
                             {| users :=
                                  <[next_id (users a) :=
                                      {| User.email := e;
                                         User.password := hashed;
                                         User.is_admin := false |}]> (users a);
                                login := login a |})
                        end
                    end
                end
            end
        end
    end.

(** [login] *)
Definition log_in (m : method) (form : gmap string string) (a : Accounts)
    : outcome * Accounts :=
  if signed_in a then (Answer (Redirect "index") [], a)
  else
    match m with
    | GET => (Answer (Page "login.html") [], a)
    | POST =>
        let email := form !! "email" in
        let password := form !! "password" in
        match faults env 0 with
        | Some detail => (Uncaught (Known (DatabaseError detail)), a)
        | None =>
            let invalid :=
              (Answer (Redirect "login")
                 [("Invalid email or password.", "error")], a) in
            match by_email (users a) email with
            | Some (id, user) =>
                match password with
                | None => (Uncaught (Known AttributeError), a)
                | Some p =>
                    match checkpw p (User.password user) with
                    | Failed e => (Uncaught e, a)
                    | Done true =>
                        (Answer (Redirect "index")
                           [("Login successful!", "success")],
                         {| users := users a; login := Some id |})
                    | Done false => invalid
                    end
                end
            | None => invalid
            end
        end
    end.

(** [logout] *)
Definition logout (a : Accounts) : outcome * Accounts :=
  login_required (current_user (users a) (login a)) a
    (fun _ _ =>
       (Answer (Redirect "index") [("Logged out successfully.", "success")],
        {| users := users a; login := None |})).

End Accounts.

(** No two accounts share an email. *)
Definition unique_emails (users : gmap Z User.t) : Prop :=
  forall i j u v,
    users !! i = Some u -> users !! j = Some v ->
    User.email u = User.email v -> i = j.

(* ------------------------------------------------------------------ *)
(** *** chatbot *)

(** The JSON body of a chat request: the [message] field if present (a
    JSON [null] is [PNone]), and the [history] field if present, a list
    of messages or a JSON [null]. *)
Record chat_request := {
  message_field : option pyval;
  history_field : option (option (list dict))
}.

(** [request.json.get('message')] *)
Definition request_message (req : chat_request) : pyval :=
  match message_field req with Some v => v | None => PNone end.

(** [request.json.get('history', [])] *)
Definition request_history (req : chat_request) : option (list dict) :=
  match history_field req with Some h => h | None => Some [] end.

(** The two messages an exchange adds to the history. *)
Definition exchange (user_input : pyval) (response : string) : list dict :=
  [chat_message "user" user_input; chat_message "assistant" (PStr response)].

(** Oldest first; rows of one instant in the order of their keys. *)
Definition older (a b : Z * Chat.t) : bool :=
  (Chat.timestamp a.2 <? Chat.timestamp b.2)
  || (Chat.timestamp a.2 =? Chat.timestamp b.2) && (a.1 <=? b.1).

Section Chatbot.

Variable env : environment.
Variable create : string -> list dict -> Z -> float -> res ChatCompletion.

(** The POST branch for the user [uid]; [now] is the clock when the row
    is written ([default=datetime.utcnow]). *)
Definition chatbot_post (uid : Z) (now : Z) (req : chat_request)
    (chats : gmap Z Chat.t) : outcome * (gmap Z Chat.t * list event) :=
  let user_input := request_message req in
  let conversation_history := request_history req in
  match get_ai_response create user_input conversation_history with
  | (Raise e, evs) => (Uncaught (Known e), (chats, evs))
  | (Ret response, evs) =>
      match faults env 1, user_input with
      | Some detail, _ => (Uncaught (Known (DatabaseError detail)), (chats, evs))
      | None, PNone =>
          (Uncaught (Known (DatabaseError
             "NOT NULL constraint failed: chat.message")), (chats, evs))
      | None, _ =>
          let chats' :=
            <[next_id chats :=
                {| Chat.user_id := uid; Chat.message := user_input;
                   Chat.response := response; Chat.timestamp := now |}]> chats in
          match conversation_history with
          | Some history =>
              (Answer (ChatJson response
                         (history ++ exchange user_input response)) [],
               (chats', evs))
          | None => (Uncaught (Known TypeError), (chats', evs))
          end
      end
  end.

(** [chatbot] *)
Definition chatbot (m : method) (user : option (Z * User.t)) (now : Z)
    (req : chat_request) (chats : gmap Z Chat.t)
    : outcome * (gmap Z Chat.t * list event) :=
  login_required user (chats, [])
    (fun uid _ =>
       match m with
       | POST => chatbot_post uid now req chats
       | GET =>
           (Answer (ChatPage
                      (sort_by older
                         (List.filter (fun row => Chat.user_id row.2 =? uid)
                            (map_to_list chats)))) [],
            (chats, []))
       end).

End Chatbot.

(* ------------------------------------------------------------------ *)
(** *** profile, cart, index *)

Section Profile.

(** The [date] column of the order with a given key. *)
Variable date_of : Z -> Z.

(** Newest first; orders of one instant in the order of their keys. *)
Definition newer (a b : Z * Order.t) : bool :=
  (date_of b.1 <? date_of a.1)
  || (date_of a.1 =? date_of b.1) && (a.1 <=? b.1).

(** [Order.query.filter_by(user_id=uid).order_by(Order.date.desc()).all()] *)
Definition orders_of (uid : Z) (db : Database) : list (Z * Order.t) :=
  sort_by newer
    (List.filter (fun row => Order.user_id row.2 =? uid)
       (map_to_list (orders db))).

(** [profile] *)
Definition profile (user : option (Z * User.t)) (db : Database)
    : outcome * Database :=
  login_required user db
    (fun uid _ => (Answer (ProfilePage (orders_of uid db)) [], db)).

End Profile.

(** [cart] *)
Definition cart_view (user : option (Z * User.t)) : outcome :=
  (login_required user tt (fun _ _ => (Answer (Page "cart.html") [], tt))).1.

(** [checkout] behind [@login_required]. *)
Definition checkout_view (env : environment) (user : option (Z * User.t))
    (req : request) (db : Database) : (outcome + response) * Database :=
  match user with
  | Some (uid, _) =>
      let (resp, db') := serve_checkout env uid req db in (inr resp, db')
  | None =>
      (inl (Answer (Redirect "login")
              [("Please log in to access this page.", "message")]), db)
  end.

(* ------------------------------------------------------------------ *)
(** *** admin *)

(** What an admin request stages for the commit. *)
Inductive staged :=
| NoChange
| Upsert (k : Z) (name : option string) (quantity : Z) (price : float)
| Remove (k : Z).

Section Admin.

Variable env : environment.

(** [int(x)] and [float(x)] on a form field, which may be absent. *)
Variable to_int : option string -> result Z.
Variable to_float : option string -> result float.

(** [action == name], for the [action] field of the form. *)
Definition action_is (form : gmap string string) (name : string) : bool :=
  match form !! "action" with
  | Some action => String.eqb action name
  | None => false
  end.

(** The branches on [action], up to the commit: the change staged, and
    the number of calls made on the session. *)
Definition admin_stage (form : gmap string string) (db : Database)
    : result (staged * nat) :=
  if action_is form "add" then
    let name := form !! "name" in
    match to_int (form !! "quantity") with
    | Failed e => Failed e
    | Done quantity =>
        match to_float (form !! "price") with
        | Failed e => Failed e
        | Done price =>
            Done (Upsert (next_id (medicines db)) name quantity price, 1%nat)
        end
    end
  else if action_is form "edit" then
    match to_int (form !! "id") with
    | Failed e => Failed e
    | Done id =>
        match faults env 0 with
        | Some detail => Failed (Known (DatabaseError detail))
        | None =>
            match medicines db !! id with
            | None => Done (NoChange, 1%nat)
            | Some _ =>
                let name := form !! "name" in
                match to_int (form !! "quantity") with
                | Failed e => Failed e
                | Done quantity =>
                    match to_float (form !! "price") with
                    | Failed e => Failed e
                    | Done price => Done (Upsert id name quantity price, 1%nat)
                    end
                end
            end
        end
    end
  else if action_is form "delete" then
    match to_int (form !! "id") with
    | Failed e => Failed e
    | Done id =>
        match faults env 0 with
        | Some detail => Failed (Known (DatabaseError detail))
        | None =>
            match medicines db !! id with
            | None => Done (NoChange, 1%nat)
            | Some _ => Done (Remove id, 2%nat)
            end
        end
    end
  else Done (NoChange, 0%nat).

(** [db.session.commit()] of the change staged. *)
Definition admin_commit (c : staged) (calls : nat) (db : Database)
    : result Database :=
  match faults env calls with
  | Some detail => Failed (Known (DatabaseError detail))
  | None =>
      match c with
      | NoChange => Done db
      | Upsert k None _ _ =>
          Failed (Known (DatabaseError "NOT NULL constraint failed: medicine.name"))
      | Upsert k (Some name) quantity price =>
          Done {| medicines :=
                    <[k := {| Medicine.name := name;
                              Medicine.quantity := NInt quantity;
                              Medicine.price := NFloat price |}]> (medicines db);
                  orders := orders db |}
      | Remove k =>
          Done {| medicines := delete k (medicines db); orders := orders db |}
      end
  end.

(** [admin] *)
Definition admin (m : method) (form : gmap string string)
    (user : option (Z * User.t)) (db : Database) : outcome * Database :=
  login_required user db
    (fun _ u =>
       if negb (User.is_admin u) then
         (Answer (Redirect "index") [("Access denied. Admins only.", "error")],
          db)
       else
         match m with
         | POST =>
             match admin_stage form db with
             | Failed e => (Uncaught e, db)
             | Done (c, calls) =>
                 match admin_commit c calls db with
                 | Failed e => (Uncaught e, db)
                 | Done db' =>
                     (Answer (Redirect "admin")
                        [("Medicine updated successfully.", "success")], db')
                 end
             end
         | GET => (Answer (AdminPage (rows (medicines db))) [], db)
         end).

End Admin.

(* ------------------------------------------------------------------ *)
(** *** search_medicine *)

(** A number as the SQL engine compares it: a NaN is stored and bound as
    NULL, which compares with nothing. *)
Definition sql_number (n : num) : option num :=
  match n with
  | NFloat f => if PrimFloat.is_nan f then None else Some n
  | NInt _ => Some n
  end.

(** [column >= bound] and [column <= bound] in a filter. *)
Definition sql_ge (column bound : num) : bool :=
  match sql_number column, sql_number bound with
  | Some a, Some b => negb (num_ltb a b)
  | _, _ => false
  end.

Definition sql_le (column bound : num) : bool :=
  match sql_number column, sql_number bound with
  | Some a, Some b => negb (num_ltb b a)
  | _, _ => false
  end.

(** [if bound:] on what [form.get(key, type=...)] gave. *)
Definition given_float (bound : option float) : bool :=
  match bound with Some f => truthy (PFloat f) | None => false end.

Definition given_int (bound : option Z) : bool :=
  match bound with Some z => truthy (PInt z) | None => false end.

Definition per_page : Z := 6.

(** The slice of the rows a page holds. *)
Definition page_items {A} (page : Z) (l : list A) : list A :=
  firstn (Z.to_nat per_page) (skipn (Z.to_nat ((page - 1) * per_page)) l).

(** The number of pages [total] rows fill. *)
Definition page_count (total : Z) : Z :=
  if total =? 0 then 0 else (total + per_page - 1) / per_page.

(** [if bound: query = query.filter(...)]: the filter is applied when the
    bound was sent and is not zero. *)
Definition filter_if {A B} (bound : option B) (given : bool)
    (keep : B -> A -> bool) (query : list A) : list A :=
  match bound with
  | Some b => if given then List.filter (keep b) query else query
  | None => query
  end.

Section Search.

Variable env : environment.

(** [Medicine.name.ilike(pattern)], as the SQL engine evaluates it. *)
Variable ilike : string -> string -> bool.

(** [float(s)] and [int(s)] of a form field, [None] where they raise
    [ValueError] ([form.get(key, type=...)] then gives the default). *)
Variable to_float : string -> option float.
Variable to_int : string -> option Z.

(** [f'%{medicine_name}%'] for the name sent, stripped. *)
Definition name_pattern (form : gmap string string) : string :=
  let medicine_name :=
    strip (match form !! "medicine_name" with
           | Some s => s
           | None => EmptyString
           end) in
  String.append "%" (String.append medicine_name "%").

(** The rows the filters of a search form keep, in the order of the
    scan. *)
Definition search_matches (form : gmap string string)
    (catalog : gmap Z Medicine.t) : list (Z * Medicine.t) :=
  let min_price := form !! "min_price" ≫= to_float in
  let max_price := form !! "max_price" ≫= to_float in
  let min_stock := form !! "min_stock" ≫= to_int in
  let query :=
    List.filter (fun row => ilike (Medicine.name row.2) (name_pattern form))
      (rows catalog) in
  let query :=
    filter_if min_price (given_float min_price)
      (fun bound row => sql_ge (Medicine.price row.2) (NFloat bound)) query in
  let query :=
    filter_if max_price (given_float max_price)
      (fun bound row => sql_le (Medicine.price row.2) (NFloat bound)) query in
  filter_if min_stock (given_int min_stock)
    (fun bound row => sql_ge (Medicine.quantity row.2) (NInt bound)) query.

(** [query.paginate(page=page, per_page=6, error_out=False)] and the JSON
    built from it. *)
Definition search_medicine (m : method) (form : gmap string string)
    (catalog : gmap Z Medicine.t) : outcome :=
  match m with
  | GET => Answer (Page "search.html") []
  | POST =>
      let page :=
        match form !! "page" ≫= to_int with Some p => p | None => 1 end in
      let page := if page <? 1 then 1 else page in
      let matches := search_matches form catalog in
      match faults env 0, faults env 1 with
      | Some detail, _ | None, Some detail =>
          Uncaught (Known (DatabaseError detail))
      | None, None =>
          let pages := page_count (Z.of_nat (length matches)) in
          Answer (SearchJson (page_items page matches)
                    (page <? pages) (1 <? page) page pages) []
      end
  end.

End Search.

(** SQLite's [LIKE] on the bytes of a pattern and a text: [%] is any
    run, [_] any one, letters match whatever their case. *)
Definition lower (c : ascii) : ascii :=
  let n := nat_of_ascii c in
  if (65 <=? n)%nat && (n <=? 90)%nat then ascii_of_nat (n + 32) else c.

Fixpoint like (pattern : string) : string -> bool :=
  match pattern with
  | EmptyString => fun text => match text with EmptyString => true | _ => false end
  | String "%" pattern' =>
      fix any (text : string) : bool :=
        like pattern' text
        || match text with String _ text' => any text' | EmptyString => false end
  | String "_" pattern' =>
      fun text => match text with String _ text' => like pattern' text' | _ => false end
  | String c pattern' =>
      fun text =>
        match text with
        | String d text' => Ascii.eqb (lower c) (lower d) && like pattern' text'
        | EmptyString => false
        end
  end.

Definition sqlite_ilike (text pattern : string) : bool := like pattern text.

(** Sample parsers: decimal digits only. *)
Fixpoint digits (s : string) (acc : Z) : option Z :=
  match s with
  | EmptyString => Some acc
  | String c s' =>
      let n := Z.of_nat (nat_of_ascii c) in
      if (48 <=? n) && (n <=? 57) then digits s' (10 * acc + (n - 48)) else None
  end.

Definition digits_int (s : string) : option Z :=
  match s with EmptyString => None | _ => digits s 0 end.

Definition digits_float (s : string) : option float :=
  match digits_int s with
  | Some z => match int_to_float z with Ret f => Some f | Raise _ => None end
  | None => None
  end.

(* ------------------------------------------------------------------ *)
(** *** The start of the application *)

(** The catalog the application starts with. *)
Definition first_medicines : list Medicine.t :=
  map (fun row =>
         {| Medicine.name := row.1.1;
            Medicine.quantity := NInt row.1.2;
            Medicine.price := NFloat row.2 |})
    [("Paracetamol", 100, 5.99%float); ("Ibuprofen", 50, 7.49%float);
     ("Amoxicillin", 20, 12.99%float); ("Cetirizine", 30, 6.49%float);
     ("Vitamin C", 80, 4.99%float); ("Omeprazole", 25, 15.99%float);
     ("Azithromycin", 15, 18.99%float); ("Metformin", 40, 9.99%float);
     ("Aspirin", 60, 3.99%float); ("Loratadine", 35, 8.49%float);
     ("Lisinopril", 30, 11.99%float); ("Atorvastatin", 25, 14.99%float);
     ("Metoprolol", 40, 10.49%float); ("Levothyroxine", 50, 9.49%float);
     ("Ciprofloxacin", 20, 13.99%float); ("Pantoprazole", 30, 16.49%float);
     ("Doxycycline", 15, 17.99%float); ("Hydrochlorothiazide", 45, 8.99%float);
     ("Vitamin D", 70, 5.49%float); ("Folic Acid", 60, 4.49%float)].

(** [db.session.bulk_save_objects(medicines)]: each row under the next
    key. *)
Definition bulk_save (new : list Medicine.t) (table : gmap Z Medicine.t)
    : gmap Z Medicine.t :=
  fold_left (fun t m => <[next_id t := m]> t) new table.

Section Start.

Variable env : environment.
Variable hashpw : string -> string -> result string.

(** A call on the session, the [n]-th: it fails when the storage layer
    does. *)
Definition storage_call {A} (n : nat) (k : result A) : result A :=
  match faults env n with
  | Some detail => Failed (Known (DatabaseError detail))
  | None => k
  end.

(** The block run when the module is loaded: the catalog is filled when
    it holds no medicine, the admin account is made when no account has
    its email.  [salt] is what [bcrypt.gensalt()] draws. *)
Definition start (salt : string) (accounts : gmap Z User.t) (db : Database)
    : result (gmap Z User.t * Database) :=
  let make_admin (calls : nat) (db' : Database) :=
    storage_call calls
      match by_email accounts (Some "admin@example.com") with
      | Some _ => Done (accounts, db')
      | None =>
          match hashpw "admin123" salt with
          | Failed e => Failed e
          | Done hashed =>
              storage_call (calls + 2)
                (Done (<[next_id accounts :=
                           {| User.email := "admin@example.com";
                              User.password := hashed;
                              User.is_admin := true |}]> accounts,
                       db'))
          end
      end in
  storage_call 0
    match rows (medicines db) with
    | [] =>
        storage_call 1 (storage_call 2
          (make_admin 3%nat
             {| medicines := bulk_save first_medicines (medicines db);
                orders := orders db |}))
    | _ :: _ => make_admin 1%nat db
    end.

End Start.

(* ------------------------------------------------------------------ *)
(** *** Samples to run the views on *)

(** Stand-ins for bcrypt (the salt, then the password) and for [int] and
    [float] (decimal digits only). *)
Definition sample_hashpw (password salt : string) : result string :=
  Done (String.append salt password).

Definition sample_checkpw (password hashed : string) : result bool :=
  Done (String.eqb (substring 4 (String.length hashed - 4) hashed) password).

Definition sample_int (field : option string) : result Z :=
  match field with
  | None => Failed (Known TypeError)
  | Some s =>
      match digits_int s with
      | Some z => Done z
      | None => Failed (ValueError "invalid literal for int() with base 10")
      end
  end.

Definition sample_float (field : option string) : result float :=
  match field with
  | None => Failed (Known TypeError)
  | Some s =>
      match digits_float s with
      | Some f => Done f
      | None => Failed (ValueError "could not convert string to float")
      end
  end.

Definition admin_user : User.t :=
  {| User.email := "admin@example.com"; User.password := "salthunter2";
     User.is_admin := true |}.

Definition members : Accounts :=
  {| users := <[1 := admin_user]> ∅; login := None |}.

Definition ann_form : gmap string string :=
  <["email" := "ann@example.com"]> (<["password" := "s3cret"]> ∅).

Definition question : chat_request :=
  {| message_field := Some (PStr "Is ibuprofen in stock?");
     history_field := Some (Some []) |}.

Definition add_aspirin : gmap string string :=
  <["action" := "add"]> (<["name" := "Aspirin"]>
    (<["quantity" := "60"]> (<["price" := "4"]> ∅))).

Definition edit_missing : gmap string string :=
  <["action" := "edit"]> (<["id" := "99"]> ∅).

Definition delete_ibuprofen : gmap string string :=
  <["action" := "delete"]> (<["id" := "2"]> ∅).

Definition cheap_para : gmap string string :=
  <["medicine_name" := " PARA "]> (<["max_price" := "6"]> ∅).

(* ================================================================== *)
(** * Sign lemmas for binary64 *)











(* ================================================================== *)
(** * Facts about Python's numbers *)

Lemma SFmul_comm x y : SFmul prec emax x y = SFmul prec emax y x.
Proof.
  destruct x as [sx|sx| |sx mx ex], y as [sy|sy| |sy my ey]; simpl;
    try reflexivity; try (by rewrite xorb_comm).
  by rewrite xorb_comm, Pos.mul_comm, Z.add_comm.
Qed.

Lemma float_mul_comm (x y : float) : (x * y = y * x)%float.
Proof.
  apply Prim2SF_inj. rewrite !mul_spec. apply SFmul_comm.
Qed.

Lemma num_mul_comm a b : num_mul a b = num_mul b a.
Proof.
  destruct a as [x|f], b as [y|g]; unfold num_mul, num_arith; simpl.
  - by rewrite Z.mul_comm.
  - destruct (int_to_float x); simpl; [|done]. by rewrite float_mul_comm.
  - destruct (int_to_float y); simpl; [|done]. by rewrite float_mul_comm.
  - by rewrite float_mul_comm.
Qed.

(** Quantity × price is price × quantity, exceptions included. *)
Lemma pymul_comm env a b : pymul env a b = pymul env b a.
Proof.
  destruct a, b; try reflexivity;
    unfold pymul; cbn [as_num]; by rewrite num_mul_comm.
Qed.

(* ================================================================== *)
(** * Negative numbers *)





Lemma compare_scaled_negative z m e : 0 <= z -> compare_scaled z true m e = Gt.
Proof.
  intros Hz. unfold compare_scaled. simpl.
  destruct (0 <=? e) eqn:He; apply Z.compare_gt_iff.
  - apply Z.leb_le in He.
    assert (0 < 2 ^ e) by (apply Z.pow_pos_nonneg; lia). nia.
  - apply Z.leb_gt in He.
    assert (0 < 2 ^ (- e)) by (apply Z.pow_pos_nonneg; lia). nia.
Qed.

Lemma compare_scaled_positive z m e : z <= 0 -> compare_scaled z false m e = Lt.
Proof.
  intros Hz. unfold compare_scaled. simpl.
  destruct (0 <=? e) eqn:He; apply Z.compare_lt_iff.
  - apply Z.leb_le in He.
    assert (0 < 2 ^ e) by (apply Z.pow_pos_nonneg; lia). nia.
  - apply Z.leb_gt in He.
    assert (0 < 2 ^ (- e)) by (apply Z.pow_pos_nonneg; lia). nia.
Qed.

Lemma float_negative g :
  num_ltb (NFloat g) (NInt 0) = sf_negative (Prim2SF g).
Proof.
  simpl. unfold Z_compare_float.
  destruct (Prim2SF g) as [sg|[|]| |[|] mg eg]; simpl; try done.
  - by rewrite compare_scaled_negative.
  - by rewrite compare_scaled_positive.
Qed.



(* ================================================================== *)
(** * Binary64 in units of 2^-1074 *)

Lemma fexp_eq e : fexp prec emax e = Z.max (e - 53) (-1074).
Proof. reflexivity. Qed.

Lemma digits2_size m : digits2_pos m = Pos.size m.
Proof. induction m; simpl; congruence. Qed.

Lemma digits_bounds m :
  2 ^ (Zpos (digits2_pos m) - 1) <= Zpos m < 2 ^ Zpos (digits2_pos m).
Proof.
  rewrite digits2_size. split.
  - pose proof (Pos.size_le m) as H.
    apply Pos2Z.pos_le_pos in H. rewrite Pos2Z.inj_pow in H.
    change (Zpos m~0) with (2 * Zpos m) in H.
    replace (Zpos (Pos.size m)) with (Zpos (Pos.size m) - 1 + 1) in H by lia.
    rewrite Z.pow_add_r in H by lia. lia.
  - pose proof (Pos.size_gt m) as H.
    apply Pos2Z.pos_lt_pos in H. by rewrite Pos2Z.inj_pow in H.
Qed.

Lemma digits_unique m k :
  2 ^ (k - 1) <= Zpos m < 2 ^ k -> Zpos (digits2_pos m) = k.
Proof.
  intros [Hlo Hhi]. pose proof (digits_bounds m) as [Hlo' Hhi'].
  assert (0 < k).
  { destruct (Z.le_gt_cases k 0) as [Hk|]; [|done].
    assert (2 ^ k <= 2 ^ 0) by (apply Z.pow_le_mono_r; lia). simpl in *. lia. }
  destruct (Z.lt_trichotomy (Zpos (digits2_pos m)) k) as [Hlt|[Heq|Hgt]]; [|done|].
  - assert (2 ^ Zpos (digits2_pos m) <= 2 ^ (k - 1))
      by (apply Z.pow_le_mono_r; lia). lia.
  - assert (2 ^ k <= 2 ^ (Zpos (digits2_pos m) - 1))
      by (apply Z.pow_le_mono_r; lia). lia.
Qed.

Lemma canonical_facts m e :
  canonical_mantissa prec emax m e = true ->
  -1074 <= e /\ Zpos (digits2_pos m) <= 53 /\
  (-1074 < e -> Zpos (digits2_pos m) = 53).
Proof.
  unfold canonical_mantissa. rewrite fexp_eq. intros H%Z.eqb_eq. lia.
Qed.

Lemma bounded_facts m e :
  bounded prec emax m e = true ->
  -1074 <= e /\ Zpos (digits2_pos m) <= 53 /\
  (-1074 < e -> Zpos (digits2_pos m) = 53).
Proof.
  unfold bounded. intros [H _]%andb_prop. by apply canonical_facts.
Qed.

Lemma pow2_pos k : 0 <= k -> 0 < 2 ^ k.
Proof. intros. apply Z.pow_pos_nonneg; lia. Qed.

(** Of two valid positive floats, the one with the larger exponent is
    the larger. *)
Lemma larger_exponent m1 e1 m2 e2 :
  bounded prec emax m1 e1 = true ->
  bounded prec emax m2 e2 = true ->
  e2 < e1 ->
  Zpos m2 * 2 ^ (e2 + 1074) < Zpos m1 * 2 ^ (e1 + 1074).
Proof.
  intros (Hlo1 & Hd1 & Hn1)%bounded_facts (Hlo2 & Hd2 & _)%bounded_facts Hlt.
  specialize (Hn1 ltac:(lia)).
  pose proof (digits_bounds m1) as [Hm1 _]. rewrite Hn1 in Hm1.
  pose proof (digits_bounds m2) as [_ Hm2].
  assert (2 ^ Zpos (digits2_pos m2) <= 2 ^ 53) by (apply Z.pow_le_mono_r; lia).
  replace (e1 + 1074) with ((e2 + 1074) + (e1 - e2)) by lia.
  rewrite (Z.pow_add_r 2 (e2 + 1074) (e1 - e2)) by lia.
  assert (0 < 2 ^ (e2 + 1074)) by (apply pow2_pos; lia).
  assert (2 ^ 1 <= 2 ^ (e1 - e2)) by (apply Z.pow_le_mono_r; lia).
  change (2 ^ 1) with 2 in *. change (2 ^ (53 - 1)) with (2 ^ 52) in Hm1.
  assert (Zpos m2 < 2 * 2 ^ 52) by (change (2 * 2 ^ 52) with (2 ^ 53); lia).
  apply Z.lt_le_trans with (2 * 2 ^ 52 * 2 ^ (e2 + 1074)).
  { apply Z.mul_lt_mono_pos_r; lia. }
  rewrite (Z.mul_comm (2 ^ (e2 + 1074))), Z.mul_assoc.
  apply Z.mul_le_mono_nonneg_r; [lia|].
  rewrite (Z.mul_comm 2).
  apply Z.mul_le_mono_nonneg; lia.
Qed.

Lemma SFltb_false_units s1 m1 e1 s2 m2 e2 :
  bounded prec emax m1 e1 = true ->
  bounded prec emax m2 e2 = true ->
  SFltb (S754_finite s1 m1 e1) (S754_finite s2 m2 e2) = false ->
  units (S754_finite s2 m2 e2) <= units (S754_finite s1 m1 e1).
Proof.
  intros H1 H2. unfold SFltb, SFcompare, units.
  pose proof (bounded_facts _ _ H1) as (Hlo1 & _).
  pose proof (bounded_facts _ _ H2) as (Hlo2 & _).
  pose proof (larger_exponent _ _ _ _ H1 H2) as Hlt12.
  pose proof (larger_exponent _ _ _ _ H2 H1) as Hlt21.
  clear H1 H2.
  assert (0 < 2 ^ (e1 + 1074)) as Hp1 by (apply pow2_pos; lia).
  assert (0 < 2 ^ (e2 + 1074)) as Hp2 by (apply pow2_pos; lia).
  assert (0 < Zpos m1 * 2 ^ (e1 + 1074)) by lia.
  assert (0 < Zpos m2 * 2 ^ (e2 + 1074)) by lia.
  rewrite !Pos.compare_cont_spec. cbn [Pos.switch_Eq].
  destruct s1, s2; try done; try lia.
  - destruct (e1 ?= e2) eqn:E; try done.
    + apply Z.compare_eq_iff in E. subst e2.
      destruct (m1 ?= m2)%positive eqn:Em; cbn [CompOpp]; try done; intros _.
      * apply Pos.compare_eq_iff in Em. by subst.
      * apply Pos2Z.pos_lt_pos in Em.
        assert (Zpos m1 * 2 ^ (e1 + 1074) <= Zpos m2 * 2 ^ (e1 + 1074))
          by (apply Z.mul_le_mono_nonneg_r; lia).
        lia.
    + intros _. specialize (Hlt21 E). lia.
  - destruct (e1 ?= e2) eqn:E; try done.
    + apply Z.compare_eq_iff in E. subst e2.
      destruct (m1 ?= m2)%positive eqn:Em; try done; intros _.
      * apply Pos.compare_eq_iff in Em. by subst.
      * apply Pos.compare_gt_iff, Pos2Z.pos_lt_pos in Em.
        apply Z.mul_le_mono_nonneg_r; lia.
    + apply Z.compare_gt_iff in E. intros _. specialize (Hlt12 E). lia.
Qed.

Lemma iter_xO_value m d : Zpos (Pos.iter xO m d) = Zpos m * 2 ^ Zpos d.
Proof.
  induction d as [|d IH] using Pos.peano_ind.
  - simpl. lia.
  - rewrite Pos.iter_succ, Pos2Z.inj_succ, Z.pow_succ_r by lia.
    rewrite Pos2Z.inj_xO, IH. lia.
Qed.

Lemma shl_align_value m e e' :
  e' <= e -> Zpos (fst (shl_align m e e')) = Zpos m * 2 ^ (e - e').
Proof.
  intros Hle. unfold shl_align.
  destruct (e' - e) as [|d|d] eqn:Hd.
  - replace (e - e') with 0 by lia. simpl. lia.
  - lia.
  - simpl. rewrite iter_xO_value. f_equal. f_equal. lia.
Qed.

(** What rounding a mantissa of sign [s] gives is never of the other
    sign. *)
Lemma binary_round_aux_sign m e l :
  sf_negative (binary_round_aux prec emax false m e l) = false.
Proof.
  unfold binary_round_aux.
  destruct (shr_fexp prec emax m e l) as [mrs' e'].
  destruct (shr_fexp prec emax _ e' loc_Exact) as [mrs'' e''].
  destruct (shr_m mrs''); simpl; try reflexivity.
  destruct (e'' <=? emax - prec); reflexivity.
Qed.

Lemma binary_normalize_sign z e :
  0 <= z -> sf_negative (binary_normalize prec emax z e false) = false.
Proof.
  intros Hz. destruct z as [|p|p]; simpl; [done| |lia].
  unfold binary_round. destruct (shl_align _ _ _). apply binary_round_aux_sign.
Qed.

(** [x - y] is not negative when [x] is not below [y]. *)
Lemma SFsub_finite_sign s1 m1 e1 s2 m2 e2 :
  -1074 <= e1 -> -1074 <= e2 ->
  units (S754_finite s2 m2 e2) <= units (S754_finite s1 m1 e1) ->
  sf_negative (SFsub prec emax (S754_finite s1 m1 e1) (S754_finite s2 m2 e2))
  = false.
Proof.
  intros Hlo1 Hlo2 Hle. unfold SFsub.
  apply binary_normalize_sign.
  set (ez := Z.min e1 e2).
  assert (0 < 2 ^ (ez + 1074)) as Hpz by (apply pow2_pos; lia).
  assert (units (S754_finite s1 m1 e1)
          = cond_Zopp s1 (Zpos (fst (shl_align m1 e1 ez))) * 2 ^ (ez + 1074)) as E1.
  { rewrite shl_align_value by lia. unfold units.
    replace (e1 + 1074) with ((e1 - ez) + (ez + 1074)) by lia.
    rewrite Z.pow_add_r by lia. destruct s1; simpl; lia. }
  assert (units (S754_finite s2 m2 e2)
          = cond_Zopp s2 (Zpos (fst (shl_align m2 e2 ez))) * 2 ^ (ez + 1074)) as E2.
  { rewrite shl_align_value by lia. unfold units.
    replace (e2 + 1074) with ((e2 - ez) + (ez + 1074)) by lia.
    rewrite Z.pow_add_r by lia. destruct s2; simpl; lia. }
  rewrite E1, E2 in Hle.
  apply Z.mul_le_mono_pos_r in Hle; [|done]. lia.
Qed.

Lemma valid_exponent s m e :
  valid_binary (S754_finite s m e) = true -> -1074 <= e.
Proof. simpl. intros H. by apply bounded_facts in H as [? _]. Qed.

Lemma SFsub_sign x y :
  valid_binary x = true ->
  valid_binary y = true ->
  SFltb x y = false ->
  sf_negative (SFsub prec emax x y) = false.
Proof.
  intros Hx Hy Hlt.
  destruct x as [sx|sx| |sx mx ex], y as [sy|sy| |sy my ey];
    try (destruct sx); try (destruct sy); try done.
  all: apply SFsub_finite_sign; eauto using valid_exponent.
  all: by apply SFltb_false_units.
Qed.

(** Float against float. *)
Lemma float_sub_not_negative (f g : float) :
  PrimFloat.ltb f g = false -> not_negative (NFloat (f - g)).
Proof.
  intros Hlt. unfold not_negative. rewrite float_negative, sub_spec.
  apply SFsub_sign; auto using Prim2SF_valid.
  by rewrite <- ltb_spec.
Qed.

(** ** Rounding an integer *)

Lemma iter_pos_count {A} (f : A -> A) (P : Z -> A -> Prop) :
  (forall k x, 0 <= k -> P k x -> P (k + 1) (f x)) ->
  forall n k x, 0 <= k -> P k x -> P (k + Zpos n) (SpecFloat.iter_pos f n x).
Proof.
  intros Hstep. induction n as [n IH|n IH|]; intros k x Hk HP; simpl.
  - replace (k + Zpos n~1) with (((k + 1) + Zpos n) + Zpos n) by lia.
    apply IH; [lia|]. apply IH; [lia|]. by apply Hstep.
  - replace (k + Zpos n~0) with ((k + Zpos n) + Zpos n) by lia.
    apply IH; [lia|]. by apply IH.
  - by apply Hstep.
Qed.

Lemma shr_1_shifted m0 k mrs :
  0 <= m0 -> 0 <= k -> shifted m0 k mrs -> shifted m0 (k + 1) (shr_1 mrs).
Proof.
  intros Hm0 Hk [Hq Hbits].
  assert (0 < 2 ^ k) as Hpk by (by apply pow2_pos).
  assert (2 ^ (k + 1) = 2 ^ k * 2) as Hpow by (rewrite Z.pow_add_r by lia; lia).
  assert (m0 / 2 ^ (k + 1) = m0 / 2 ^ k / 2) as Hdiv
    by (rewrite Hpow, Z.div_div by lia; done).
  assert (0 <= m0 / 2 ^ k) as Hq0 by (apply Z.div_pos; lia).
  assert (m0 mod 2 ^ (k + 1) = 0 -> m0 mod 2 ^ k = 0 /\ (m0 / 2 ^ k) mod 2 = 0)
    as Hzero.
  { intros H0. rewrite Hpow in H0.
    rewrite Z.rem_mul_r in H0 by lia.
    pose proof (Z.mod_pos_bound m0 (2 ^ k) Hpk).
    pose proof (Z.mod_pos_bound (m0 / 2 ^ k) 2 ltac:(lia)). nia. }
  destruct mrs as [m r s]. simpl in *. subst m.
  unfold shifted. rewrite Hdiv.
  destruct (m0 / 2 ^ k) as [|p|p] eqn:Hp; [| |lia].
  - simpl. split; [done|]. intros Hrs Hz. apply Hzero in Hz as [Hz _]. by apply Hbits.
  - destruct p as [p|p|]; simpl.
    + split; [apply (Z.div_unique _ 2 _ 1); lia|].
      intros _ Hz. apply Hzero in Hz as [_ Hz].
      rewrite <- (Z.mod_unique (Zpos p~1) 2 (Zpos p) 1) in Hz; lia.
    + split; [apply (Z.div_unique _ 2 _ 0); lia|].
      intros Hrs Hz. apply Hzero in Hz as [Hz _]. by apply Hbits.
    + split; [done|]. intros _ Hz. apply Hzero in Hz as [_ Hz]. done.
Qed.

Lemma iter_shr_1_shifted m0 n :
  0 <= m0 ->
  shifted m0 (Zpos n) (SpecFloat.iter_pos shr_1 n (shr_record_of_loc m0 loc_Exact)).
Proof.
  intros Hm0.
  apply (iter_pos_count shr_1 (shifted m0)
           (fun k x Hk => shr_1_shifted m0 k x Hm0 Hk) n 0); [done|].
  split; simpl; [by rewrite Z.div_1_r|done].
Qed.

Lemma shr_fexp_canonical m e :
  Zpos (digits2_pos m) = 53 -> -1074 <= e ->
  shr_fexp prec emax (Zpos m) e loc_Exact
  = (shr_record_of_loc (Zpos m) loc_Exact, e).
Proof.
  intros Hd He. unfold shr_fexp. rewrite fexp_eq. cbn [Zdigits2]. rewrite Hd.
  replace (Z.max (53 + e - 53) (-1074) - e) with 0 by lia. reflexivity.
Qed.

(** A mantissa of 53 digits is kept as it is. *)
Lemma binary_round_aux_canonical s m e :
  Zpos (digits2_pos m) = 53 -> -1074 <= e ->
  binary_round_aux prec emax s (Zpos m) e loc_Exact
  = if e <=? 971 then S754_finite s m e else S754_infinity s.
Proof.
  intros Hd He. unfold binary_round_aux.
  rewrite shr_fexp_canonical by done. cbn [shr_record_of_loc shr_m
    loc_of_shr_record round_nearest_even].
  rewrite shr_fexp_canonical by done. cbn [shr_record_of_loc shr_m].
  reflexivity.
Qed.

Lemma round_nearest_even_cases q mrs :
  round_nearest_even q (loc_of_shr_record mrs) = q \/
  (round_nearest_even q (loc_of_shr_record mrs) = q + 1 /\
   orb (shr_r mrs) (shr_s mrs) = true).
Proof.
  destruct mrs as [m [|] [|]]; simpl; auto.
  destruct (Z.even q); auto.
Qed.

Lemma bounded_53 m e :
  Zpos (digits2_pos m) = 53 -> -1074 <= e <= 971 ->
  bounded prec emax m e = true.
Proof.
  intros Hd He. unfold bounded, canonical_mantissa. rewrite fexp_eq, Hd.
  apply andb_true_intro. split.
  - apply Z.eqb_eq. lia.
  - apply Z.leb_le. change (emax - prec) with 971. lia.
Qed.

Lemma shl_align_snd m e e' : e' <= e -> snd (shl_align m e e') = e'.
Proof.
  intros Hle. unfold shl_align.
  destruct (e' - e) as [|d|d] eqn:Hd; simpl; lia.
Qed.

Lemma pow2_split a b : 0 <= a -> 0 <= b -> 2 ^ (a + b) = 2 ^ a * 2 ^ b.
Proof. intros. by rewrite Z.pow_add_r. Qed.

(** The second stage of [binary_round_aux], on a mantissa of 53 digits
    or on 2^53. *)
Lemma round_stage2 s m1 n :
  0 < n -> 2 ^ 52 <= m1 <= 2 ^ 53 ->
  represents s (m1 * 2 ^ n)
    (let '(mrs, e) := shr_fexp prec emax m1 n loc_Exact in
     match shr_m mrs with
     | Z0 => S754_zero s
     | Zpos m => if e <=? emax - prec then S754_finite s m e
                 else S754_infinity s
     | Zneg _ => S754_nan
     end).
Proof.
  intros Hn Hm1.
  destruct m1 as [|p|p]; [simpl in Hm1; lia| |lia].
  destruct (Z.eq_dec (Zpos p) (2 ^ 53)) as [Heq|Hne].
  - assert (p = 9007199254740992%positive) as ->.
    { change (2 ^ 53) with (Zpos 9007199254740992) in Heq. by inversion Heq. }
    unfold shr_fexp. rewrite fexp_eq.
    change (Zdigits2 (Zpos 9007199254740992)) with 54.
    replace (Z.max (54 + n - 53) (-1074) - n) with 1 by lia.
    cbn [shr shr_record_of_loc SpecFloat.iter_pos shr_1 shr_m].
    destruct (n + 1 <=? emax - prec) eqn:Hle; [|done].
    apply Z.leb_le in Hle. change (emax - prec) with 971 in Hle.
    simpl. split; [done|]. split.
    + apply bounded_53; [reflexivity|lia].
    + replace (n + 1 + 1074) with (1074 + (n + 1)) by lia.
      rewrite (pow2_split 1074 (n + 1)), (pow2_split n 1) by lia.
      generalize (2 ^ 1074) (2 ^ n). intros P Q.
      change (2 ^ 1) with 2. lia.
  - assert (Zpos (digits2_pos p) = 53) as Hd.
    { apply digits_unique. change (53 - 1) with 52. lia. }
    rewrite shr_fexp_canonical by (try done; lia).
    cbn [shr_record_of_loc shr_m].
    destruct (n <=? emax - prec) eqn:Hle; [|done].
    apply Z.leb_le in Hle. change (emax - prec) with 971 in Hle.
    simpl. split; [done|]. split.
    + apply bounded_53; [done|lia].
    + replace (n + 1074) with (1074 + n) by lia.
      rewrite (pow2_split 1074 n) by lia.
      generalize (2 ^ 1074) (2 ^ n). intros P Q. lia.
Qed.

Lemma binary_round_integer s m :
  exists M, rounded (Zpos m) M /\
            represents s M (binary_round prec emax s m 0).
Proof.
  unfold binary_round. rewrite fexp_eq.
  pose proof (digits_bounds m) as [Hlo Hhi].
  set (d := Zpos (digits2_pos m)) in *.
  assert (0 < d) as Hd by done.
  replace (Z.max (d + 0 - 53) (-1074)) with (d - 53) by lia.
  destruct (Z.le_gt_cases d 53) as [Hsmall|Hbig].
  - (* at most 53 digits: exact *)
    exists (Zpos m). split; [by left|].
    pose proof (shl_align_value m 0 (d - 53) ltac:(lia)) as Hval.
    pose proof (shl_align_snd m 0 (d - 53) ltac:(lia)) as Hsnd.
    destruct (shl_align m 0 (d - 53)) as [mz ez]. simpl in Hval, Hsnd. subst ez.
    replace (0 - (d - 53)) with (53 - d) in Hval by lia.
    assert (2 ^ (d - 1) * 2 ^ (53 - d) = 2 ^ 52) as E52
      by (rewrite <- pow2_split by lia; f_equal; lia).
    assert (2 ^ d * 2 ^ (53 - d) = 2 ^ 53) as E53
      by (rewrite <- pow2_split by lia; f_equal; lia).
    assert (0 < 2 ^ (53 - d)) by (apply pow2_pos; lia).
    assert (Zpos (digits2_pos mz) = 53) as Hdz.
    { apply digits_unique. rewrite Hval. change (53 - 1) with 52.
      rewrite <- E52, <- E53. split.
      - apply Z.mul_le_mono_nonneg_r; lia.
      - apply Z.mul_lt_mono_pos_r; lia. }
    rewrite binary_round_aux_canonical by (try done; lia).
    replace (d - 53 <=? 971) with true by (symmetry; apply Z.leb_le; lia).
    simpl. split; [done|]. split; [apply bounded_53; [done|lia]|].
    rewrite Hval. replace (d - 53 + 1074) with (1074 - (53 - d)) by lia.
    rewrite <- Z.mul_assoc. f_equal.
    rewrite <- pow2_split by lia. f_equal. lia.
  - (* more than 53 digits: the low [d - 53] bits are rounded away *)
    assert (shl_align m 0 (d - 53) = (m, 0)) as ->.
    { unfold shl_align. destruct (d - 53 - 0) eqn:E; try done. lia. }
    destruct (d - 53) as [|n|n] eqn:Hn; [lia| |lia].
    assert (2 ^ (52 + Zpos n) <= Zpos m < 2 ^ (53 + Zpos n)) as [Hlo' Hhi'].
    { replace (52 + Zpos n) with (d - 1) by lia.
      replace (53 + Zpos n) with d by lia. done. }
    assert (0 < 2 ^ Zpos n) as Hpn by (by apply pow2_pos).
    unfold binary_round_aux.
    assert (shr_fexp prec emax (Zpos m) 0 loc_Exact
            = (SpecFloat.iter_pos shr_1 n (shr_record_of_loc (Zpos m) loc_Exact),
               Zpos n)) as ->.
    { unfold shr_fexp. rewrite fexp_eq. cbn [Zdigits2]. fold d.
      replace (Z.max (d + 0 - 53) (-1074) - 0) with (Zpos n) by lia.
      reflexivity. }
    destruct (iter_shr_1_shifted (Zpos m) n ltac:(done)) as [Hq Hbits].
    set (mrs := SpecFloat.iter_pos shr_1 n _) in *.
    assert (2 ^ 52 <= shr_m mrs < 2 ^ 53) as Hqb.
    { rewrite Hq. split.
      - apply Z.div_le_lower_bound; [done|]. by rewrite <- pow2_split, Z.add_comm.
      - apply Z.div_lt_upper_bound; [done|]. by rewrite <- pow2_split, Z.add_comm. }
    destruct (round_nearest_even_cases (shr_m mrs) mrs) as [->|[-> Hup]].
    + exists (Zpos m / 2 ^ Zpos n * 2 ^ Zpos n). split.
      * right. exists (Zpos n). auto.
      * rewrite <- Hq. apply round_stage2; lia.
    + exists ((Zpos m / 2 ^ Zpos n + 1) * 2 ^ Zpos n). split.
      * right. exists (Zpos n). split; [done|]. split; [done|]. right. auto.
      * rewrite <- Hq. apply round_stage2; lia.
Qed.

(** Rounding is monotone against the floats: a valid positive float at
    or below [m] is at or below the rounded [m], and likewise above. *)
Lemma rounded_monotone m M mg eg :
  0 < m -> rounded m M ->
  bounded prec emax mg eg = true ->
  (Zpos mg * 2 ^ (eg + 1074) <= m * 2 ^ 1074 ->
   Zpos mg * 2 ^ (eg + 1074) <= M * 2 ^ 1074) /\
  (m * 2 ^ 1074 <= Zpos mg * 2 ^ (eg + 1074) ->
   M * 2 ^ 1074 <= Zpos mg * 2 ^ (eg + 1074)).
Proof.
  intros Hm [->|(n & Hn & Hbig & HM)] Hg; [done|].
  apply bounded_facts in Hg as (Hlo & Hdg & _).
  pose proof (digits_bounds mg) as [_ Hmg].
  assert (2 ^ Zpos (digits2_pos mg) <= 2 ^ 53) as H53
    by (apply Z.pow_le_mono_r; lia).
  assert (Zpos mg < 2 ^ 53) as Hmg53 by lia. clear Hmg H53 Hdg.
  assert (0 < 2 ^ n) as Hpn by (apply pow2_pos; lia).
  assert (0 < 2 ^ 1074) as Hp by (by apply pow2_pos).
  pose proof (Z.div_mod m (2 ^ n) ltac:(lia)) as Hdm.
  pose proof (Z.mod_pos_bound m (2 ^ n) Hpn) as Hr.
  rewrite (pow2_split 52 n) in Hbig by lia.
  destruct (Z.le_gt_cases n eg) as [Hge|Hlt].
  - replace (eg + 1074) with ((eg - n) + n + 1074) by lia.
    rewrite !pow2_split by lia.
    assert (0 < 2 ^ (eg - n)) as Hpe by (apply pow2_pos; lia).
    revert Hdm Hr HM Hbig Hpn Hp Hpe Hmg53.
    generalize (2 ^ (eg - n)) (2 ^ n) (2 ^ 1074) (m / 2 ^ n) (m mod 2 ^ n)
      (Zpos mg) (2 ^ 52) (2 ^ 53).
    intros E Pn P q r G K52 K53 Hdm Hr HM Hbig Hpn Hp Hpe Hmg53.
    assert (forall a b, a * P <= b * P <-> a <= b) as Hcancel.
    { intros a b. split; [apply Z.mul_le_mono_pos_r|
                          intros; apply Z.mul_le_mono_nonneg_r]; lia. }
    replace (G * (E * Pn * P)) with (G * E * Pn * P) by ring.
    rewrite !Hcancel. clear Hcancel. generalize (G * E). intros K.
    destruct (Z.le_gt_cases K q) as [HK|HK];
      split; intros Hle; destruct HM as [->|[-> Hnz]]; nia.
  - assert (2 ^ (eg + 1074) * 2 ^ (n - eg) = 2 ^ n * 2 ^ 1074) as Hsplit.
    { rewrite <- !pow2_split by lia. f_equal. lia. }
    assert (2 <= 2 ^ (n - eg)) as H2.
    { change 2 with (2 ^ 1) at 1. apply Z.pow_le_mono_r; lia. }
    assert (0 < 2 ^ (eg + 1074)) as Hpe by (apply pow2_pos; lia).
    change (2 ^ 53) with (2 ^ 52 * 2) in Hmg53.
    assert (Zpos mg * 2 ^ (eg + 1074) < 2 ^ 52 * 2 ^ n * 2 ^ 1074) as Hsmall.
    { rewrite <- Z.mul_assoc, <- Hsplit.
      assert (0 < Zpos mg) as Hgpos by done.
      revert Hmg53 H2 Hpe Hgpos.
      generalize (2 ^ (eg + 1074)) (2 ^ (n - eg)) (Zpos mg) (2 ^ 52).
      intros Pe D G K52 Hmg53 H2 Hpe Hgpos.
      assert (G * Pe < K52 * 2 * Pe) by (apply Z.mul_lt_mono_pos_r; lia).
      assert (K52 * 2 * Pe <= K52 * (Pe * D)) by nia.
      lia. }
    revert Hdm Hr HM Hbig Hpn Hp Hsmall.
    generalize (Zpos mg * 2 ^ (eg + 1074)) (2 ^ n) (2 ^ 1074) (m / 2 ^ n)
      (m mod 2 ^ n) (2 ^ 52).
    intros G Pn P q r K52 Hdm Hr HM Hbig Hpn Hp Hsmall.
    assert (K52 * Pn * P <= m * P) as HbigP
      by (apply Z.mul_le_mono_nonneg_r; lia).
    assert (K52 <= q) as Hq by nia.
    assert (K52 * Pn <= q * Pn) as Hq' by (apply Z.mul_le_mono_nonneg_r; lia).
    assert (K52 * Pn * P <= q * Pn * P) as Hq''
      by (apply Z.mul_le_mono_nonneg_r; lia).
    split; intros Hle; [|lia].
    destruct HM as [->|[-> Hnz]]; [lia|].
    assert (q * Pn * P <= (q + 1) * Pn * P) by nia. lia.
Qed.

Lemma compare_scaled_units z s m e :
  -1074 <= e ->
  compare_scaled z s m e = (z * 2 ^ 1074 ?= units (S754_finite s m e)).
Proof.
  intros He. unfold compare_scaled, units.
  assert (0 < 2 ^ 1074) as Hp by (by apply pow2_pos).
  destruct (0 <=? e) eqn:Hsign.
  - apply Z.leb_le in Hsign.
    rewrite (Zmult_compare_compat_r _ _ (2 ^ 1074)) by lia.
    rewrite (Z.add_comm e), (pow2_split 1074 e) by lia.
    f_equal. destruct s; simpl; lia.
  - apply Z.leb_gt in Hsign.
    assert (0 < 2 ^ (e + 1074)) as Hpe by (apply pow2_pos; lia).
    rewrite (Zmult_compare_compat_r _ _ (2 ^ (e + 1074))) by lia.
    rewrite <- Z.mul_assoc, <- pow2_split by lia.
    replace (- e + (e + 1074)) with 1074 by lia.
    f_equal. destruct s; simpl; lia.
Qed.

(** What [float(x)] is: zero for zero; otherwise a valid finite float of
    the sign of [x] whose magnitude is [|x|] rounded. *)
Lemma int_to_float_spec x f0 :
  int_to_float x = Ret f0 ->
  (x = 0 /\ Prim2SF f0 = S754_zero false) \/
  (exists mX eX M,
     Prim2SF f0 = S754_finite (x <? 0) mX eX /\
     bounded prec emax mX eX = true /\
     x <> 0 /\ rounded (Z.abs x) M /\
     Zpos mX * 2 ^ (eX + 1074) = M * 2 ^ 1074).
Proof.
  unfold int_to_float.
  destruct x as [|m|m]; simpl binary_normalize.
  - intros [= <-]. left. split; [done|]. reflexivity.
  - destruct (binary_round_integer false m) as (M & HM & Hrep).
    destruct (binary_round prec emax false m 0) as [ |s'| |s' mX eX] eqn:E;
      try done.
    destruct Hrep as (-> & Hb & Hval). intros [= <-]. right.
    exists mX, eX, M.
    split; [exact (Prim2SF_SF2Prim (S754_finite false mX eX) Hb)|auto].
  - destruct (binary_round_integer true m) as (M & HM & Hrep).
    destruct (binary_round prec emax true m 0) as [ |s'| |s' mX eX] eqn:E;
      try done.
    destruct Hrep as (-> & Hb & Hval). intros [= <-]. right.
    exists mX, eX, M.
    split; [exact (Prim2SF_SF2Prim (S754_finite true mX eX) Hb)|auto].
Qed.

(** [float(x)] against a valid finite float, in units: rounding [x]
    does not cross it. *)
Lemma int_float_units x mX eX M sy my ey :
  x <> 0 -> rounded (Z.abs x) M ->
  bounded prec emax mX eX = true ->
  Zpos mX * 2 ^ (eX + 1074) = M * 2 ^ 1074 ->
  bounded prec emax my ey = true ->
  (units (S754_finite sy my ey) <= x * 2 ^ 1074 ->
   units (S754_finite sy my ey) <= units (S754_finite (x <? 0) mX eX)) /\
  (x * 2 ^ 1074 <= units (S754_finite sy my ey) ->
   units (S754_finite (x <? 0) mX eX) <= units (S754_finite sy my ey)).
Proof.
  intros Hx HM HX Hval Hy.
  destruct (rounded_monotone (Z.abs x) M my ey ltac:(lia) HM Hy) as [Hlow Hup].
  pose proof (bounded_facts _ _ Hy) as (Hlo & _).
  pose proof (bounded_facts _ _ HX) as (HloX & _). clear Hy HM HX.
  assert (0 < 2 ^ 1074) as Hp by (by apply pow2_pos).
  assert (0 < 2 ^ (eX + 1074)) as HpX by (apply pow2_pos; lia).
  assert (0 < 2 ^ (ey + 1074)) as Hpy by (apply pow2_pos; lia).
  assert (0 < Zpos my * 2 ^ (ey + 1074)) as HG by lia.
  assert (0 < M * 2 ^ 1074) as HMpos by (rewrite <- Hval; lia).
  unfold units. rewrite Hval. clear Hval.
  revert Hlow Hup HG HMpos Hp.
  generalize (Zpos my * 2 ^ (ey + 1074)) (2 ^ 1074). intros G P Hlow Hup HG HMpos Hp.
  destruct (x <? 0) eqn:Hsign.
  - apply Z.ltb_lt in Hsign.
    replace (Z.abs x) with (- x) in * by lia.
    replace (- x * P) with (- (x * P)) in * by lia.
    assert (x * P < 0) by nia.
    destruct sy; split; intros Hle; lia.
  - apply Z.ltb_ge in Hsign.
    replace (Z.abs x) with x in * by lia.
    assert (0 < x * P) by nia.
    destruct sy; split; intros Hle; lia.
Qed.

(** Integer stock, float request. *)
Lemma int_float_sub_not_negative x g f0 :
  num_ltb (NInt x) (NFloat g) = false ->
  int_to_float x = Ret f0 ->
  not_negative (NFloat (f0 - g)).
Proof.
  intros Hlt Hconv. unfold not_negative.
  rewrite float_negative, sub_spec. simpl in Hlt. unfold Z_compare_float in Hlt.
  pose proof (Prim2SF_valid g) as Hg.
  assert (0 < 2 ^ 1074) as Hp by (by apply pow2_pos).
  destruct (int_to_float_spec x f0 Hconv)
    as [[-> ->]|(mX & eX & M & -> & Hb & Hx & HM & Hval)];
    destruct (Prim2SF g) as [sy|sy| |sy my ey]; try done.
  - by destruct sy.
  - by destruct sy.
  - simpl in *. destruct sy; [done|].
    rewrite compare_scaled_positive in Hlt by lia. done.
  - destruct (x ?= 0) eqn:E; try done.
    + apply Z.compare_eq_iff in E. lia.
    + apply Z.compare_gt_iff in E. simpl.
      by replace (x <? 0) with false by (symmetry; apply Z.ltb_ge; lia).
  - by destruct sy.
  - pose proof (valid_exponent _ _ _ Hg) as Hey.
    rewrite compare_scaled_units in Hlt by done.
    apply SFsub_finite_sign;
      [by apply bounded_facts in Hb as [? _]|done|].
    apply (int_float_units x mX eX M sy my ey); try done.
    apply Z.compare_ge_iff. intros E. by rewrite E in Hlt.
Qed.

(** Float stock, integer request. *)
Lemma float_int_sub_not_negative f y g0 :
  num_ltb (NFloat f) (NInt y) = false ->
  int_to_float y = Ret g0 ->
  not_negative (NFloat (f - g0)).
Proof.
  intros Hlt Hconv. unfold not_negative.
  rewrite float_negative, sub_spec. simpl in Hlt. unfold Z_compare_float in Hlt.
  pose proof (Prim2SF_valid f) as Hf.
  assert (0 < 2 ^ 1074) as Hp by (by apply pow2_pos).
  destruct (int_to_float_spec y g0 Hconv)
    as [[-> ->]|(mY & eY & M & -> & Hb & Hy & HM & Hval)];
    destruct (Prim2SF f) as [sx|sx| |sx mx ex]; try done.
  - by destruct sx.
  - by destruct sx.
  - simpl in *. destruct sx; [|done].
    rewrite compare_scaled_negative in Hlt by lia. done.
  - destruct (y ?= 0) eqn:E; try done.
    + apply Z.compare_eq_iff in E. lia.
    + simpl.
      by replace (y <? 0) with true by (symmetry; apply Z.ltb_lt; exact E).
  - by destruct sx.
  - pose proof (valid_exponent _ _ _ Hf) as Hex.
    rewrite compare_scaled_units in Hlt by done.
    apply SFsub_finite_sign;
      [done|by apply bounded_facts in Hb as [? _]|].
    apply (int_float_units y mY eY M sx mx ex); try done.
    apply Z.compare_le_iff. intros E. by rewrite E in Hlt.
Qed.

(** Whatever the numbers: a stock that is not below the request is not
    negative once the request is taken off. *)
Lemma sub_not_negative q r left :
  num_ltb q r = false ->
  num_sub q r = Ret left ->
  not_negative left.
Proof.
  destruct q as [x|f], r as [y|g]; unfold num_sub, num_arith; simpl num_ltb.
  - intros H%Z.ltb_ge [= <-]. unfold not_negative. simpl. apply Z.ltb_ge. lia.
  - intros Hlt Hsub.
    destruct (int_to_float x) as [f0|] eqn:Hconv; simpl in Hsub; [|done].
    injection Hsub as <-. by apply (int_float_sub_not_negative x).
  - intros Hlt Hsub.
    destruct (int_to_float y) as [g0|] eqn:Hconv; simpl in Hsub; [|done].
    injection Hsub as <-. by apply (float_int_sub_not_negative f y).
  - intros Hlt [= <-]. by apply float_sub_not_negative.
Qed.

(* ================================================================== *)
(** * Facts about the handler *)

(** The key of a new row is not in use. *)
Lemma next_id_fresh {A} (table : gmap Z A) : table !! next_id table = None.
Proof.
  unfold next_id.
  assert (forall k x, table !! k = Some x ->
                      k <= map_fold (fun k _ acc => Z.max k acc) 0 table) as Hmax.
  { apply (map_fold_weak_ind
             (fun r (m : gmap Z A) => forall k x, m !! k = Some x -> k <= r)).
    - intros k x. by rewrite lookup_empty.
    - intros i x m r Hi IH k y. rewrite lookup_insert.
      case_decide; intros Hk.
      + subst. lia.
      + specialize (IH k y Hk). lia. }
  destruct (table !! _) as [x|] eqn:Hx; [|done].
  apply Hmax in Hx. lia.
Qed.

Lemma sell_same m : sell (Medicine.quantity m) m = m.
Proof. by destruct m. Qed.

Lemma with_items_nil o : with_items [] o = o.
Proof. destruct o. unfold with_items. simpl. by rewrite app_nil_r. Qed.

Lemma with_items_cons it items o :
  with_items items (with_item it o) = with_items (it :: items) o.
Proof. unfold with_items, with_item. simpl. by rewrite <- app_assoc. Qed.

Ltac run_handler :=
  unfold bind, ret, pure, eval, try_except, session_rollback, session_add_item,
    session_add, session_commit, query_get, set_quantity, new_order_item,
    set_total, log, update in *; simpl in *.

Section CheckoutFacts.

Variable env : environment.

Abbreviation checkout_item' := (checkout_item env).

(** The loop over [pre ++ post] is the loop over [pre], then over [post]
    if [pre] ran through. *)
Lemma for_each_app {A B} (body : A -> B -> handler B) pre post acc s :
  for_each body (pre ++ post) acc s =
  match for_each body pre acc s with
  | (Next acc', s') => for_each body post acc' s'
  | other => other
  end.
Proof.
  revert acc s; induction pre as [|x pre IH]; intros acc s; simpl.
  - reflexivity.
  - unfold bind. destruct (body x acc s) as [[acc1|r|e] s1]; auto.
Qed.

(** A line that passes: what was read, what was checked, what was
    written. *)
Lemma checkout_item_next order item t s t' s' :
  checkout_item' order item t s = (Next t', s') ->
  exists ident k m requested unit_price left,
    item !! "id" = Some ident /\ truthy ident = true /\
    primary_key env ident = Some k /\
    medicines (work s) !! k = Some m /\
    item !! "quantity" = Some requested /\
    item !! "price" = Some unit_price /\
    add_line env t item = Ret t' /\
    pylt (Medicine.quantity m) requested = Ret false /\
    pysub (Medicine.quantity m) requested = Ret left /\
    store s' = store s /\
    work s' =
      {| medicines := alter (sell left) k (medicines (work s));
         orders :=
           alter (with_item {| OrderItem.medicine_id := k;
                               OrderItem.quantity := requested;
                               OrderItem.price := unit_price |})
                 order (orders (work s)) |}.
Proof.
  unfold checkout_item, id_missing, getitem.
  intros H.
  destruct (item !! "id") as [ident|] eqn:Hid; [|run_handler; congruence].
  destruct (truthy ident) eqn:Htr; [|run_handler; congruence].
  run_handler.
  destruct (add_line env t item) as [t1|e] eqn:Hadd; simpl in H.
  2:{ destruct (KeyError_or_TypeError e); congruence. }
  destruct (faults env (length (journal s))) as [detail|] eqn:Hfault;
    [congruence|].
  destruct (primary_key env ident) as [k|] eqn:Hk; [|congruence].
  destruct (medicines (work s) !! k) as [m|] eqn:Hm; simpl in H; [|congruence].
  destruct (item !! "quantity") as [requested|] eqn:Hq; simpl in H; [|congruence].
  destruct (pylt (Medicine.quantity m) requested) as [[|]|] eqn:Hlt; simpl in H.
  { destruct (item !! "name"); simpl in H; congruence. }
  2:{ congruence. }
  destruct (pysub (Medicine.quantity m) requested) as [left|] eqn:Hsub;
    simpl in H; [|congruence].
  destruct (item !! "price") as [unit_price|] eqn:Hp; simpl in H; [|congruence].
  inversion H; subst; clear H.
  exists ident, k, m, requested, unit_price, left. simpl.
  repeat split; auto.
Qed.

(** No line touches what is committed. *)
Lemma checkout_item_store order item t s r s' :
  checkout_item' order item t s = (r, s') -> store s' = store s.
Proof.
  unfold checkout_item, id_missing, getitem.
  intros H.
  destruct (item !! "id") as [ident|]; [|run_handler; by inversion H].
  destruct (truthy ident); [|run_handler; by inversion H].
  run_handler.
  destruct (add_line env t item) as [t1|e]; simpl in H.
  2:{ destruct (KeyError_or_TypeError e); by inversion H. }
  destruct (faults env (length (journal s))); [by inversion H|].
  destruct (primary_key env ident) as [k|]; [|by inversion H].
  destruct (medicines (work s) !! k) as [m|]; simpl in H; [|by inversion H].
  destruct (item !! "quantity") as [requested|]; simpl in H; [|by inversion H].
  destruct (pylt (Medicine.quantity m) requested) as [[|]|]; simpl in H.
  { destruct (item !! "name"); simpl in H; by inversion H. }
  2:{ by inversion H. }
  destruct (pysub (Medicine.quantity m) requested) as [left|];
    simpl in H; [|by inversion H].
  destruct (item !! "price") as [unit_price|]; simpl in H; by inversion H.
Qed.

(** A line that answers the request answers with a 400 error, and has
    rolled the session back by then. *)
Lemma checkout_item_return order item t s r s' :
  checkout_item' order item t s = (Return r, s') ->
  (exists err, r = Failure 400 err) /\ work s' = store s'.
Proof.
  unfold checkout_item, id_missing, getitem.
  intros H.
  destruct (item !! "id") as [ident|];
    [|run_handler; inversion H; subst; simpl; eauto].
  destruct (truthy ident); [|run_handler; inversion H; subst; simpl; eauto].
  run_handler.
  destruct (add_line env t item) as [t1|e]; simpl in H.
  2:{ destruct (KeyError_or_TypeError e); inversion H; subst; simpl; eauto. }
  destruct (faults env (length (journal s))); [by inversion H|].
  destruct (primary_key env ident) as [k|];
    [|inversion H; subst; simpl; eauto].
  destruct (medicines (work s) !! k) as [m|]; simpl in H;
    [|inversion H; subst; simpl; eauto].
  destruct (item !! "quantity") as [requested|]; simpl in H; [|by inversion H].
  destruct (pylt (Medicine.quantity m) requested) as [[|]|]; simpl in H.
  { destruct (item !! "name"); simpl in H; inversion H; subst; simpl; eauto. }
  2:{ by inversion H. }
  destruct (pysub (Medicine.quantity m) requested) as [left|];
    simpl in H; [|by inversion H].
  destruct (item !! "price") as [unit_price|]; simpl in H; by inversion H.
Qed.

Lemma for_each_store order cart : forall t s r s',
  for_each (checkout_item' order) cart t s = (r, s') -> store s' = store s.
Proof.
  induction cart as [|item cart IH]; intros t s r s' H; simpl in H.
  - by inversion H.
  - unfold bind in H.
    destruct (checkout_item' order item t s) as [[t1|r1|e1] s1] eqn:Hitem;
      apply checkout_item_store in Hitem.
    + apply IH in H. congruence.
    + inversion H; by subst.
    + inversion H; by subst.
Qed.

Lemma for_each_return order cart : forall t s r s',
  for_each (checkout_item' order) cart t s = (Return r, s') ->
  (exists err, r = Failure 400 err) /\ work s' = store s'.
Proof.
  induction cart as [|item cart IH]; intros t s r s' H; simpl in H.
  - inversion H.
  - unfold bind in H.
    destruct (checkout_item' order item t s) as [[t1|r1|e1] s1] eqn:Hitem.
    + eauto.
    + inversion H; subst. eapply checkout_item_return; eauto.
    + inversion H.
Qed.

(** What a run of the loop that goes through has done: the sum, the
    stock of every medicine, the lines of the order. *)
Lemma for_each_next order cart : forall t s t' s',
  for_each (checkout_item' order) cart t s = (Next t', s') ->
  sum_from env t cart = Ret t' /\
  (forall k,
     medicines (work s') !! k =
     match medicines (work s) !! k with
     | Some m =>
         match stock_after env cart k (Medicine.quantity m) with
         | Ret q => Some (sell q m)
         | Raise _ => None
         end
     | None => None
     end) /\
  exists items,
    Forall2 (line_of env) cart items /\
    orders (work s') = alter (with_items items) order (orders (work s)).
Proof.
  induction cart as [|item cart IH]; intros t s t' s' H; simpl in H.
  - inversion H; subst. split; [done|]. split.
    + intros k. destruct (medicines (work s') !! k) as [m|]; [|done].
      simpl. by rewrite sell_same.
    + exists []. split; [constructor|].
      symmetry. apply alter_id. intros o _. apply with_items_nil.
  - unfold bind in H.
    destruct (checkout_item' order item t s) as [[t1|r1|e1] s1] eqn:Hitem;
      [|by inversion H|by inversion H].
    apply checkout_item_next in Hitem
      as (ident & k & m & requested & unit_price & left & Hid & Htrue & Hk & Hm
          & Hq & Hp & Hsum & Hlt & Hsub & Hst & Hwork).
    destruct (IH _ _ _ _ H) as (IHsum & IHmed & items & IHitems & IHorders).
    split; [|split].
    + simpl. unfold add_line, getitem in Hsum. unfold getitem.
      rewrite Hq, Hp in *. simpl in *. rewrite (pymul_comm env).
      destruct (pymul env unit_price requested) as [x|]; simpl in *; [|done].
      by rewrite Hsum.
    + intros k'. rewrite IHmed, Hwork. simpl.
      unfold refers_to. rewrite Hid, Hk.
      destruct (decide (k = k')) as [->|Hne].
      * rewrite lookup_alter_eq, Hm. simpl.
        rewrite bool_decide_true by done.
        unfold getitem. rewrite Hq. simpl. rewrite Hsub. simpl.
        destruct (stock_after _ _ _ _); done.
      * rewrite lookup_alter_ne by done.
        rewrite bool_decide_false by congruence. done.
    + exists ({| OrderItem.medicine_id := k; OrderItem.quantity := requested;
                 OrderItem.price := unit_price |} :: items).
      split.
      * constructor; [|done]. exists ident. simpl. auto.
      * rewrite IHorders, Hwork. simpl.
        apply map_eq; intros j.
        destruct (decide (order = j)) as [->|Hne].
        -- rewrite !lookup_alter_eq.
           destruct (orders (work s) !! j); simpl; [|done].
           by rewrite with_items_cons.
        -- by rewrite !lookup_alter_ne.
Qed.

(** After the loop the session holds the order and nothing else that is
    new: the commit goes through exactly when the total is a float. *)
Lemma flushable_after uid db cart total s :
  for_each (checkout_item' (next_id (orders db))) cart (NInt 0)
    (snd (begun uid db)) = (Next total, s) ->
  flushable (snd (set_total (next_id (orders db)) total s)) =
  is_Ret (float_of total).
Proof.
  intros Hloop.
  pose proof (for_each_store _ _ _ _ _ _ Hloop) as Hstore.
  apply for_each_next in Hloop as (_ & _ & items & _ & Horders).
  unfold flushable. simpl. rewrite Hstore, Horders. simpl.
  set (order := next_id (orders db)).
  set (o0 := {| Order.user_id := uid; Order.total := NInt 0; Order.items := [] |}).
  assert (orders db !! order = None) as Hfresh by apply next_id_fresh.
  apply Bool.eq_iff_eq_true. rewrite forallb_forall. split.
  - intros Hall.
    specialize (Hall (order, with_total total (with_items items o0))).
    cbv beta iota in Hall. rewrite Hfresh in Hall.
    apply Hall. apply list_elem_of_In, elem_of_map_to_list.
    by rewrite !lookup_alter_eq, lookup_insert_eq.
  - intros Hfloat [k o] Hin.
    apply list_elem_of_In, elem_of_map_to_list in Hin.
    destruct (decide (order = k)) as [<-|Hne].
    + rewrite !lookup_alter_eq, lookup_insert_eq in Hin. simpl in Hin.
      injection Hin as <-. by rewrite Hfresh.
    + rewrite !lookup_alter_ne, lookup_insert_ne in Hin by done.
      by rewrite Hin.
Qed.

(** The view on an empty cart: nothing is called. *)
Lemma checkout_empty_cart_session uid req s :
  request_cart req = [] ->
  checkout env uid req s = (Return (Failure 400 EmptyCart), s).
Proof.
  intros Hcart. unfold checkout. by rewrite Hcart.
Qed.

(** The view on a cart that is not empty: the order is added, the lines
    are run, and if they all pass the total is set and the commit
    tried. *)
Lemma checkout_unfold uid req db :
  request_cart req <> [] ->
  checkout env uid req (open_session db) =
  match for_each (checkout_item' (next_id (orders db))) (request_cart req)
          (NInt 0) (snd (begun uid db)) with
  | (Next total, s) =>
      let s1 := snd (set_total (next_id (orders db)) total s) in
      let failed detail :=
        (Return (Failure 500 (PersistenceError (DatabaseError detail))),
         log CallRollback {| store := store s1; work := store s1;
                             journal := journal s1 ++ [CallCommit] |}) in
      match faults env (length (journal s)) with
      | None =>
          match float_of total with
          | Ret _ =>
              (Return (Success total),
               log CallCommit {| store := work s1; work := work s1;
                                 journal := journal s1 |})
          | Raise _ => failed not_a_float
          end
      | Some detail => failed detail
      end
  | (Return r, s) => (Return r, s)
  | (Throw e, s) => (Throw e, s)
  end.
Proof.
  intros Hne. unfold checkout.
  destruct (request_cart req) as [|item cart] eqn:Hcart; [done|].
  unfold bind at 1. unfold begun. simpl session_add.
  unfold session_add at 1. simpl.
  unfold bind at 1.
  match goal with |- (let (_, _) := ?run in _) = _ =>
    destruct run as [[total|r|e] s1] eqn:Hloop end; auto.
  pose proof (flushable_after uid db (item :: cart) total s1 Hloop) as Hflush.
  unfold bind at 1. unfold set_total at 1.
  unfold try_except, bind at 1. unfold session_commit at 1.
  simpl journal.
  destruct (faults env (length (journal s1))) as [detail|]; [reflexivity|].
  simpl in Hflush. simpl. rewrite Hflush.
  unfold format_2f.
  destruct (float_of total) as [f|e]; reflexivity.
Qed.

End CheckoutFacts.

(* ================================================================== *)
(** * The checkout claims *)

(** C7: on an empty cart (no [cart] field, or an empty list) checkout
    answers 400 'Cart is empty' at once: the session is exactly as it was,
    so nothing was read ([journal] has no new call), nothing written and
    no order created; the database is as it was. *)
Theorem checkout_empty_cart env uid req :
  request_cart req = [] ->
  (forall s, checkout env uid req s = (Return (Failure 400 EmptyCart), s)) /\
  (forall db, serve_checkout env uid req db = (Failure 400 EmptyCart, db)).
Proof.
  intros Hcart. split.
  - intros s. by apply checkout_empty_cart_session.
  - intros db. unfold serve_checkout.
    by rewrite checkout_empty_cart_session.
Qed.

Lemma checkout_empty_cart_witness :
  checkout steady 7 {| cart_field := Some [] |} (open_session pharmacy)
  = (Return (Failure 400 EmptyCart), open_session pharmacy).
Proof.
  apply (checkout_empty_cart steady 7 {| cart_field := Some [] |} eq_refl).
Defined.

(** A checkout that does not succeed has stored nothing, and where it
    answers with an error it has rolled the session back. *)
Lemma failed_checkout_session env uid req db resp s :
  dispatch (checkout env uid req (open_session db)) = (resp, s) ->
  is_success resp = false ->
  store s = db /\
  (forall status err, resp = Failure status err -> work s = db).
Proof.
  intros Hrun Hfail.
  destruct (request_cart req) as [|item cart] eqn:Hcart.
  - rewrite checkout_empty_cart_session in Hrun by done.
    simpl in Hrun. inversion Hrun; subst. auto.
  - rewrite checkout_unfold in Hrun by (rewrite Hcart; done).
    destruct (for_each _ _ _ _) as [[total|r|e] s1] eqn:Hloop.
    + pose proof (for_each_store _ _ _ _ _ _ _ Hloop) as Hst.
      cbv zeta in Hrun.
      destruct (faults env _) as [detail|]; [|destruct (float_of total)];
        simpl in Hrun; inversion Hrun; subst.
      * simpl in *. rewrite Hst. auto.
      * discriminate Hfail.
      * simpl in *. rewrite Hst. auto.
    + pose proof (for_each_store _ _ _ _ _ _ _ Hloop) as Hst.
      apply for_each_return in Hloop as [_ Hclean].
      simpl in Hrun. inversion Hrun; subst.
      simpl in Hst. split; [done|]. intros _ _ _. congruence.
    + pose proof (for_each_store _ _ _ _ _ _ _ Hloop) as Hst.
      simpl in Hrun. inversion Hrun; subst.
      split; [done|]. intros ? ? [=].
Qed.

(** C1: a checkout that does not succeed (any error response, or an
    exception that leaves the view) leaves the committed database, stock
    and orders, exactly as it was; and on every error response the session
    has been rolled back, so no staged decrement and no staged order is
    left in it either. *)
Theorem checkout_failure_is_atomic env uid req db resp s :
  dispatch (checkout env uid req (open_session db)) = (resp, s) ->
  is_success resp = false ->
  serve_checkout env uid req db = (resp, db) /\
  store s = db /\
  (forall status err, resp = Failure status err -> work s = db).
Proof.
  intros Hrun Hfail.
  destruct (failed_checkout_session _ _ _ _ _ _ Hrun Hfail) as [Hstore Hwork].
  split; [|done].
  unfold serve_checkout. rewrite Hrun. by rewrite Hstore.
Qed.

(** Two lines for the same medicine: the first passes and its decrement
    is staged, the second finds the stock short. *)
Lemma checkout_failure_is_atomic_witness :
  serve_checkout steady 7
    {| cart_field :=
         Some [cart_line (PInt 1) "Paracetamol" (PFloat 5.99) (PInt 60);
               cart_line (PInt 1) "Paracetamol" (PFloat 5.99) (PInt 60)] |}
    pharmacy
  = (Failure 400 (InsufficientStock (PStr "Paracetamol")), pharmacy).
Proof.
  eapply (checkout_failure_is_atomic steady 7 _ pharmacy).
  - vm_compute. reflexivity.
  - reflexivity.
Defined.

Section FirstFailingLine.

Variable env : environment.

Lemma rolled_back_clean s :
  store (rolled_back s) = store s /\ work (rolled_back s) = store s.
Proof. split; reflexivity. Qed.

(** The view stops at the first line that answers or raises: the lines
    after it are not looked at. *)
Lemma checkout_stops_return uid req db pre item post t s r s' :
  request_cart req = pre ++ item :: post ->
  accepted env uid db pre t s ->
  checkout_item env (next_id (orders db)) item t s = (Return r, s') ->
  checkout env uid req (open_session db) = (Return r, s').
Proof.
  intros Hcart Hpre Hitem.
  rewrite checkout_unfold by (rewrite Hcart; by destruct pre).
  rewrite Hcart, for_each_app. unfold accepted in Hpre. rewrite Hpre.
  simpl. unfold bind. by rewrite Hitem.
Qed.

Lemma checkout_stops_throw uid req db pre item post t s e s' :
  request_cart req = pre ++ item :: post ->
  accepted env uid db pre t s ->
  checkout_item env (next_id (orders db)) item t s = (Throw e, s') ->
  checkout env uid req (open_session db) = (Throw e, s').
Proof.
  intros Hcart Hpre Hitem.
  rewrite checkout_unfold by (rewrite Hcart; by destruct pre).
  rewrite Hcart, for_each_app. unfold accepted in Hpre. rewrite Hpre.
  simpl. unfold bind. by rewrite Hitem.
Qed.

(** Check 1: the id. *)
Lemma line_missing_id order item t s :
  id_missing item = true ->
  checkout_item env order item t s =
  (Return (Failure 400 (MissingItemId (name_or_unknown item))), rolled_back s).
Proof. intros H. unfold checkout_item. rewrite H. reflexivity. Qed.

(** Check 2: price and quantity. *)
Lemma line_invalid order item t s e :
  id_missing item = false ->
  add_line env t item = Raise e ->
  KeyError_or_TypeError e = true ->
  checkout_item env order item t s =
  (Return (Failure 400 (InvalidLineData (name_or_unknown item))), rolled_back s).
Proof.
  intros H1 H2 H3. unfold checkout_item. rewrite H1.
  run_handler. rewrite H2. simpl. rewrite H3. reflexivity.
Qed.

(** A string that can be repeated is. *)
Lemma str_mul_repeats s n :
  repeats env s n -> exists r, str_mul env s n = Ret (PStr r).
Proof.
  unfold repeats, str_mul. cbv zeta. intros [Hrange Hroom].
  replace ((n <? - ssize_max - 1) || (ssize_max <? n)) with false by lia.
  destruct ((n <? 1) || (Z.of_nat (String.length s) =? 0)) eqn:Hempty;
    [by eauto|].
  destruct (n =? 1) eqn:Hone; [by eauto|].
  destruct Hroom as [?|[?|[Hlen Hmem]]]; [lia|lia|].
  replace (ssize_max / n <? Z.of_nat (String.length s)) with false by lia.
  rewrite Hmem. eauto.
Qed.

(** When the sum raises what the handler catches: a field is absent, or
    holds what Python's arithmetic refuses ([None], a string), a string
    repeated out of reach apart. *)
Lemma add_line_refused t item :
  item !! "price" = None \/ item !! "quantity" = None \/
  (exists p q, item !! "price" = Some p /\ item !! "quantity" = Some q /\
               (as_num p = None \/ as_num q = None) /\
               within_reach env p q) ->
  exists e, add_line env t item = Raise e /\ KeyError_or_TypeError e = true.
Proof.
  unfold add_line, getitem.
  destruct (item !! "price") as [p|]; simpl; [|by eauto].
  destruct (item !! "quantity") as [q|]; simpl; [|by eauto].
  intros [?|[?|(p' & q' & [= <-] & [= <-] & Hnum & Hreach)]]; try done.
  assert (forall s n,
            (p = PStr s /\ as_int q = Some n) \/
            (q = PStr s /\ as_int p = Some n) ->
            exists e, (x <~ str_mul env s n ;; pyadd t x)%res = Raise e /\
                      KeyError_or_TypeError e = true) as Hstr.
  { intros s n Hsn. destruct (str_mul_repeats s n (Hreach s n Hsn)) as [r ->].
    simpl. destruct t; simpl; eauto. }
  destruct p, q; simpl in *; try (destruct Hnum; done); eauto;
    apply Hstr; auto.
Qed.

(** Check 3: the medicine. *)
Lemma line_not_found order item t s t' ident :
  id_missing item = false ->
  add_line env t item = Ret t' ->
  item !! "id" = Some ident ->
  responds env s ->
  (forall k, primary_key env ident = Some k ->
             medicines (work s) !! k = None) ->
  checkout_item env order item t s =
  (Return (Failure 400 (ItemNotFound (name_or_unknown item))),
   rolled_back (log (CallGet ident) s)).
Proof.
  intros H1 H2 H3 H0 H4. unfold checkout_item, getitem. rewrite H1, H3.
  unfold responds in H0.
  run_handler. rewrite H2. simpl. rewrite H0.
  destruct (primary_key env ident) as [k|]; [|done].
  by rewrite (H4 k).
Qed.

(** Check 4: the stock, on a line that has a name. *)
Lemma line_short order item t s t' ident k m requested name :
  id_missing item = false ->
  add_line env t item = Ret t' ->
  item !! "id" = Some ident ->
  responds env s ->
  primary_key env ident = Some k ->
  medicines (work s) !! k = Some m ->
  item !! "quantity" = Some requested ->
  pylt (Medicine.quantity m) requested = Ret true ->
  item !! "name" = Some name ->
  checkout_item env order item t s =
  (Return (Failure 400 (InsufficientStock name)),
   rolled_back (log (CallGet ident) s)).
Proof.
  intros H1 H2 H3 H0 H4 H5 H6 H7 H8. unfold checkout_item, getitem.
  rewrite H1, H3, H6, H8. unfold responds in H0.
  run_handler. rewrite H2. simpl. rewrite H0, H4, H5. simpl. rewrite H7.
  reflexivity.
Qed.

(** Check 4 on a line without a name: [item["name"]] raises after the
    rollback. *)
Lemma line_short_unnamed order item t s t' ident k m requested :
  id_missing item = false ->
  add_line env t item = Ret t' ->
  item !! "id" = Some ident ->
  responds env s ->
  primary_key env ident = Some k ->
  medicines (work s) !! k = Some m ->
  item !! "quantity" = Some requested ->
  pylt (Medicine.quantity m) requested = Ret true ->
  item !! "name" = None ->
  checkout_item env order item t s =
  (Throw (KeyError "name"), rolled_back (log (CallGet ident) s)).
Proof.
  intros H1 H2 H3 H0 H4 H5 H6 H7 H8. unfold checkout_item, getitem.
  rewrite H1, H3, H6, H8. unfold responds in H0.
  run_handler. rewrite H2. simpl. rewrite H0, H4, H5. simpl. rewrite H7.
  reflexivity.
Qed.

End FirstFailingLine.

Section ChecksInOrder.

Variable env : environment.

Lemma begun_store uid db : store (snd (begun uid db)) = db.
Proof. reflexivity. Qed.

Lemma accepted_store uid db pre t s :
  accepted env uid db pre t s -> store s = db.
Proof.
  unfold accepted. intros H. apply for_each_store in H. by rewrite H.
Qed.

(** The request as served, when the line after an accepted prefix
    answers [r] and leaves a session whose committed state is [db]. *)
Lemma serve_stops_return uid req db pre item post t s r s' :
  request_cart req = pre ++ item :: post ->
  accepted env uid db pre t s ->
  checkout_item env (next_id (orders db)) item t s = (Return r, s') ->
  serve_checkout env uid req db = (r, db).
Proof.
  intros Hcart Hpre Hitem. unfold serve_checkout.
  rewrite (checkout_stops_return _ _ _ _ _ _ _ _ _ _ _ Hcart Hpre Hitem).
  simpl. apply checkout_item_store in Hitem.
  rewrite Hitem. by rewrite (accepted_store _ _ _ _ _ Hpre).
Qed.

Lemma serve_stops_throw uid req db pre item post t s e s' :
  request_cart req = pre ++ item :: post ->
  accepted env uid db pre t s ->
  checkout_item env (next_id (orders db)) item t s = (Throw e, s') ->
  serve_checkout env uid req db = (Unhandled e, db).
Proof.
  intros Hcart Hpre Hitem. unfold serve_checkout.
  rewrite (checkout_stops_throw _ _ _ _ _ _ _ _ _ _ _ Hcart Hpre Hitem).
  simpl. apply checkout_item_store in Hitem.
  rewrite Hitem. by rewrite (accepted_store _ _ _ _ _ Hpre).
Qed.

Lemma id_present item ident :
  item !! "id" = Some ident -> truthy ident = true -> id_missing item = false.
Proof. intros H1 H2. unfold id_missing. by rewrite H1, H2. Qed.

(** C3, as amended: the lines are checked in input order, and the first
    line that does not pass decides the response, whatever follows it,
    by the first of its checks that fails: (1) no id, or an id that is
    false in Python (empty, zero, null): 400 'Missing ID'; (2) price or
    quantity absent, or holding what Python's arithmetic refuses (null,
    a string; a string that an integer would repeat beyond what the
    interpreter holds is left aside): 400 'Invalid price or quantity';
    (3) no medicine under the id: 400 'not found'; (4) the stock, as the
    earlier lines left it, below the requested quantity, on a line that
    has a name: 400 'Insufficient stock'.  Checks (3) and (4) are read
    off the storage layer, which must answer the query.  The database is
    unchanged in each case. *)
Theorem first_failing_check uid req db pre item post t s :
  request_cart req = pre ++ item :: post ->
  accepted env uid db pre t s ->
  (id_missing item = true ->
   serve_checkout env uid req db =
   (Failure 400 (MissingItemId (name_or_unknown item)), db)) /\
  (id_missing item = false ->
   item !! "price" = None \/ item !! "quantity" = None \/
   (exists p q, item !! "price" = Some p /\ item !! "quantity" = Some q /\
                (as_num p = None \/ as_num q = None) /\
                within_reach env p q) ->
   serve_checkout env uid req db =
   (Failure 400 (InvalidLineData (name_or_unknown item)), db)) /\
  (forall ident t',
   item !! "id" = Some ident -> truthy ident = true ->
   add_line env t item = Ret t' ->
   responds env s ->
   (forall k, primary_key env ident = Some k ->
              medicines (work s) !! k = None) ->
   serve_checkout env uid req db =
   (Failure 400 (ItemNotFound (name_or_unknown item)), db)) /\
  (forall ident t' k m requested name,
   item !! "id" = Some ident -> truthy ident = true ->
   add_line env t item = Ret t' ->
   responds env s ->
   primary_key env ident = Some k ->
   medicines (work s) !! k = Some m ->
   item !! "quantity" = Some requested ->
   pylt (Medicine.quantity m) requested = Ret true ->
   item !! "name" = Some name ->
   serve_checkout env uid req db =
   (Failure 400 (InsufficientStock name), db)).
Proof.
  intros Hcart Hpre. repeat split.
  - intros Hid. eapply serve_stops_return; eauto using line_missing_id.
  - intros Hid Hbad.
    destruct (add_line_refused env t item Hbad) as (e & He & Hcaught).
    eapply serve_stops_return; eauto using line_invalid.
  - intros ident t' Hid Htrue Hsum Hup Hnone.
    eapply serve_stops_return; eauto using line_not_found, id_present.
  - intros ident t' k m requested name Hid Htrue Hsum Hup Hk Hm Hq Hshort Hname.
    eapply serve_stops_return; eauto using line_short, id_present.
Qed.

(** C10: a line without a ['name'] that passes the first three checks
    and finds the stock short (the storage layer answering the query)
    makes the view raise [KeyError('name')]: the caller gets the
    unhandled exception, not a 400 error body.  (The rollback came
    first: the database is unchanged.) *)
Theorem short_stock_unnamed_line_raises uid req db pre item post t s
    ident t' k m requested :
  request_cart req = pre ++ item :: post ->
  accepted env uid db pre t s ->
  item !! "id" = Some ident -> truthy ident = true ->
  add_line env t item = Ret t' ->
  responds env s ->
  primary_key env ident = Some k ->
  medicines (work s) !! k = Some m ->
  item !! "quantity" = Some requested ->
  pylt (Medicine.quantity m) requested = Ret true ->
  item !! "name" = None ->
  serve_checkout env uid req db = (Unhandled (KeyError "name"), db).
Proof.
  intros Hcart Hpre Hid Htrue Hsum Hup Hk Hm Hq Hshort Hname.
  eapply serve_stops_throw; eauto using line_short_unnamed, id_present.
Qed.

End ChecksInOrder.

(** A first line that passes, then a line whose price is a string. *)
Lemma first_failing_check_witness :
  serve_checkout steady 7
    {| cart_field :=
         Some [cart_line (PInt 1) "Paracetamol" (PFloat 5.99) (PInt 2);
               cart_line (PInt 2) "Ibuprofen" (PStr "7.49") (PInt 1);
               cart_line PNone "Aspirin" (PFloat 3.99) (PInt 1)] |}
    pharmacy
  = (Failure 400 (InvalidLineData (PStr "Ibuprofen")), pharmacy).
Proof.
  assert (exists t s, accepted steady 7 pharmacy
            [cart_line (PInt 1) "Paracetamol" (PFloat 5.99) (PInt 2)] t s)
    as (t & s & Hpre) by (eexists _, _; vm_compute; reflexivity).
  apply (proj1 (proj2
    (first_failing_check steady 7
       {| cart_field :=
            Some [cart_line (PInt 1) "Paracetamol" (PFloat 5.99) (PInt 2);
                  cart_line (PInt 2) "Ibuprofen" (PStr "7.49") (PInt 1);
                  cart_line PNone "Aspirin" (PFloat 3.99) (PInt 1)] |}
       pharmacy
       [cart_line (PInt 1) "Paracetamol" (PFloat 5.99) (PInt 2)]
       (cart_line (PInt 2) "Ibuprofen" (PStr "7.49") (PInt 1))
       [cart_line PNone "Aspirin" (PFloat 3.99) (PInt 1)] t s eq_refl Hpre))).
  - reflexivity.
  - right. right. exists (PStr "7.49"), (PInt 1).
    split; [reflexivity|]. split; [reflexivity|]. split; [by left|].
    intros r n [[[= <-] [= <-]]|[[=] _]].
    split; [unfold ssize_max; lia|left; lia].
Defined.

(** C3 as it was stated fails: a JSON boolean is not a number, yet a
    line whose price is [true] is not rejected; Python multiplies it as
    the integer 1 and the checkout succeeds. *)
Lemma boolean_price_is_accepted :
  fst (serve_checkout steady 7
         {| cart_field :=
              Some [cart_line (PInt 1) "Paracetamol" (PBool true) (PInt 2)] |}
         pharmacy)
  = Success (NInt 2).
Proof. vm_compute. reflexivity. Qed.

(** What the amended C3 leaves aside: a string price with a quantity no
    index holds is not answered with 400; the [OverflowError] of the
    repetition is not among the exceptions caught and leaves the view. *)
Lemma string_repeated_out_of_reach :
  serve_checkout steady 7
    {| cart_field :=
         Some [cart_line (PInt 1) "Paracetamol" (PStr "5.99")
                 (PInt (10 ^ 30))] |}
    pharmacy
  = (Unhandled OverflowError, pharmacy).
Proof. vm_compute. reflexivity. Qed.

Lemma short_stock_unnamed_line_raises_witness :
  serve_checkout steady 7
    {| cart_field :=
         Some [<["id" := PInt 1]> (<["price" := PFloat 5.99]>
                 (<["quantity" := PInt 1000]> ∅))] |}
    pharmacy
  = (Unhandled (KeyError "name"), pharmacy).
Proof.
  eapply (short_stock_unnamed_line_raises steady 7 _ pharmacy []
            _ [] (NInt 0) _ (PInt 1) _ 1 _ (PInt 1000)).
  - reflexivity.
  - reflexivity.
  - reflexivity.
  - reflexivity.
  - vm_compute. reflexivity.
  - reflexivity.
  - reflexivity.
  - vm_compute. reflexivity.
  - reflexivity.
  - vm_compute. reflexivity.
  - reflexivity.
Defined.

(* ================================================================== *)
(** * A checkout that succeeds *)


Section SuccessClaim.

Variable env : environment.


(** The lines of the stored order sum to what the cart lines sum to. *)
Lemma order_sum_from_lines cart items :
  Forall2 (line_of env) cart items ->
  forall t, order_sum_from env t items = sum_from env t cart.
Proof.
  induction 1 as [|item it cart items (ident & _ & _ & Hq & Hp) _ IH];
    intros t; simpl.
  - reflexivity.
  - unfold getitem. rewrite Hq, Hp. simpl.
    destruct (pymul _ _) as [x|]; simpl; [|done].
    destruct (pyadd t x) as [t1|]; simpl; [|done].
    apply IH.
Qed.

Lemma checkout_accepted uid req db total s1 shown :
  request_cart req <> [] ->
  accepted env uid db (request_cart req) total s1 ->
  responds env s1 ->
  float_of total = Ret shown ->
  exists s items,
    dispatch (checkout env uid req (open_session db))
    = (Success total, s) /\
    cart_sum env (request_cart req) = Ret total /\
    (forall k,
       medicines (store s) !! k =
       match medicines db !! k with
       | Some m =>
           match stock_after env (request_cart req) k
                   (Medicine.quantity m) with
           | Ret q => Some (sell q m)
           | Raise _ => None
           end
       | None => None
       end) /\
    Forall2 (line_of env) (request_cart req) items /\
    orders db !! next_id (orders db) = None /\
    orders (store s) =
      <[next_id (orders db) :=
          {| Order.user_id := uid; Order.total := total; Order.items := items |}]>
        (orders db) /\
    order_sum env {| Order.user_id := uid; Order.total := total;
                 Order.items := items |} = Ret total.
Proof.
  intros Hne Hacc Hup Hshown.
  rewrite checkout_unfold by done.
  unfold accepted in Hacc. rewrite Hacc. cbv zeta.
  unfold responds in Hup. rewrite Hup, Hshown.
  apply for_each_next in Hacc as (Hsum & Hmed & items & Hitems & Horders).
  eexists _, items. simpl. split; [reflexivity|].
  split; [done|]. split; [|split; [done|split; [apply next_id_fresh|split]]].
  - intros k. by rewrite Hmed.
  - rewrite Horders. simpl.
    rewrite !alter_insert_eq. done.
  - unfold order_sum. simpl.
    by rewrite (order_sum_from_lines _ _ Hitems).
Qed.

End SuccessClaim.



(* ================================================================== *)
(** * A negative quantity *)

Section NegativeQuantity.

Variable env : environment.


End NegativeQuantity.


(* ================================================================== *)
(** * The stock invariant *)

Section StockInvariant.

Variable env : environment.

(** A run of the loop that goes through keeps every stock that was not
    negative from becoming negative. *)
Lemma for_each_stock order cart : forall t s t' s',
  for_each (checkout_item env order) cart t s = (Next t', s') ->
  forall k,
    (forall m, medicines (work s) !! k = Some m ->
               not_negative (Medicine.quantity m)) ->
    forall m', medicines (work s') !! k = Some m' ->
               not_negative (Medicine.quantity m').
Proof.
  induction cart as [|item cart IH]; intros t s t' s' H; simpl in H.
  - inversion H; subst. auto.
  - unfold bind in H.
    destruct (checkout_item env order item t s) as [[t1|r1|e1] s1] eqn:Hitem;
      [|by inversion H|by inversion H].
    apply checkout_item_next in Hitem
      as (ident & k0 & m0 & requested & unit_price & left & Hid & Htrue & Hk & Hm
          & Hq & Hp & Hsum & Hlt & Hsub & Hst & Hwork).
    intros k Hbefore. apply (IH _ _ _ _ H k).
    intros m. rewrite Hwork. simpl.
    destruct (decide (k0 = k)) as [->|Hne].
    + rewrite lookup_alter_eq, Hm. simpl. intros [= <-]. simpl.
      unfold pylt, pysub in Hlt, Hsub.
      destruct (as_num requested) as [r|]; [|done].
      injection Hlt as Hlt. by apply (sub_not_negative (Medicine.quantity m0) r).
    + rewrite lookup_alter_ne by done. apply Hbefore.
Qed.

(** C6: whatever the outcome of a checkout, a stock that was not
    negative before the request is not negative after it.  The cart may
    name the same medicine on several lines: each line is checked against
    the stock the earlier lines left, so lines that together ask for more
    than the stock are refused. *)
Theorem stock_never_negative uid req db k m m' :
  medicines db !! k = Some m ->
  not_negative (Medicine.quantity m) ->
  medicines (snd (serve_checkout env uid req db)) !! k = Some m' ->
  not_negative (Medicine.quantity m').
Proof.
  intros Hm Hpos.
  destruct (dispatch (checkout env uid req (open_session db)))
    as [resp s] eqn:Hrun.
  destruct (is_success resp) eqn:Hok.
  - unfold serve_checkout. rewrite Hrun. simpl.
    destruct (request_cart req) as [|item cart] eqn:Hreq.
    { rewrite checkout_empty_cart_session in Hrun by done.
      simpl in Hrun. inversion Hrun; subst. done. }
    rewrite checkout_unfold in Hrun by (rewrite Hreq; done).
    rewrite Hreq in Hrun.
    destruct (for_each _ _ _ _) as [[total|r|e] s1] eqn:Hloop.
    + pose proof (for_each_stock _ _ _ _ _ _ Hloop k) as Hkeep.
      cbv zeta in Hrun.
      destruct (faults env _); [|destruct (float_of total)];
        simpl in Hrun; inversion Hrun; subst; try done.
      simpl. apply Hkeep. simpl. intros m0. rewrite Hm. by intros [= <-].
    + apply for_each_return in Hloop as [(err & ->) _].
      simpl in Hrun. inversion Hrun; subst. done.
    + simpl in Hrun. inversion Hrun; subst. done.
  - destruct (failed_checkout_session _ _ _ _ _ _ Hrun Hok) as (Hstore & _).
    unfold serve_checkout. rewrite Hrun. simpl. rewrite Hstore, Hm.
    by intros [= <-].
Qed.

End StockInvariant.

(** Two lines for the same medicine, 60 and then 2.5 boxes out of 100:
    both pass and 37.5 are left. *)
Lemma stock_never_negative_witness :
  not_negative (NFloat 37.5).
Proof.
  apply (stock_never_negative steady 7
           {| cart_field :=
                Some [cart_line (PInt 1) "Paracetamol" (PFloat 5.99) (PInt 60);
                      cart_line (PInt 1) "Paracetamol" (PFloat 5.99)
                        (PFloat 2.5)] |}
           pharmacy 1
           {| Medicine.name := "Paracetamol";
              Medicine.quantity := NInt 100;
              Medicine.price := NFloat 5.99 |}
           {| Medicine.name := "Paracetamol";
              Medicine.quantity := NFloat 37.5;
              Medicine.price := NFloat 5.99 |}).
  - reflexivity.
  - reflexivity.
  - vm_compute. reflexivity.
Defined.

(* ================================================================== *)
(** * The chat claims *)

Section Fallback.

Variable create : string -> list dict -> Z -> float -> res ChatCompletion.

Lemma try_models_skips messages failed : forall rest,
  Forall (fails create messages) failed ->
  try_models create (failed ++ rest) messages =
  (fst (try_models create rest messages),
   failure_events create messages failed ++ snd (try_models create rest messages)).
Proof.
  induction failed as [|model failed IH]; intros rest Hall; simpl.
  - by destruct (try_models create rest messages).
  - inversion Hall as [|? ? (e & He & Hcaught) Hrest]; subst.
    rewrite He, Hcaught. rewrite (IH rest Hrest). reflexivity.
Qed.

Lemma failure_events_requests messages failed :
  Forall (fails create messages) failed ->
  requests (failure_events create messages failed) = failed.
Proof.
  induction 1 as [|model failed (e & He & _) _ IH]; simpl; [done|].
  rewrite He. simpl. f_equal. exact IH.
Qed.

Lemma failure_events_warnings messages failed :
  Forall (fails create messages) failed ->
  length (warnings (failure_events create messages failed)) = length failed.
Proof.
  induction 1 as [|model failed (e & He & _) _ IH]; simpl; [done|].
  rewrite He. simpl. f_equal. exact IH.
Qed.

Lemma requests_app evs evs' : requests (evs ++ evs') = requests evs ++ requests evs'.
Proof. unfold requests. by rewrite flat_map_app. Qed.

Lemma warnings_app evs evs' : warnings (evs ++ evs') = warnings evs ++ warnings evs'.
Proof. unfold warnings. by rewrite flat_map_app. Qed.

(** The first model that answers ends the call. *)
Lemma answer_after_failures user_input history failed model rest text :
  model_priority = failed ++ model :: rest ->
  Forall (fails create (chat_messages user_input history)) failed ->
  attempt create model (chat_messages user_input history) = Ret text ->
  exists evs,
    get_ai_response create user_input history = (Ret text, evs) /\
    requests evs = failed ++ [model] /\
    length (warnings evs) = length failed.
Proof.
  intros Hlist Hfailed Hanswer. unfold get_ai_response.
  rewrite Hlist, try_models_skips by done. simpl. rewrite Hanswer. simpl.
  eexists. split; [reflexivity|]. split.
  - rewrite requests_app, failure_events_requests by done. reflexivity.
  - rewrite warnings_app, length_app, failure_events_warnings by done.
    simpl. lia.
Qed.

End Fallback.

Lemma model_priority_NoDup : NoDup model_priority.
Proof.
  apply (bool_decide_unpack _). vm_compute. exact I.
Qed.

(** C4, as amended: the three models are asked in their fixed order, each
    at most once; the first whose attempt goes through ends the call,
    which returns the content of that answer's first choice with the
    surrounding whitespace stripped (be it empty or not) and asks no
    later model; every model that failed before it was asked once and
    left one warning.  So when the first two raise and the third answers
    "OK", the call returns "OK" after exactly two warnings. *)
Theorem first_answer_ends_the_chain :
  (forall create user_input history failed model rest response content others,
     model_priority = failed ++ model :: rest ->
     Forall (fails create (chat_messages user_input history)) failed ->
     create model (chat_messages user_input history) 200 0.7%float
     = Ret response ->
     choices response = Some content :: others ->
     exists evs,
       get_ai_response create user_input history = (Ret (strip content), evs) /\
       requests evs = failed ++ [model] /\
       NoDup (requests evs) /\
       length (warnings evs) = length failed) /\
  (forall create user_input history e1 e2 others,
     create "meta-llama/llama-3.1-8b-instruct"
       (chat_messages user_input history) 200 0.7%float = Raise e1 ->
     is_Exception e1 = true ->
     create "google/gemma-7b-it"
       (chat_messages user_input history) 200 0.7%float = Raise e2 ->
     is_Exception e2 = true ->
     create "nousresearch/hermes-2-pro-mistral"
       (chat_messages user_input history) 200 0.7%float
     = Ret {| choices := Some "OK" :: others |} ->
     exists evs,
       get_ai_response create user_input history = (Ret "OK", evs) /\
       requests evs = model_priority /\
       length (warnings evs) = 2%nat).
Proof.
  assert (forall create user_input history failed model rest response content others,
     model_priority = failed ++ model :: rest ->
     Forall (fails create (chat_messages user_input history)) failed ->
     create model (chat_messages user_input history) 200 0.7%float
     = Ret response ->
     choices response = Some content :: others ->
     exists evs,
       get_ai_response create user_input history = (Ret (strip content), evs) /\
       requests evs = failed ++ [model] /\
       NoDup (requests evs) /\
       length (warnings evs) = length failed) as General.
  { intros create user_input history failed model rest response content others
      Hlist Hfailed Hcall Hchoice.
    destruct (answer_after_failures create user_input history failed model rest
                (strip content) Hlist Hfailed) as (evs & Hrun & Hreq & Hwarn).
    { unfold attempt. rewrite Hcall. simpl.
      unfold first_content. by rewrite Hchoice. }
    exists evs. repeat split; try done.
    rewrite Hreq. pose proof model_priority_NoDup as Hnd.
    rewrite Hlist in Hnd.
    replace (failed ++ model :: rest) with ((failed ++ [model]) ++ rest) in Hnd
      by (by rewrite <- app_assoc).
    by apply NoDup_app in Hnd as [? _]. }
  split; [exact General|].
  intros create user_input history e1 e2 others H1 He1 H2 He2 H3.
  destruct (General create user_input history
              ["meta-llama/llama-3.1-8b-instruct"; "google/gemma-7b-it"]
              "nousresearch/hermes-2-pro-mistral" []
              {| choices := Some "OK" :: others |} "OK" others
              eq_refl) as (evs & Hrun & Hreq & _ & Hwarn); [|exact H3|reflexivity|].
  - repeat constructor.
    + exists e1. unfold attempt. by rewrite H1.
    + exists e2. unfold attempt. by rewrite H2.
  - exists evs. by repeat split.
Qed.

Lemma first_answer_ends_the_chain_witness :
  exists evs,
    get_ai_response third_answers (PStr "Is ibuprofen in stock?") None
    = (Ret "OK", evs) /\
    requests evs = model_priority /\
    length (warnings evs) = 2%nat.
Proof.
  apply (proj2 first_answer_ends_the_chain third_answers
           (PStr "Is ibuprofen in stock?") None
           (ProviderError "503 Service Unavailable")
           (ProviderError "503 Service Unavailable") []);
    reflexivity.
Defined.

(** C4 as it was stated fails: the response returned need not be
    non-empty.  When the first model answers with blanks only, the call
    returns the empty string and the second model, which would have
    answered "OK", is never asked. *)
Lemma blank_answer_is_returned :
  get_ai_response blank_then_ok (PStr "Is ibuprofen in stock?") None
  = (Ret EmptyString, [Requested "meta-llama/llama-3.1-8b-instruct"]).
Proof. vm_compute. reflexivity. Qed.

(** C5: when the attempt on each of the three models raises an
    exception, the call returns the fixed apology (it returns, it does
    not raise), having asked each model once and printed three warnings;
    the value returned does not depend on the errors. *)
Theorem all_providers_fail create user_input history :
  Forall (fails create (chat_messages user_input history)) model_priority ->
  exists evs,
    get_ai_response create user_input history = (Ret apology, evs) /\
    requests evs = model_priority /\
    length (warnings evs) = 3%nat.
Proof.
  intros Hall. unfold get_ai_response.
  pose proof (try_models_skips create _ _ [] Hall) as Hskip.
  rewrite app_nil_r in Hskip. rewrite Hskip. cbn [try_models fst snd].
  eexists. split; [reflexivity|]. rewrite app_nil_r. split.
  - by apply failure_events_requests.
  - by rewrite failure_events_warnings.
Qed.

Lemma all_providers_fail_witness :
  exists evs,
    get_ai_response all_down (PStr "Is ibuprofen in stock?") None
    = (Ret apology, evs) /\
    requests evs = model_priority /\
    length (warnings evs) = 3%nat.
Proof.
  apply (all_providers_fail all_down).
  repeat constructor;
    exists (ProviderError "503 Service Unavailable"); split; reflexivity.
Defined.

(* ================================================================== *)
(** * Beyond the claims: more of the checkout *)

Section CheckoutBeyond.

Variable env : environment.

(** A run of the loop keeps every catalog row, name and price. *)
Lemma for_each_catalog order cart : forall t s t' s',
  for_each (checkout_item env order) cart t s = (Next t', s') ->
  forall k,
    match medicines (work s) !! k with
    | Some m => exists m', medicines (work s') !! k = Some m' /\ same_product m m'
    | None => medicines (work s') !! k = None
    end.
Proof.
  induction cart as [|item cart IH]; intros t s t' s' H k; simpl in H.
  - inversion H; subst.
    destruct (medicines (work s') !! k) as [m|]; [|done].
    exists m. by split.
  - unfold bind in H.
    destruct (checkout_item env order item t s) as [[t1|r1|e1] s1] eqn:Hitem;
      [|by inversion H|by inversion H].
    apply checkout_item_next in Hitem
      as (ident & k0 & m0 & requested & unit_price & left & _ & _ & _ & Hm
          & _ & _ & _ & _ & _ & _ & Hwork).
    specialize (IH _ _ _ _ H k). rewrite Hwork in IH. simpl in IH.
    destruct (decide (k0 = k)) as [->|Hne].
    + rewrite lookup_alter_eq, Hm in IH. simpl in IH. rewrite Hm.
      destruct IH as (m' & Hm' & Hname & Hprice).
      exists m'. split; [done|]. split; [exact Hname|exact Hprice].
    + by rewrite lookup_alter_ne in IH.
Qed.

(** X1: whatever the cart and whatever the outcome, a checkout changes
    nothing of the catalog but stock quantities (no medicine appears or
    disappears, no name and no price changes), and it leaves every order
    stored before as it was. *)
Theorem checkout_touches_stock_only uid req db :
  (forall k,
     match medicines db !! k with
     | Some m =>
         exists m', medicines (serve_checkout env uid req db).2 !! k = Some m' /\
                    same_product m m'
     | None => medicines (serve_checkout env uid req db).2 !! k = None
     end) /\
  (forall j o, orders db !! j = Some o ->
               orders (serve_checkout env uid req db).2 !! j = Some o).
Proof.
  assert (forall k,
            match medicines db !! k with
            | Some m => exists m', medicines db !! k = Some m' /\ same_product m m'
            | None => medicines db !! k = None
            end) as Hsame.
  { intros k. destruct (medicines db !! k) as [m|] eqn:Hm; [|done].
    exists m. by split. }
  destruct (dispatch (checkout env uid req (open_session db)))
    as [resp s] eqn:Hrun.
  unfold serve_checkout. rewrite Hrun. simpl.
  destruct (is_success resp) eqn:Hok.
  2:{ destruct (failed_checkout_session _ _ _ _ _ _ Hrun Hok) as [-> _].
      split; [exact Hsame|done]. }
  destruct (request_cart req) as [|item cart] eqn:Hreq.
  { rewrite checkout_empty_cart_session in Hrun by done.
    simpl in Hrun. inversion Hrun; subst. done. }
  rewrite checkout_unfold in Hrun by (rewrite Hreq; done).
  rewrite Hreq in Hrun.
  destruct (for_each _ _ _ _) as [[total|r|e] s1] eqn:Hloop.
  - pose proof (for_each_catalog _ _ _ _ _ _ Hloop) as Hcat.
    apply for_each_next in Hloop as (_ & _ & items & _ & Horders).
    cbv zeta in Hrun.
    destruct (faults env _); [|destruct (float_of total)];
      simpl in Hrun; inversion Hrun; subst; try done.
    simpl. split; [exact Hcat|].
    intros j o Hj. rewrite Horders. simpl.
    assert (next_id (orders db) <> j) as Hne.
    { intros <-. by rewrite next_id_fresh in Hj. }
    by rewrite !lookup_alter_ne, lookup_insert_ne.
  - apply for_each_return in Hloop as [(err & ->) _].
    simpl in Hrun. inversion Hrun; subst. done.
  - simpl in Hrun. inversion Hrun; subst. done.
Qed.

(** X2: when every line of a cart passes and the commit raises, the
    exception is caught: the response is 500 'Checkout failed' with the
    storage layer's own message, and the database is as it was. *)
Theorem commit_failure_is_reported uid req db total s detail :
  request_cart req <> [] ->
  accepted env uid db (request_cart req) total s ->
  faults env (length (journal s)) = Some detail ->
  serve_checkout env uid req db =
  (Failure 500 (PersistenceError (DatabaseError detail)), db).
Proof.
  intros Hne Hacc Hfault. unfold serve_checkout.
  rewrite checkout_unfold by done.
  pose proof (accepted_store _ _ _ _ _ _ Hacc) as Hstore.
  unfold accepted in Hacc. rewrite Hacc. cbv zeta. rewrite Hfault.
  simpl. by rewrite Hstore.
Qed.

(** A line whose lookup the storage layer fails. *)
Lemma line_lookup_fails order item t s t' ident detail :
  id_missing item = false ->
  add_line env t item = Ret t' ->
  item !! "id" = Some ident ->
  faults env (length (journal s)) = Some detail ->
  checkout_item env order item t s =
  (Throw (DatabaseError detail), log (CallGet ident) s).
Proof.
  intros H1 H2 H3 H4. unfold checkout_item, getitem. rewrite H1, H3.
  run_handler. rewrite H2. simpl. by rewrite H4.
Qed.

(** X3: a failure of the storage layer during the lookup of a line's
    medicine is not caught (only the commit is inside a [try]): the
    exception leaves the view, and the database is as it was. *)
Theorem lookup_failure_is_not_caught uid req db pre item post t s ident t'
    detail :
  request_cart req = pre ++ item :: post ->
  accepted env uid db pre t s ->
  item !! "id" = Some ident -> truthy ident = true ->
  add_line env t item = Ret t' ->
  faults env (length (journal s)) = Some detail ->
  serve_checkout env uid req db = (Unhandled (DatabaseError detail), db).
Proof.
  intros Hcart Hpre Hid Htrue Hsum Hfault.
  eapply serve_stops_throw; eauto using line_lookup_fails, id_present.
Qed.

(** A string that cannot be repeated raises one of the two errors. *)
Lemma str_mul_out_of_reach s n :
  ~ repeats env s n ->
  str_mul env s n = Raise OverflowError \/ str_mul env s n = Raise MemoryError.
Proof.
  unfold repeats, str_mul. cbv zeta. intros Hno.
  destruct ((n <? - ssize_max - 1) || (ssize_max <? n)) eqn:Hrange; [by left|].
  destruct ((n <? 1) || (Z.of_nat (String.length s) =? 0)) eqn:Hempty.
  { exfalso. apply Hno. split; lia. }
  destruct (n =? 1) eqn:Hone.
  { exfalso. apply Hno. split; lia. }
  destruct (ssize_max / n <? Z.of_nat (String.length s)) eqn:Hlong; [by left|].
  destruct (can_allocate env _) eqn:Hmem; [|by right].
  exfalso. apply Hno. split; [lia|]. right. right. split; [lia|done].
Qed.

(** X4: a line in which one of price and quantity is a string and the
    other an integer by which the string cannot be repeated (a count no
    index holds, a result too long or with no memory for it) is not
    answered with 400 'Invalid price or quantity': the [OverflowError] or
    [MemoryError] of the multiplication is not among the exceptions the
    handler catches and leaves the view.  The database is as it was. *)
Theorem unrepeatable_string_is_not_caught uid req db pre item post t s
    text other n :
  request_cart req = pre ++ item :: post ->
  accepted env uid db pre t s ->
  id_missing item = false ->
  (item !! "price" = Some (PStr text) /\ item !! "quantity" = Some other) \/
  (item !! "price" = Some other /\ item !! "quantity" = Some (PStr text)) ->
  as_int other = Some n ->
  ~ repeats env text n ->
  exists e,
    (e = OverflowError \/ e = MemoryError) /\
    serve_checkout env uid req db = (Unhandled e, db).
Proof.
  intros Hcart Hpre Hid Hfields Hint Hno.
  assert (exists e, (e = OverflowError \/ e = MemoryError) /\
                    add_line env t item = Raise e) as (e & He & Hsum).
  { unfold add_line, getitem.
    destruct (str_mul_out_of_reach text n Hno) as [Hmul|Hmul];
      [exists OverflowError|exists MemoryError];
      (split; [auto|]);
      destruct Hfields as [[-> ->]|[-> ->]]; simpl;
      destruct other; simpl in Hint; try done;
      injection Hint as <-; unfold pymul; simpl; by rewrite Hmul. }
  exists e. split; [exact He|].
  eapply serve_stops_throw; eauto.
  unfold checkout_item. rewrite Hid. run_handler. rewrite Hsum. simpl.
  by destruct He as [-> | ->].
Qed.

End CheckoutBeyond.

Lemma commit_failure_is_reported_witness :
  serve_checkout (locked_at 3) 7
    {| cart_field :=
         Some [cart_line (PInt 1) "Paracetamol" (PFloat 5.99) (PInt 2)] |}
    pharmacy
  = (Failure 500 (PersistenceError (DatabaseError "database is locked")),
     pharmacy).
Proof.
  assert (exists t s,
            accepted (locked_at 3) 7 pharmacy
              [cart_line (PInt 1) "Paracetamol" (PFloat 5.99) (PInt 2)] t s /\
            faults (locked_at 3) (length (journal s))
            = Some "database is locked")
    as (t & s & Hacc & Hfault)
    by (eexists _, _; split; vm_compute; reflexivity).
  apply (commit_failure_is_reported (locked_at 3) 7
           {| cart_field :=
                Some [cart_line (PInt 1) "Paracetamol" (PFloat 5.99) (PInt 2)] |}
           pharmacy t s "database is locked" ltac:(discriminate) Hacc Hfault).
Defined.

Lemma lookup_failure_is_not_caught_witness :
  serve_checkout (locked_at 1) 7
    {| cart_field :=
         Some [cart_line (PInt 1) "Paracetamol" (PFloat 5.99) (PInt 2)] |}
    pharmacy
  = (Unhandled (DatabaseError "database is locked"), pharmacy).
Proof.
  assert (exists t',
            add_line (locked_at 1) (NInt 0)
              (cart_line (PInt 1) "Paracetamol" (PFloat 5.99) (PInt 2))
            = Ret t') as (t' & Hsum) by (eexists; vm_compute; reflexivity).
  apply (lookup_failure_is_not_caught (locked_at 1) 7
           {| cart_field :=
                Some [cart_line (PInt 1) "Paracetamol" (PFloat 5.99) (PInt 2)] |}
           pharmacy [] _ [] (NInt 0) _ (PInt 1) t' "database is locked"
           eq_refl eq_refl eq_refl eq_refl Hsum eq_refl).
Defined.

Lemma unrepeatable_string_is_not_caught_witness :
  exists e,
    (e = OverflowError \/ e = MemoryError) /\
    serve_checkout steady 7
      {| cart_field :=
           Some [cart_line (PInt 1) "Paracetamol" (PStr "5.99")
                   (PInt (2 ^ 40))] |}
      pharmacy
    = (Unhandled e, pharmacy).
Proof.
  apply (unrepeatable_string_is_not_caught steady 7
           {| cart_field :=
                Some [cart_line (PInt 1) "Paracetamol" (PStr "5.99")
                        (PInt (2 ^ 40))] |}
           pharmacy [] _ [] (NInt 0) _ "5.99" (PInt (2 ^ 40)) (2 ^ 40)
           eq_refl eq_refl eq_refl (or_introl (conj eq_refl eq_refl)) eq_refl).
  unfold repeats. cbv zeta. intros [_ [H|[H|[_ H]]]].
  - revert H. apply Z.lt_nge. reflexivity.
  - discriminate H.
  - vm_compute in H. discriminate H.
Defined.

Section CatalogReads.

Variable env : environment.

(** One line answers alike on sessions that are alike, whatever the
    order it writes to. *)
Lemma checkout_item_alike order order' item t s s' :
  alike s s' ->
  (checkout_item env order item t s).1 = (checkout_item env order' item t s').1 /\
  alike (checkout_item env order item t s).2 (checkout_item env order' item t s').2.
Proof.
  intros (Hj & Hstore & Hwork).
  assert (forall j : Z,
            Medicine.quantity <$> medicines (work s) !! j
            = Medicine.quantity <$> medicines (work s') !! j) as Hw
    by exact Hwork.
  unfold checkout_item, id_missing, getitem.
  destruct (item !! "id") as [ident|]; [|run_handler; by rewrite Hj].
  destruct (truthy ident); [|run_handler; by rewrite Hj].
  run_handler.
  destruct (add_line env t item) as [t1|e]; simpl.
  2:{ destruct (KeyError_or_TypeError e); simpl; by rewrite ?Hj. }
  rewrite <- Hj.
  destruct (faults env (length (journal s))); [by rewrite ?Hj|].
  destruct (primary_key env ident) as [k|]; [|by rewrite ?Hj].
  pose proof (Hw k) as Hk.
  destruct (medicines (work s) !! k) as [m|] eqn:Hm,
           (medicines (work s') !! k) as [m'|] eqn:Hm'; simpl in Hk; try done.
  injection Hk as Hk. simpl. rewrite <- Hk.
  destruct (item !! "quantity") as [requested|]; simpl; [|by rewrite ?Hj].
  destruct (pylt (Medicine.quantity m) requested) as [[|]|]; simpl.
  - destruct (item !! "name"); simpl; by rewrite ?Hj.
  - destruct (pysub (Medicine.quantity m) requested) as [left|]; simpl;
      [|by rewrite ?Hj].
    assert (same_stock
              {| medicines := alter (sell left) k (medicines (work s));
                 orders := orders (work s) |}
              {| medicines := alter (sell left) k (medicines (work s'));
                 orders := orders (work s') |}) as Hsold.
    { intros j. simpl.
      destruct (decide (k = j)) as [->|Hne].
      - by rewrite !lookup_alter_eq, Hm, Hm'.
      - rewrite !lookup_alter_ne by done. apply Hw. }
    destruct (item !! "price") as [unit_price|]; simpl.
    + split; [done|]. split; [by rewrite Hj|]. split; [done|].
      intros j. apply (Hsold j).
    + split; [done|]. split; [by rewrite Hj|]. split; [done|].
      intros j. apply (Hsold j).
  - by rewrite ?Hj.
Qed.

Lemma for_each_alike order order' cart : forall t s s',
  alike s s' ->
  (for_each (checkout_item env order) cart t s).1
  = (for_each (checkout_item env order') cart t s').1 /\
  alike (for_each (checkout_item env order) cart t s).2
        (for_each (checkout_item env order') cart t s').2.
Proof.
  induction cart as [|item cart IH]; intros t s s' Hs; simpl.
  - by split.
  - unfold bind.
    destruct (checkout_item_alike order order' item t s s' Hs) as [Hr Hs1].
    destruct (checkout_item env order item t s) as [r1 s1],
             (checkout_item env order' item t s') as [r2 s2].
    simpl in Hr, Hs1. subst r2.
    destruct r1 as [t1|r|e]; [by apply IH|by split|by split].
Qed.

(** X5: the response of a checkout depends on the database only through
    the stock of the medicines: the names and prices in the catalog and
    the orders stored are not consulted (the prices charged are the
    client's). *)
Theorem checkout_reads_stock_only uid req db db' :
  same_stock db db' ->
  (serve_checkout env uid req db).1 = (serve_checkout env uid req db').1.
Proof.
  intros Hsame.
  assert ((dispatch (checkout env uid req (open_session db))).1 =
          (dispatch (checkout env uid req (open_session db'))).1) as Hresp.
  { destruct (request_cart req) as [|item cart] eqn:Hreq.
    { by rewrite !checkout_empty_cart_session. }
    rewrite !checkout_unfold by (rewrite Hreq; done).
    destruct (for_each_alike (next_id (orders db)) (next_id (orders db'))
                (request_cart req) (NInt 0)
                (begun uid db).2 (begun uid db').2) as [Hr Hs].
    { split; [done|]. split; exact Hsame. }
    destruct (for_each _ _ _ (begun uid db).2) as [r1 s1],
             (for_each _ _ _ (begun uid db').2) as [r2 s2].
    simpl in Hr, Hs. subst r2. destruct Hs as (Hj & _ & _).
    destruct r1 as [total|r|e]; [|done|done].
    cbv zeta. rewrite <- Hj.
    destruct (faults env _); [done|]. by destruct (float_of total). }
  unfold serve_checkout.
  destruct (dispatch (checkout env uid req (open_session db))),
           (dispatch (checkout env uid req (open_session db'))).
  exact Hresp.
Qed.

End CatalogReads.

(** The sample cart on the sample catalog and on one with other names,
    other prices and an order stored. *)
Lemma checkout_reads_stock_only_witness :
  (serve_checkout steady 7
     {| cart_field :=
          Some [cart_line (PInt 1) "Paracetamol" (PFloat 5.99) (PInt 2)] |}
     pharmacy).1
  = (serve_checkout steady 7
       {| cart_field :=
            Some [cart_line (PInt 1) "Paracetamol" (PFloat 5.99) (PInt 2)] |}
       {| medicines :=
            <[1 := {| Medicine.name := "Aspirin";
                      Medicine.quantity := NInt 100;
                      Medicine.price := NFloat 1000 |}]>
            (<[2 := {| Medicine.name := "Ibuprofen";
                       Medicine.quantity := NInt 50;
                       Medicine.price := NInt 0 |}]> ∅);
          orders := <[4 := {| Order.user_id := 3; Order.total := NInt 1;
                              Order.items := [] |}]> ∅ |}).1.
Proof.
  apply (checkout_reads_stock_only steady 7).
  intros k. unfold pharmacy. simpl.
  destruct (decide (k = 1)) as [->|H1]; [reflexivity|].
  destruct (decide (k = 2)) as [->|H2]; [reflexivity|].
  by rewrite !lookup_insert_ne.
Defined.
(* ================================================================== *)
(** * Beyond the claims: more of the chat fallback *)

Section FallbackBeyond.

Variable create : string -> list dict -> Z -> float -> res ChatCompletion.

(** The loop reads the provider at the models it is given only. *)
Lemma try_models_ext create' messages models :
  (forall model, In model models ->
     create model messages 200 0.7%float = create' model messages 200 0.7%float) ->
  try_models create models messages = try_models create' models messages.
Proof.
  induction models as [|model rest IH]; intros Hsame; simpl; [done|].
  unfold attempt. rewrite <- (Hsame model) by (by left).
  rewrite IH by (intros m Hm; apply Hsame; by right). reflexivity.
Qed.

(** The models asked are the first of the list, in order; each of them
    left a warning, the last one perhaps apart. *)
Lemma try_models_log messages models :
  (exists later, models = requests (try_models create models messages).2 ++ later) /\
  (length (warnings (try_models create models messages).2)
   <= length (requests (try_models create models messages).2)
   <= S (length (warnings (try_models create models messages).2)))%nat.
Proof.
  induction models as [|model rest [[later IHreq] IHwarn]]; simpl.
  - split; [by exists []|]. simpl. lia.
  - destruct (attempt create model messages) as [text|e]; simpl.
    + split; [by exists rest|lia].
    + destruct (is_Exception e); simpl.
      * destruct (try_models create rest messages) as [r evs]. simpl in *.
        split; [|lia]. exists later. by rewrite <- IHreq.
      * split; [by exists rest|lia].
Qed.

(** A model interrupted after models that failed. *)
Lemma exit_after_failures user_input history failed model rest e :
  model_priority = failed ++ model :: rest ->
  Forall (fails create (chat_messages user_input history)) failed ->
  attempt create model (chat_messages user_input history) = Raise e ->
  is_Exception e = false ->
  exists evs,
    get_ai_response create user_input history = (Raise e, evs) /\
    requests evs = failed ++ [model] /\
    length (warnings evs) = length failed.
Proof.
  intros Hlist Hfailed Hraise Hexit. unfold get_ai_response.
  rewrite Hlist, try_models_skips by done. simpl. rewrite Hraise, Hexit. simpl.
  eexists. split; [reflexivity|]. split.
  - rewrite requests_app, failure_events_requests by done. reflexivity.
  - rewrite warnings_app, length_app, failure_events_warnings by done.
    simpl. lia.
Qed.

End FallbackBeyond.

(** Stripping, once done, is done. *)
Lemma lstrip_begins s : begins_blank (lstrip s) = false.
Proof.
  induction s as [|c s IH]; simpl; [done|].
  destruct (isspace c) eqn:Hc; [exact IH|]. simpl. exact Hc.
Qed.

Lemma lstrip_nothing s : begins_blank s = false -> lstrip s = s.
Proof. destruct s as [|c s]; simpl; [done|]. by intros ->. Qed.

Lemma rstrip_begins s : begins_blank s = false -> begins_blank (rstrip s) = false.
Proof.
  destruct s as [|c s]; simpl; [done|]. intros Hc.
  destruct (rstrip s); simpl; [by rewrite Hc|done].
Qed.

Lemma rstrip_ends s : ends_blank (rstrip s) = false.
Proof.
  induction s as [|c s IH]; simpl; [done|].
  destruct (rstrip s) as [|d t] eqn:Hr.
  - destruct (isspace c) eqn:Hc; simpl; [done|exact Hc].
  - simpl. simpl in IH. exact IH.
Qed.

Lemma rstrip_nothing s : ends_blank s = false -> rstrip s = s.
Proof.
  induction s as [|c s IH]; simpl; [done|].
  destruct s as [|d t].
  - simpl. by intros ->.
  - intros H. rewrite (IH H). reflexivity.
Qed.

Lemma strip_clean s :
  begins_blank (strip s) = false /\ ends_blank (strip s) = false /\
  strip (strip s) = strip s.
Proof.
  unfold strip.
  pose proof (rstrip_begins _ (lstrip_begins s)) as Hb.
  pose proof (rstrip_ends (lstrip s)) as He.
  split; [exact Hb|]. split; [exact He|].
  rewrite (lstrip_nothing _ Hb). by apply rstrip_nothing.
Qed.

(** X6: the call reaches the provider through requests to the three
    listed models only, each with the same conversation (the system
    prompt, the history, the user's message), [max_tokens] 200 and
    [temperature] 0.7: two providers that answer alike there make the
    call return and print alike. *)
Theorem provider_is_asked_three_things create create' user_input history :
  (forall model, In model model_priority ->
     create model (chat_messages user_input history) 200 0.7%float
     = create' model (chat_messages user_input history) 200 0.7%float) ->
  get_ai_response create user_input history
  = get_ai_response create' user_input history.
Proof.
  intros Hsame. unfold get_ai_response. by apply try_models_ext.
Qed.

Lemma provider_is_asked_three_things_witness :
  get_ai_response third_answers (PStr "Is ibuprofen in stock?") None
  = get_ai_response third_answers_only (PStr "Is ibuprofen in stock?") None.
Proof.
  apply (provider_is_asked_three_things third_answers third_answers_only).
  intros model Hin. unfold third_answers_only.
  rewrite (bool_decide_true _ Hin). reflexivity.
Defined.

(** X7: an exception that is not an [Exception] (KeyboardInterrupt,
    SystemExit) is not swallowed: raised while a model is asked, it
    leaves the call at once, with no warning for it and no later model
    asked; the models that failed before it each left their warning. *)
Theorem interpreter_exit_is_not_swallowed create user_input history failed
    model rest e :
  model_priority = failed ++ model :: rest ->
  Forall (fails create (chat_messages user_input history)) failed ->
  create model (chat_messages user_input history) 200 0.7%float = Raise e ->
  is_Exception e = false ->
  exists evs,
    get_ai_response create user_input history = (Raise e, evs) /\
    requests evs = failed ++ [model] /\
    length (warnings evs) = length failed.
Proof.
  intros Hlist Hfailed Hraise Hexit.
  apply (exit_after_failures create user_input history failed model rest e);
    try done.
  unfold attempt. by rewrite Hraise.
Qed.

Lemma interpreter_exit_is_not_swallowed_witness :
  exists evs,
    get_ai_response interrupted (PStr "Is ibuprofen in stock?") None
    = (Raise (BaseExit "KeyboardInterrupt"), evs) /\
    requests evs = ["meta-llama/llama-3.1-8b-instruct"; "google/gemma-7b-it"] /\
    length (warnings evs) = 1%nat.
Proof.
  apply (interpreter_exit_is_not_swallowed interrupted
           (PStr "Is ibuprofen in stock?") None
           ["meta-llama/llama-3.1-8b-instruct"] "google/gemma-7b-it"
           ["nousresearch/hermes-2-pro-mistral"]
           (BaseExit "KeyboardInterrupt") eq_refl); try reflexivity.
  repeat constructor.
  exists (ProviderError "503 Service Unavailable"). split; reflexivity.
Defined.

(** X8: whatever the providers do, a text the call returns (a model's
    answer or the apology) neither begins nor ends with whitespace:
    stripping it again changes nothing. *)
Theorem answer_is_stripped create user_input history :
  match (get_ai_response create user_input history).1 with
  | Ret text =>
      begins_blank text = false /\ ends_blank text = false /\ strip text = text
  | Raise _ => True
  end.
Proof.
  unfold get_ai_response.
  induction model_priority as [|model rest IH]; simpl.
  - repeat split; vm_compute; reflexivity.
  - destruct (attempt create model _) as [text|e] eqn:Hattempt; simpl.
    + unfold attempt in Hattempt.
      destruct (create model _ _ _) as [response|]; simpl in Hattempt; [|done].
      unfold first_content in Hattempt.
      destruct (choices response) as [|[content|] others]; try done.
      injection Hattempt as <-. apply strip_clean.
    + destruct (is_Exception e); simpl; [|done].
      by destruct (try_models create rest _).
Qed.

(** X9: whatever the providers do, the models asked are the first of the
    priority list, in its order and each once (at most three requests),
    and each of them but perhaps the last left exactly one warning. *)
Theorem models_are_asked_in_order create user_input history :
  (exists later,
     model_priority
     = requests (get_ai_response create user_input history).2 ++ later) /\
  NoDup (requests (get_ai_response create user_input history).2) /\
  (length (requests (get_ai_response create user_input history).2) <= 3)%nat /\
  (length (warnings (get_ai_response create user_input history).2)
   <= length (requests (get_ai_response create user_input history).2)
   <= S (length (warnings (get_ai_response create user_input history).2)))%nat.
Proof.
  unfold get_ai_response.
  destruct (try_models_log create (chat_messages user_input history)
              model_priority) as [[later Hreq] Hwarn].
  split; [by exists later|]. split; [|split; [|exact Hwarn]].
  - pose proof model_priority_NoDup as Hnd. rewrite Hreq in Hnd.
    by apply NoDup_app in Hnd as [? _].
  - apply (f_equal length) in Hreq. rewrite length_app in Hreq.
    assert (length model_priority = 3%nat) as Hthree by reflexivity.
    rewrite Hthree in Hreq. lia.
Qed.
(* ================================================================== *)
(** * Beyond the claims: the other views *)

(** ** Sorting *)

Lemma insert_by_perm {A} (leb : A -> A -> bool) x l :
  Permutation (insert_by leb x l) (x :: l).
Proof.
  induction l as [|y l IH]; simpl; [done|].
  destruct (leb x y); [done|].
  rewrite IH. apply perm_swap.
Qed.

Lemma sort_by_perm {A} (leb : A -> A -> bool) l :
  Permutation (sort_by leb l) l.
Proof.
  induction l as [|x l IH]; simpl; [done|].
  rewrite insert_by_perm. by constructor.
Qed.

Lemma sort_by_In {A} (leb : A -> A -> bool) l x :
  In x (sort_by leb l) <-> In x l.
Proof.
  split; apply Permutation_in; [|symmetry]; apply sort_by_perm.
Qed.

Lemma insert_by_sorted {A} (leb : A -> A -> bool) x l :
  (forall a b, leb a b = false -> leb b a = true) ->
  Sorted (fun a b => leb a b = true) l ->
  Sorted (fun a b => leb a b = true) (insert_by leb x l).
Proof.
  intros Htotal. induction 1 as [|y l Hl IH Hhd]; simpl.
  - by repeat constructor.
  - destruct (leb x y) eqn:Hxy.
    + constructor; [by constructor|]. by constructor.
    + constructor; [exact IH|].
      destruct l as [|z l]; simpl.
      * constructor. by apply Htotal.
      * destruct (leb x z); constructor; [by apply Htotal|].
        by inversion Hhd.
Qed.

Lemma sort_by_sorted {A} (leb : A -> A -> bool) l :
  (forall a b, leb a b = false -> leb b a = true) ->
  Sorted (fun a b => leb a b = true) (sort_by leb l).
Proof.
  intros Htotal. induction l as [|x l IH]; simpl; [constructor|].
  by apply insert_by_sorted.
Qed.

(** The rows of a table are its entries. *)
Lemma rows_In {A} (table : gmap Z A) k x :
  In (k, x) (rows table) <-> table !! k = Some x.
Proof.
  unfold rows. rewrite sort_by_In, <- list_elem_of_In.
  apply elem_of_map_to_list.
Qed.

(** ** Accounts *)

Section AccountFacts.

Variable env : environment.
Variable hashpw : string -> string -> result string.
Variable checkpw : string -> string -> result bool.

Lemma by_email_found users0 email id u :
  by_email users0 email = Some (id, u) ->
  users0 !! id = Some u /\ email = Some (User.email u).
Proof.
  destruct email as [e|]; simpl; [|done].
  intros Hfind. apply find_some in Hfind as [Hin Heq].
  apply rows_In in Hin. simpl in Heq.
  apply String.eqb_eq in Heq. by subst.
Qed.

Lemma by_email_missing users0 e :
  by_email users0 (Some e) = None ->
  forall id u, users0 !! id = Some u -> User.email u <> e.
Proof.
  simpl. intros Hfind id u Hu Heq.
  pose proof (find_none _ _ Hfind (id, u)) as Hno.
  simpl in Hno. rewrite (proj2 (String.eqb_eq _ _) Heq) in Hno.
  by specialize (Hno (proj2 (rows_In _ _ _) Hu)).
Qed.

Lemma by_email_unique users0 id u :
  unique_emails users0 ->
  users0 !! id = Some u ->
  by_email users0 (Some (User.email u)) = Some (id, u).
Proof.
  intros Huniq Hu.
  destruct (by_email users0 (Some (User.email u))) as [[id' u']|] eqn:Hfind.
  - apply by_email_found in Hfind as [Hu' [= Heq]].
    assert (id = id') as <- by (by apply (Huniq id id' u u')).
    congruence.
  - by destruct (by_email_missing _ _ Hfind id u Hu).
Qed.

(** X10: whatever the request, signing up changes no account that
    exists (no email, no password, no admin flag) and keeps the login
    session as it is; it adds at most one account, which is never an
    admin and holds the hash of the password, not the password; and if no
    two accounts shared an email before, none do after. *)
Theorem signup_keeps_accounts m form salt a :
  unique_emails (users a) ->
  login (signup env hashpw m form salt a).2 = login a /\
  (forall id u, users a !! id = Some u ->
                users (signup env hashpw m form salt a).2 !! id = Some u) /\
  (forall id u,
     users a !! id = None ->
     users (signup env hashpw m form salt a).2 !! id = Some u ->
     id = next_id (users a) /\ User.is_admin u = false /\
     exists p, form !! "password" = Some p /\
               hashpw p salt = Done (User.password u)) /\
  unique_emails (users (signup env hashpw m form salt a).2).
Proof.
  intros Huniq.
  assert (login a = login a /\
          (forall id u, users a !! id = Some u -> users a !! id = Some u) /\
          (forall id u,
             users a !! id = None -> users a !! id = Some u ->
             id = next_id (users a) /\ User.is_admin u = false /\
             exists p, form !! "password" = Some p /\
                       hashpw p salt = Done (User.password u)) /\
          unique_emails (users a)) as Hsame.
  { split; [done|]. split; [done|]. split; [|done].
    intros id u Hnone Hsome. congruence. }
  unfold signup.
  destruct (signed_in a); [exact Hsame|].
  destruct m; [exact Hsame|].
  destruct (faults env 0); [exact Hsame|].
  destruct (by_email (users a) (form !! "email")) eqn:Hfind; [exact Hsame|].
  destruct (form !! "password") as [p|] eqn:Hp; [|exact Hsame].
  destruct (hashpw p salt) as [hashed|] eqn:Hhash; [|exact Hsame].
  destruct (form !! "email") as [e|] eqn:He, (faults env 2);
    try exact Hsame.
  pose proof (next_id_fresh (users a)) as Hfresh.
  simpl. split; [done|]. split; [|split].
  - intros id u Hu. rewrite lookup_insert_ne; [done|].
    intros <-. by rewrite Hfresh in Hu.
  - intros id u Hnone Hnew.
    destruct (decide (next_id (users a) = id)) as [<-|Hne].
    + rewrite lookup_insert_eq in Hnew. injection Hnew as <-. simpl.
      split; [done|]. split; [done|]. by exists p.
    + rewrite lookup_insert_ne in Hnew by done. congruence.
  - intros i j u v Hi Hj Hsame_email.
    destruct (decide (next_id (users a) = i)) as [<-|Hi'],
             (decide (next_id (users a) = j)) as [<-|Hj']; [done| | |].
    + rewrite lookup_insert_eq in Hi. injection Hi as <-.
      rewrite lookup_insert_ne in Hj by done. simpl in Hsame_email.
      by destruct (by_email_missing _ _ Hfind j v Hj).
    + rewrite lookup_insert_eq in Hj. injection Hj as <-.
      rewrite lookup_insert_ne in Hi by done. simpl in Hsame_email.
      by destruct (by_email_missing _ _ Hfind i u Hi).
    + rewrite lookup_insert_ne in Hi, Hj by done.
      by apply (Huniq i j u v).
Qed.

(** X11: an account just created can be used: after a signup that went
    through, from a browser with no login session and with an email that
    was free, a login with the same email and password opens the session
    of the new account, provided bcrypt checks a password against its own
    hash. *)
Theorem signup_then_login form salt a e p hashed :
  unique_emails (users a) ->
  login a = None ->
  faults env 0 = None -> faults env 2 = None ->
  form !! "email" = Some e -> form !! "password" = Some p ->
  by_email (users a) (Some e) = None ->
  hashpw p salt = Done hashed ->
  checkpw p hashed = Done true ->
  exists a',
    signup env hashpw POST form salt a =
    (Answer (Redirect "login") [("Signup successful! Please log in.", "success")],
     a') /\
    log_in env checkpw POST form a' =
    (Answer (Redirect "index") [("Login successful!", "success")],
     {| users := users a'; login := Some (next_id (users a)) |}) /\
    current_user (users a') (Some (next_id (users a)))
    = Some (next_id (users a),
            {| User.email := e; User.password := hashed;
               User.is_admin := false |}).
Proof.
  intros Huniq Hout Hf0 Hf2 He Hp Hfree Hhash Hcheck.
  destruct a as [users0 login0]. cbn [users login] in *. subst login0.
  assert (forall table, signed_in {| users := table; login := None |} = false)
    as Hanon.
  { intros table. reflexivity. }
  eexists. split.
  { unfold signup. cbn [users login].
    rewrite (Hanon users0), Hf0, He, Hp, Hfree, Hhash, Hf2. reflexivity. }
  set (new := {| User.email := e; User.password := hashed;
                 User.is_admin := false |}).
  set (users' := <[next_id users0 := new]> users0).
  assert (users' !! next_id users0 = Some new) as Hnew
    by apply lookup_insert_eq.
  assert (unique_emails users') as Huniq'.
  { intros i j u v Hi Hj Hsame_email. unfold users' in Hi, Hj.
    destruct (decide (next_id users0 = i)) as [<-|Hi'],
             (decide (next_id users0 = j)) as [<-|Hj']; [done| | |].
    - rewrite lookup_insert_eq in Hi. injection Hi as <-.
      rewrite lookup_insert_ne in Hj by done. simpl in Hsame_email.
      by destruct (by_email_missing _ _ Hfree j v Hj).
    - rewrite lookup_insert_eq in Hj. injection Hj as <-.
      rewrite lookup_insert_ne in Hi by done. simpl in Hsame_email.
      by destruct (by_email_missing _ _ Hfree i u Hi).
    - rewrite lookup_insert_ne in Hi, Hj by done.
      by apply (Huniq i j u v). }
  split.
  - unfold log_in. cbn [users login]. rewrite (Hanon users'), Hf0, He, Hp.
    pose proof (by_email_unique users' _ new Huniq' Hnew) as Hfound.
    change (User.email new) with e in Hfound.
    rewrite Hfound. cbn [User.password new]. by rewrite Hcheck.
  - unfold current_user. simpl. by rewrite Hnew.
Qed.

End AccountFacts.

Section AccountBeyond.

Variable env : environment.
Variable hashpw : string -> string -> result string.
Variable checkpw : string -> string -> result bool.

(** X12: whatever the request, logging in changes no account, and it
    changes the login session only by opening the session of an account
    whose email is the one sent and whose stored hash checks the password
    sent. *)
Theorem login_needs_the_password m form a :
  users (log_in env checkpw m form a).2 = users a /\
  (login (log_in env checkpw m form a).2 = login a \/
   exists id u p,
     login (log_in env checkpw m form a).2 = Some id /\
     users a !! id = Some u /\
     form !! "email" = Some (User.email u) /\
     form !! "password" = Some p /\
     checkpw p (User.password u) = Done true).
Proof.
  unfold log_in.
  destruct (signed_in a); [by split; [|left]|].
  destruct m; [by split; [|left]|].
  destruct (faults env 0); [by split; [|left]|].
  destruct (by_email (users a) (form !! "email")) as [[id u]|] eqn:Hfind;
    [|by split; [|left]].
  destruct (form !! "password") as [p|] eqn:Hp; [|by split; [|left]].
  destruct (checkpw p (User.password u)) as [[|]|] eqn:Hcheck;
    try (by split; [|left]).
  apply by_email_found in Hfind as [Hu He].
  split; [done|]. right. exists id, u, p. by repeat split.
Qed.

End AccountBeyond.

(** X13: after a logout the browser is anonymous: whoever was logged in,
    every view behind [@login_required] (admin, profile, chatbot, cart,
    checkout) then sends to the login page, reads nothing and changes
    nothing. *)
Theorem logout_closes_the_session a :
  let user := current_user (users (logout a).2) (login (logout a).2) in
  let refused :=
    Answer (Redirect "login")
      [("Please log in to access this page.", "message")] in
  user = None /\
  (forall env to_int to_float m form db,
     admin env to_int to_float m form user db = (refused, db)) /\
  (forall date_of db, profile date_of user db = (refused, db)) /\
  (forall env create m now req chats,
     chatbot env create m user now req chats = (refused, (chats, []))) /\
  cart_view user = refused /\
  (forall env req db, checkout_view env user req db = (inl refused, db)).
Proof.
  assert (current_user (users (logout a).2) (login (logout a).2) = None) as Hout.
  { unfold logout, login_required.
    destruct (current_user (users a) (login a)) as [[id u]|] eqn:Huser; simpl.
    - reflexivity.
    - exact Huser. }
  cbv zeta. rewrite Hout. by repeat split.
Qed.

(** ** The chat view *)

Section ChatbotFacts.

Variable env : environment.
Variable create : string -> list dict -> Z -> float -> res ChatCompletion.

(** The first model is always asked. *)
Lemma try_models_asks model rest messages :
  requests (try_models create (model :: rest) messages).2 <> [].
Proof.
  simpl. destruct (attempt create model messages) as [text|e]; simpl; [done|].
  destruct (is_Exception e); simpl; [|done].
  by destruct (try_models create rest messages).
Qed.

Lemma get_ai_response_asks user_input history :
  requests (get_ai_response create user_input history).2 <> [].
Proof. apply try_models_asks. Qed.

(** X14: a chat request with a message and a history that is a list is
    answered, when the commit goes through, with the model's text and the
    history grown by the exchange (the user's message, then the answer),
    and the exchange is stored as one new row, no other row changing; and
    a next request that sends this history back presents the models with
    the system prompt, the old history, that exchange and the new
    message, in this order. *)
Theorem chat_history_grows uid u now req chats history response evs :
  request_history req = Some history ->
  request_message req <> PNone ->
  faults env 1 = None ->
  get_ai_response create (request_message req) (Some history)
  = (Ret response, evs) ->
  chatbot env create POST (Some (uid, u)) now req chats =
  (Answer (ChatJson response
             (history ++ exchange (request_message req) response)) [],
   (<[next_id chats :=
        {| Chat.user_id := uid; Chat.message := request_message req;
           Chat.response := response; Chat.timestamp := now |}]> chats,
    evs)) /\
  chats !! next_id chats = None /\
  forall next_input,
    chat_messages next_input
      (Some (history ++ exchange (request_message req) response))
    = chat_message "system" (PStr system_prompt)
      :: history ++ exchange (request_message req) response
         ++ [chat_message "user" next_input].
Proof.
  intros Hhistory Hmessage Hcommit Hanswer.
  split; [|split; [apply next_id_fresh|]].
  - unfold chatbot, login_required, chatbot_post.
    rewrite Hhistory, Hanswer, Hcommit.
    by destruct (request_message req).
  - intros next_input. unfold chat_messages.
    destruct history as [|first rest]; simpl; [done|].
    by rewrite <- app_assoc.
Qed.

(** X15: a chat request whose [history] is a JSON null is not answered:
    the models are asked and the exchange is stored, and then the view
    raises [TypeError] building the new history, so the caller gets no
    reply for the row that was written. *)
Theorem null_history_loses_the_reply uid u now req chats response evs :
  history_field req = Some None ->
  request_message req <> PNone ->
  faults env 1 = None ->
  get_ai_response create (request_message req) None = (Ret response, evs) ->
  chatbot env create POST (Some (uid, u)) now req chats =
  (Uncaught (Known TypeError),
   (<[next_id chats :=
        {| Chat.user_id := uid; Chat.message := request_message req;
           Chat.response := response; Chat.timestamp := now |}]> chats,
    evs)).
Proof.
  intros Hhistory Hmessage Hcommit Hanswer.
  unfold chatbot, login_required, chatbot_post, request_history.
  rewrite Hhistory, Hanswer, Hcommit.
  by destruct (request_message req).
Qed.

(** X16: a chat request with no message (the field absent or null) is
    never answered and stores nothing, yet it is only found out at the
    commit: the models have been asked by then. *)
Theorem missing_message_is_asked_anyway uid u now req chats :
  request_message req = PNone ->
  (exists e, (chatbot env create POST (Some (uid, u)) now req chats).1
             = Uncaught e) /\
  (chatbot env create POST (Some (uid, u)) now req chats).2.1 = chats /\
  requests (chatbot env create POST (Some (uid, u)) now req chats).2.2 <> [].
Proof.
  intros Hmessage.
  unfold chatbot, login_required, chatbot_post. rewrite Hmessage.
  pose proof (get_ai_response_asks PNone (request_history req)) as Hasked.
  destruct (get_ai_response create PNone (request_history req))
    as [[response|e] evs]; simpl in *.
  - destruct (faults env 1); simpl; eauto.
  - eauto.
Qed.

(** X17: when every model fails, the chat view still answers: the fixed
    apology is returned as the response, stored as the response of the
    exchange and put in the history as the assistant's turn. *)
Theorem apology_is_recorded uid u now req chats history :
  request_history req = Some history ->
  request_message req <> PNone ->
  faults env 1 = None ->
  Forall (fails create (chat_messages (request_message req) (Some history)))
    model_priority ->
  exists evs,
    chatbot env create POST (Some (uid, u)) now req chats =
    (Answer (ChatJson apology
               (history ++ exchange (request_message req) apology)) [],
     (<[next_id chats :=
          {| Chat.user_id := uid; Chat.message := request_message req;
             Chat.response := apology; Chat.timestamp := now |}]> chats,
      evs)) /\
    length (warnings evs) = 3%nat.
Proof.
  intros Hhistory Hmessage Hcommit Hall.
  pose proof (try_models_skips create _ _ [] Hall) as Hskip.
  rewrite app_nil_r in Hskip. cbn [try_models fst snd] in Hskip.
  rewrite app_nil_r in Hskip.
  exists (failure_events create
            (chat_messages (request_message req) (Some history))
            model_priority).
  split.
  - unfold chatbot, login_required, chatbot_post, get_ai_response.
    rewrite Hhistory, Hskip, Hcommit.
    by destruct (request_message req).
  - by rewrite failure_events_warnings.
Qed.

(** X18: the chat page shows the exchanges of the logged-in user, all of
    them and no one else's, oldest first, and changes nothing. *)
Theorem chat_page_is_ones_own uid u now req chats :
  exists shown,
    chatbot env create GET (Some (uid, u)) now req chats =
    (Answer (ChatPage shown) [], (chats, [])) /\
    (forall k c, In (k, c) shown <->
                 chats !! k = Some c /\ Chat.user_id c = uid) /\
    Sorted (fun a b => Chat.timestamp a.2 <= Chat.timestamp b.2) shown.
Proof.
  eexists. split; [reflexivity|]. split.
  - intros k c. rewrite sort_by_In, filter_In, <- list_elem_of_In.
    rewrite elem_of_map_to_list. simpl. by rewrite Z.eqb_eq.
  - eapply Sorted_ind with (P := Sorted _);
      [| |apply (sort_by_sorted older)].
    + constructor.
    + intros a l _ Hl Hhd. constructor; [exact Hl|].
      destruct Hhd as [|b l Hab]; constructor.
      unfold older in Hab. lia.
    + intros a b. unfold older. lia.
Qed.

End ChatbotFacts.

(** ** The profile *)

Section ProfileFacts.

Variable date_of : Z -> Z.

Lemma orders_of_In uid db k o :
  In (k, o) (orders_of date_of uid db) <->
  orders db !! k = Some o /\ Order.user_id o = uid.
Proof.
  unfold orders_of. rewrite sort_by_In, filter_In, <- list_elem_of_In.
  rewrite elem_of_map_to_list. simpl. by rewrite Z.eqb_eq.
Qed.

(** X19: the profile shows the orders of the logged-in user, all of them
    and no one else's, newest first, and changes nothing. *)
Theorem profile_is_ones_own uid u db :
  exists shown,
    profile date_of (Some (uid, u)) db = (Answer (ProfilePage shown) [], db) /\
    (forall k o, In (k, o) shown <->
                 orders db !! k = Some o /\ Order.user_id o = uid) /\
    Sorted (fun a b => date_of b.1 <= date_of a.1) shown.
Proof.
  eexists. split; [reflexivity|]. split.
  - apply orders_of_In.
  - eapply Sorted_ind with (P := Sorted _);
      [| |apply (sort_by_sorted (newer date_of))].
    + constructor.
    + intros a l _ Hl Hhd. constructor; [exact Hl|].
      destruct Hhd as [|b l Hab]; constructor.
      unfold newer in Hab. lia.
    + intros a b. unfold newer. lia.
Qed.

(** A checkout that succeeded went through every line and the commit. *)
Lemma success_was_accepted env uid req db total s' :
  dispatch (checkout env uid req (open_session db)) = (Success total, s') ->
  request_cart req <> [] /\
  exists s shown,
    accepted env uid db (request_cart req) total s /\
    responds env s /\ float_of total = Ret shown.
Proof.
  intros Hrun.
  destruct (request_cart req) as [|item cart] eqn:Hreq.
  { by rewrite checkout_empty_cart_session in Hrun. }
  split; [done|].
  rewrite checkout_unfold in Hrun by (rewrite Hreq; done).
  rewrite Hreq in Hrun. unfold accepted, responds.
  destruct (for_each _ _ _ _) as [[t|r|e] s] eqn:Hloop.
  - cbv zeta in Hrun.
    destruct (faults env (length (journal s))) eqn:Hfault; [done|].
    destruct (float_of t) as [shown|] eqn:Hshown; [|done].
    simpl in Hrun. injection Hrun as <- _. by exists s, shown.
  - apply for_each_return in Hloop as [(err & ->) _]. done.
  - done.
Qed.

(** X20: an order placed shows in the buyer's profile: after a checkout
    that succeeds, the profile of the buyer holds one new order, with the
    total answered and one line for each cart line, beside the orders it
    held; the profile of every other user holds what it held. *)
Theorem checkout_shows_in_profile env uid req db total :
  (serve_checkout env uid req db).1 = Success total ->
  exists items,
    Forall2 (line_of env) (request_cart req) items /\
    In (next_id (orders db),
        {| Order.user_id := uid; Order.total := total; Order.items := items |})
       (orders_of date_of uid (serve_checkout env uid req db).2) /\
    ~ In (next_id (orders db)) (map fst (orders_of date_of uid db)) /\
    (forall k o, In (k, o) (orders_of date_of uid db) ->
                 In (k, o) (orders_of date_of uid (serve_checkout env uid req db).2)) /\
    (forall other k o, other <> uid ->
       (In (k, o) (orders_of date_of other (serve_checkout env uid req db).2) <->
        In (k, o) (orders_of date_of other db))).
Proof.
  unfold serve_checkout.
  destruct (dispatch (checkout env uid req (open_session db)))
    as [resp s'] eqn:Hrun.
  simpl. intros ->.
  destruct (success_was_accepted _ _ _ _ _ _ Hrun)
    as (Hne & s & shown & Hacc & Hup & Hshown).
  destruct (checkout_accepted env uid req db total s shown Hne Hacc Hup Hshown)
    as (s2 & items & Hrun2 & _ & _ & Hitems & Hfresh & Horders & _).
  rewrite Hrun in Hrun2. injection Hrun2 as <-.
  exists items. split; [exact Hitems|].
  split; [|split; [|split]].
  - apply orders_of_In. rewrite Horders. by rewrite lookup_insert_eq.
  - intros Hin. apply in_map_iff in Hin as ([k o] & Hk & Hin).
    simpl in Hk. subst k. apply orders_of_In in Hin as [Hin _]. congruence.
  - intros k o Hin. apply orders_of_In in Hin as [Hin Hu].
    apply orders_of_In. rewrite Horders. split; [|done].
    rewrite lookup_insert_ne; [done|]. intros <-. congruence.
  - intros other k o Hother. rewrite !orders_of_In, Horders.
    destruct (decide (next_id (orders db) = k)) as [<-|Hk].
    + rewrite lookup_insert_eq, Hfresh. split; [|by intros [? _]].
      intros [[= <-] Hu]. simpl in Hu. congruence.
    + by rewrite lookup_insert_ne.
Qed.

End ProfileFacts.

(** ** The admin view *)

Section AdminFacts.

Variable env : environment.
Variable to_int : option string -> result Z.
Variable to_float : option string -> result float.

(** What is staged is one row, and the commit writes that row only. *)
Lemma admin_commit_frame c calls db db' :
  admin_commit env c calls db = Done db' ->
  orders db' = orders db /\
  match c with
  | NoChange => db' = db
  | Upsert k _ _ _ | Remove k =>
      forall j, j <> k -> medicines db' !! j = medicines db !! j
  end.
Proof.
  unfold admin_commit. destruct (faults env calls); [done|].
  destruct c as [|k [name|] quantity price|k]; try done.
  - by intros [= <-].
  - intros [= <-]. split; [done|]. intros j Hj. simpl.
    by rewrite lookup_insert_ne.
  - intros [= <-]. split; [done|]. intros j Hj. simpl.
    by rewrite lookup_delete_ne.
Qed.

(** X21: the admin view changes the catalog only on a POST by a user
    whose [is_admin] is set; whatever the form, such a request changes at
    most one medicine; and no admin request changes an order. *)
Theorem admin_changes_one_medicine m form user db :
  orders (admin env to_int to_float m form user db).2 = orders db /\
  (exists k, forall j, j <> k ->
     medicines (admin env to_int to_float m form user db).2 !! j
     = medicines db !! j) /\
  ((admin env to_int to_float m form user db).2 <> db ->
   m = POST /\ exists id u, user = Some (id, u) /\ User.is_admin u = true).
Proof.
  assert (orders db = orders db /\
          (exists k : Z, forall j, j <> k -> medicines db !! j = medicines db !! j) /\
          (db <> db ->
           m = POST /\ exists id u, user = Some (id, u) /\ User.is_admin u = true))
    as Hsame.
  { split; [done|]. split; [by exists 0|done]. }
  unfold admin, login_required.
  destruct user as [[id u]|]; [|exact Hsame].
  destruct (User.is_admin u) eqn:Hadmin; simpl; [|exact Hsame].
  destruct m; [exact Hsame|].
  destruct (admin_stage env to_int to_float form db) as [[c calls]|];
    [|exact Hsame].
  destruct (admin_commit env c calls db) as [db'|] eqn:Hcommit; [|exact Hsame].
  simpl. apply admin_commit_frame in Hcommit as [Horders Hframe].
  split; [exact Horders|]. split.
  - destruct c as [|k name quantity price|k];
      [exists 0; by subst|by exists k|by exists k].
  - intros _. split; [done|]. by exists id, u.
Qed.

(** X22: an admin POST that names no known action, or asks to edit or
    delete an id that is not in the catalog, is answered like one that
    did its work, with 'Medicine updated successfully.', and changes
    nothing. *)
Theorem admin_reports_success_for_nothing form id u db :
  User.is_admin u = true ->
  reliable env ->
  (action_is form "add" = false /\ action_is form "edit" = false /\
   action_is form "delete" = false) \/
  (action_is form "add" = false /\
   (action_is form "edit" = true \/ action_is form "delete" = true) /\
   exists k, to_int (form !! "id") = Done k /\ medicines db !! k = None) ->
  admin env to_int to_float POST form (Some (id, u)) db =
  (Answer (Redirect "admin") [("Medicine updated successfully.", "success")],
   db).
Proof.
  intros Hadmin Hup Hcase.
  unfold admin, login_required. rewrite Hadmin. simpl.
  assert (exists calls,
            admin_stage env to_int to_float form db = Done (NoChange, calls))
    as [calls ->].
  { unfold admin_stage.
    destruct Hcase as [(-> & -> & ->)|(-> & Haction & k & Hk & Hnone)];
      [by eexists|].
    rewrite Hk, (Hup 0%nat), Hnone.
    destruct (action_is form "edit"); [by eexists|].
    destruct Haction as [Hno | ->]; [done|]. by eexists. }
  unfold admin_commit. by rewrite (Hup calls).
Qed.

(** X23: a medicine an admin adds is in the catalog under a new key, with
    the name sent and the quantity and price read from the form, when the
    commit goes through; it is listed on the admin page, and the
    medicines that were there are as they were. *)
Theorem admin_add_is_listed form id u db name quantity price :
  User.is_admin u = true ->
  reliable env ->
  action_is form "add" = true ->
  form !! "name" = Some name ->
  to_int (form !! "quantity") = Done quantity ->
  to_float (form !! "price") = Done price ->
  let new := {| Medicine.name := name; Medicine.quantity := NInt quantity;
                Medicine.price := NFloat price |} in
  exists db',
    admin env to_int to_float POST form (Some (id, u)) db =
    (Answer (Redirect "admin") [("Medicine updated successfully.", "success")],
     db') /\
    medicines db !! next_id (medicines db) = None /\
    medicines db' !! next_id (medicines db) = Some new /\
    (forall k m, medicines db !! k = Some m -> medicines db' !! k = Some m) /\
    exists listed,
      admin env to_int to_float GET form (Some (id, u)) db' =
      (Answer (AdminPage listed) [], db') /\
      In (next_id (medicines db), new) listed.
Proof.
  intros Hadmin Hup Hadd Hname Hquantity Hprice new.
  pose proof (next_id_fresh (medicines db)) as Hfresh.
  eexists. split; [|split; [exact Hfresh|split; [|split]]].
  - unfold admin, login_required. rewrite Hadmin. simpl.
    unfold admin_stage. rewrite Hadd, Hquantity, Hprice, Hname.
    unfold admin_commit. rewrite (Hup 1%nat). reflexivity.
  - simpl. apply lookup_insert_eq.
  - intros k m Hk. simpl. rewrite lookup_insert_ne; [done|].
    intros <-. congruence.
  - eexists. split.
    + unfold admin, login_required. rewrite Hadmin. reflexivity.
    + apply rows_In. simpl. apply lookup_insert_eq.
Qed.

(** X24: a medicine an admin deletes cannot be bought any more: once the
    delete is committed, a checkout whose first line names it (with a
    price and a quantity the sum accepts) is answered 400 'not found',
    and changes nothing. *)
Theorem admin_delete_then_checkout form id u db k m uid req item post t' :
  User.is_admin u = true ->
  reliable env ->
  action_is form "add" = false -> action_is form "edit" = false ->
  action_is form "delete" = true ->
  to_int (form !! "id") = Done k ->
  medicines db !! k = Some m ->
  request_cart req = item :: post ->
  item !! "id" = Some (PInt k) -> k <> 0 ->
  add_line env (NInt 0) item = Ret t' ->
  let db' := {| medicines := delete k (medicines db); orders := orders db |} in
  admin env to_int to_float POST form (Some (id, u)) db =
  (Answer (Redirect "admin") [("Medicine updated successfully.", "success")],
   db') /\
  serve_checkout env uid req db' =
  (Failure 400 (ItemNotFound (name_or_unknown item)), db').
Proof.
  intros Hadmin Hup Hadd Hedit Hdelete Hk Hm Hcart Hid Hnz Hsum db'.
  split.
  - unfold admin, login_required. rewrite Hadmin. simpl.
    unfold admin_stage. rewrite Hadd, Hedit, Hdelete, Hk, (Hup 0%nat), Hm.
    unfold admin_commit. by rewrite (Hup 2%nat).
  - apply (serve_stops_return env uid req db' [] item post (NInt 0)
             (begun uid db').2
             (Failure 400 (ItemNotFound (name_or_unknown item)))
             (rolled_back (log (CallGet (PInt k)) (begun uid db').2)));
      [exact Hcart|reflexivity|].
    apply (line_not_found env _ item (NInt 0) _ t' (PInt k)); try done.
    + apply (id_present item (PInt k) Hid). simpl.
      by apply negb_true_iff, Z.eqb_neq.
    + apply Hup.
    + intros k' [= <-]. simpl. apply lookup_delete_eq.
Qed.

End AdminFacts.

(** ** The search view *)

Lemma page_items_nat {A} (p : nat) (l : list A) :
  page_items (Z.of_nat (S p)) l = firstn 6 (skipn (6 * p) l).
Proof.
  unfold page_items, per_page. f_equal. f_equal. lia.
Qed.

Lemma page_items_In {A} page (l : list A) x :
  In x (page_items page l) -> In x l.
Proof.
  unfold page_items.
  set (n := Z.to_nat per_page). set (k := Z.to_nat ((page - 1) * per_page)).
  intros Hin.
  rewrite <- (firstn_skipn k l). apply in_or_app. right.
  rewrite <- (firstn_skipn n (skipn k l)). apply in_or_app. by left.
Qed.

Lemma filter_if_In {A B} (bound : option B) given (keep : B -> A -> bool)
    query x :
  In x (filter_if bound given keep query) ->
  In x query /\
  forall b, bound = Some b -> given = true -> keep b x = true.
Proof.
  unfold filter_if. destruct bound as [b|]; [|by split].
  destruct given; [|by split].
  intros [Hin Hkeep]%filter_In. split; [done|]. by intros ? [= <-] _.
Qed.

Lemma page_items_length {A} page (l : list A) :
  (length (page_items page l) <= 6)%nat.
Proof.
  unfold page_items, per_page. rewrite length_firstn.
  change (Z.to_nat 6) with 6%nat. lia.
Qed.

(** Pages enough for the rows hold the rows, each once, in order. *)
Lemma chunks_cover {A} (count : nat) : forall (l : list A),
  (length l <= 6 * count)%nat ->
  concat (map (fun p => page_items (Z.of_nat p) l) (seq 1 count)) = l.
Proof.
  induction count as [|count IH]; intros l Hlen.
  - destruct l; simpl in *; [done|lia].
  - cbn [seq map concat]. rewrite (page_items_nat 0). simpl skipn.
    rewrite <- seq_shift, map_map.
    rewrite <- (firstn_skipn 6 l) at 2. f_equal.
    rewrite <- (IH (skipn 6 l)) by (rewrite length_skipn; lia).
    f_equal. apply map_ext_in. intros p Hp. apply in_seq in Hp.
    destruct p as [|p]; [lia|].
    rewrite !page_items_nat. f_equal.
    rewrite skipn_skipn. f_equal. lia.
Qed.

Lemma page_count_fits (n : nat) :
  (n <= 6 * Z.to_nat (page_count (Z.of_nat n)))%nat /\
  (6 * Z.to_nat (page_count (Z.of_nat n)) < n + 6)%nat.
Proof.
  unfold page_count, per_page.
  destruct (Z.of_nat n =? 0) eqn:Hz; [lia|].
  pose proof (Z.div_mod (Z.of_nat n + 6 - 1) 6 ltac:(lia)) as Hdiv.
  pose proof (Z.mod_pos_bound (Z.of_nat n + 6 - 1) 6 ltac:(lia)) as Hmod.
  lia.
Qed.

Section SearchFacts.

Variable env : environment.
Variable ilike : string -> string -> bool.
Variable to_float : string -> option float.
Variable to_int : string -> option Z.

Abbreviation search_matches' := (search_matches ilike to_float to_int).
Abbreviation search_medicine' := (search_medicine env ilike to_float to_int).

(** The filters look at four fields of the form. *)
Lemma search_matches_fields form form' catalog :
  form !! "medicine_name" = form' !! "medicine_name" ->
  form !! "min_price" = form' !! "min_price" ->
  form !! "max_price" = form' !! "max_price" ->
  form !! "min_stock" = form' !! "min_stock" ->
  search_matches' form catalog = search_matches' form' catalog.
Proof.
  intros H1 H2 H3 H4. unfold search_matches, name_pattern.
  by rewrite H1, H2, H3, H4.
Qed.

(** X25: every medicine a search returns is in the catalog, has a name
    the engine matches with the pattern [%name%] built from the name
    sent (stripped), and meets each bound that was sent, parsed and is
    not zero; a page holds at most six of them. *)
Theorem search_results_match form catalog :
  reliable env ->
  exists shown has_next has_prev page pages,
    search_medicine' POST form catalog =
    Answer (SearchJson shown has_next has_prev page pages) [] /\
    (length shown <= 6)%nat /\
    forall k m, In (k, m) shown ->
      catalog !! k = Some m /\
      ilike (Medicine.name m) (name_pattern form) = true /\
      (forall bound, form !! "min_price" ≫= to_float = Some bound ->
         truthy (PFloat bound) = true ->
         sql_ge (Medicine.price m) (NFloat bound) = true) /\
      (forall bound, form !! "max_price" ≫= to_float = Some bound ->
         truthy (PFloat bound) = true ->
         sql_le (Medicine.price m) (NFloat bound) = true) /\
      (forall bound, form !! "min_stock" ≫= to_int = Some bound ->
         bound <> 0 ->
         sql_ge (Medicine.quantity m) (NInt bound) = true).
Proof.
  intros Hup. unfold search_medicine. rewrite (Hup 0%nat), (Hup 1%nat).
  do 5 eexists. split; [reflexivity|]. split; [apply page_items_length|].
  intros k m Hin. apply page_items_In in Hin.
  unfold search_matches in Hin.
  apply filter_if_In in Hin as [Hin Hstock].
  apply filter_if_In in Hin as [Hin Hmax].
  apply filter_if_In in Hin as [Hin Hmin].
  apply filter_In in Hin as [Hin Hname]. apply rows_In in Hin.
  split; [exact Hin|]. split; [exact Hname|].
  split; [|split].
  - intros bound Hb Ht. apply (Hmin bound Hb). by rewrite Hb.
  - intros bound Hb Ht. apply (Hmax bound Hb). by rewrite Hb.
  - intros bound Hb Ht. apply (Hstock bound Hb). rewrite Hb. simpl.
    by apply negb_true_iff, Z.eqb_neq.
Qed.

(** X26: a bound that is sent as zero, or as text that is no number, is
    no bound: the search keeps what it keeps when the field is not sent
    at all.  (So a highest price of 0 lets every price through.) *)
Theorem zero_bound_is_no_bound form catalog text :
  ((to_float text = None \/
    exists f, to_float text = Some f /\ truthy (PFloat f) = false) ->
   search_matches' (<["min_price" := text]> form) catalog
   = search_matches' (delete "min_price" form) catalog /\
   search_matches' (<["max_price" := text]> form) catalog
   = search_matches' (delete "max_price" form) catalog) /\
  ((to_int text = None \/ to_int text = Some 0) ->
   search_matches' (<["min_stock" := text]> form) catalog
   = search_matches' (delete "min_stock" form) catalog).
Proof.
  assert (forall A (keep : A -> Z * Medicine.t -> bool) bound query,
            bound = None \/ (exists b, bound = Some b) ->
            forall given, (bound <> None -> given = false) ->
            filter_if bound given keep query = query) as Hskip.
  { intros A keep bound query _ given Hgiven. unfold filter_if.
    destruct bound; [|done]. by rewrite Hgiven. }
  split.
  - intros Hzero.
    assert (given_float (to_float text) = false) as Hgiven.
    { destruct Hzero as [->|(f & -> & Hf)]; [done|exact Hf]. }
    split; unfold search_matches, name_pattern;
      rewrite ?lookup_insert_eq, ?lookup_delete_eq;
      rewrite ?lookup_insert_ne, ?lookup_delete_ne by done;
      simpl; f_equal.
    + f_equal. unfold filter_if. rewrite Hgiven. by destruct (to_float text).
    + unfold filter_if at 1 3. rewrite Hgiven. by destruct (to_float text).
  - intros Hzero.
    assert (given_int (to_int text) = false) as Hgiven.
    { by destruct Hzero as [->| ->]. }
    unfold search_matches, name_pattern.
    rewrite ?lookup_insert_eq, ?lookup_delete_eq.
    rewrite ?lookup_insert_ne, ?lookup_delete_ne by done.
    simpl. unfold filter_if at 1 4. rewrite Hgiven.
    by destruct (to_int text).
Qed.

(** X27: paging through a search shows every match once: the page asked
    for is the page answered (a page below 1, or no number, being page
    1), [total_pages] pages hold all the matches in order with no row
    repeated or left out, and [has_next] is set exactly when the next
    page has a row. *)
Theorem search_pages_cover form catalog :
  reliable env ->
  let matches := search_matches' form catalog in
  let pages := page_count (Z.of_nat (length matches)) in
  (forall text,
     let page :=
       match to_int text with
       | Some p => if p <? 1 then 1 else p
       | None => 1
       end in
     search_medicine' POST (<["page" := text]> form) catalog =
     Answer (SearchJson (page_items page matches) (page <? pages) (1 <? page)
               page pages) []) /\
  concat (map (fun p => page_items (Z.of_nat p) matches)
            (seq 1 (Z.to_nat pages))) = matches /\
  (forall p, 1 <= p ->
     ((p <? pages) = true <-> page_items (p + 1) matches <> [])).
Proof.
  intros Hup matches pages. split; [|split].
  - intros text page. unfold search_medicine.
    rewrite (Hup 0%nat), (Hup 1%nat), lookup_insert_eq. simpl.
    rewrite (search_matches_fields _ form) by (by rewrite lookup_insert_ne).
    fold matches. fold pages. subst page.
    by destruct (to_int text) as [p|]; [destruct (p <? 1)|].
  - apply chunks_cover. apply page_count_fits.
  - intros p Hp.
    destruct (page_count_fits (length matches)) as [Hlow Hhigh].
    fold pages in Hlow, Hhigh.
    replace (p + 1) with (Z.of_nat (S (Z.to_nat p))) by lia.
    rewrite page_items_nat, Z.ltb_lt.
    assert (0 <= pages) as Hpages.
    { unfold pages, page_count, per_page.
      destruct (_ =? 0); [lia|]. apply Z.div_pos; lia. }
    rewrite <- length_zero_iff_nil, length_firstn, length_skipn. lia.
Qed.

End SearchFacts.

(** ** The start of the application *)

Lemma rows_nil {A} (table : gmap Z A) : rows table = [] <-> table = ∅.
Proof.
  split.
  - intros Hrows. apply map_empty. intros k.
    destruct (table !! k) as [x|] eqn:Hk; [|done].
    apply rows_In in Hk. by rewrite Hrows in Hk.
  - intros ->. unfold rows. by rewrite map_to_list_empty.
Qed.

Lemma bulk_save_keeps new : forall (table : gmap Z Medicine.t) k m,
  table !! k = Some m -> bulk_save new table !! k = Some m.
Proof.
  unfold bulk_save.
  induction new as [|x new IH]; intros table k m Hk; simpl; [done|].
  apply IH. rewrite lookup_insert_ne; [done|].
  intros <-. by rewrite next_id_fresh in Hk.
Qed.

Section StartFacts.

Variable env : environment.
Variable hashpw : string -> string -> result string.

(** X28: starting the application a second time changes nothing (the
    storage layer not failing): the catalog, filled the first time, is
    not filled again, and the admin account, made the first time, is not
    made again.  After a start there is an account with the admin's
    email, the accounts that were there are as they were, and a catalog
    that was not empty is as it was. *)
Theorem start_twice_is_start_once salt salt' accounts db accounts' db' :
  reliable env ->
  start env hashpw salt accounts db = Done (accounts', db') ->
  start env hashpw salt' accounts' db' = Done (accounts', db') /\
  (exists id u, accounts' !! id = Some u /\
                User.email u = "admin@example.com") /\
  (forall id u, accounts !! id = Some u -> accounts' !! id = Some u) /\
  (medicines db <> ∅ -> db' = db) /\
  orders db' = orders db.
Proof.
  intros Hup.
  assert (forall A n (k : result A), storage_call env n k = k) as Hcall.
  { intros A n k. unfold storage_call. by rewrite (Hup n). }
  unfold start. rewrite !Hcall.
  set (filled := {| medicines := bulk_save first_medicines (medicines db);
                    orders := orders db |}).
  assert (forall accounts0 db0 calls,
            match by_email accounts0 (Some "admin@example.com") with
            | Some _ => Done (accounts0, db0)
            | None =>
                match hashpw "admin123" salt with
                | Failed e => Failed e
                | Done hashed =>
                    storage_call env (calls + 2)
                      (Done (<[next_id accounts0 :=
                                 {| User.email := "admin@example.com";
                                    User.password := hashed;
                                    User.is_admin := true |}]> accounts0, db0))
                end
            end = Done (accounts', db') ->
            db' = db0 /\
            (exists id u, accounts' !! id = Some u /\
                          User.email u = "admin@example.com") /\
            (forall id u, accounts0 !! id = Some u -> accounts' !! id = Some u))
    as Hadmin.
  { intros accounts0 db0 calls Hrun.
    destruct (by_email accounts0 (Some "admin@example.com")) as [[id u]|] eqn:Hfind.
    - injection Hrun as <- <-. split; [done|]. split; [|done].
      apply find_some in Hfind as [Hin Heq]. apply rows_In in Hin.
      apply String.eqb_eq in Heq. by exists id, u.
    - destruct (hashpw "admin123" salt) as [hashed|]; [|done].
      rewrite Hcall in Hrun. injection Hrun as <- <-.
      split; [done|]. split.
      + eexists _, _. split; [apply lookup_insert_eq|done].
      + intros id u Hu. rewrite lookup_insert_ne; [done|].
        intros <-. by rewrite next_id_fresh in Hu. }
  intros Hstart.
  assert (exists db0,
            (db0 = filled /\ medicines db = ∅ \/ db0 = db /\ medicines db <> ∅) /\
            db' = db0 /\
            (exists id u, accounts' !! id = Some u /\
                          User.email u = "admin@example.com") /\
            (forall id u, accounts !! id = Some u -> accounts' !! id = Some u))
    as (db0 & Hwhich & -> & Hmade & Hkept).
  { destruct (rows (medicines db)) as [|row l] eqn:Hrows.
    - exists filled. split; [left; split; [done|by apply rows_nil]|].
      by apply (Hadmin accounts filled 3%nat).
    - exists db. split; [right; split; [done|]|].
      + intros Hempty. apply rows_nil in Hempty. congruence.
      + by apply (Hadmin accounts db 1%nat). }
  assert (rows (medicines db0) <> []) as Hfilled.
  { destruct Hwhich as [[-> Hempty]|[-> Hne]].
    - rewrite rows_nil.
      change (medicines filled)
        with (bulk_save first_medicines (medicines db)).
      rewrite Hempty. intros Hno.
      apply (f_equal (fun t => t !! 1)) in Hno.
      vm_compute in Hno. discriminate Hno.
    - by rewrite rows_nil. }
  split; [|split; [exact Hmade|split; [exact Hkept|split]]].
  - destruct (rows (medicines db0)) as [|row l] eqn:Hrows; [done|].
    destruct Hmade as (id & u & Hu & Hemail).
    destruct (by_email accounts' (Some "admin@example.com")) eqn:Hfind; [done|].
    pose proof (find_none _ _ Hfind (id, u)) as Hno. simpl in Hno.
    rewrite Hemail in Hno.
    by specialize (Hno (proj2 (rows_In _ _ _) Hu)).
  - intros Hne. by destruct Hwhich as [[_ Hempty]|[-> _]].
  - by destruct Hwhich as [[-> _]|[-> _]].
Qed.

End StartFacts.

Lemma start_twice_is_start_once_witness :
  exists accounts' db',
    start steady sample_hashpw "salt" ∅ {| medicines := ∅; orders := ∅ |}
    = Done (accounts', db') /\
    start steady sample_hashpw "pepr" accounts' db' = Done (accounts', db') /\
    length (rows (medicines db')) = 20%nat.
Proof.
  assert (exists accounts' db',
            start steady sample_hashpw "salt" ∅ {| medicines := ∅; orders := ∅ |}
            = Done (accounts', db') /\
            length (rows (medicines db')) = 20%nat)
    as (accounts' & db' & Hstart & Hlen)
    by (eexists _, _; split; vm_compute; reflexivity).
  exists accounts', db'. split; [exact Hstart|]. split; [|exact Hlen].
  apply (start_twice_is_start_once steady sample_hashpw "salt" "pepr" ∅
           {| medicines := ∅; orders := ∅ |} accounts' db' (fun _ => eq_refl)
           Hstart).
Defined.

(** ** The further properties on samples *)

Lemma members_unique : unique_emails (users members).
Proof.
  intros i j u v Hi Hj _. simpl in Hi, Hj.
  apply lookup_insert_Some in Hi as [[<- _]|[_ Hi]];
    [|by rewrite lookup_empty in Hi].
  apply lookup_insert_Some in Hj as [[<- _]|[_ Hj]];
    [done|by rewrite lookup_empty in Hj].
Qed.

Lemma signup_keeps_accounts_witness :
  unique_emails
    (users (signup steady sample_hashpw POST ann_form "salt" members).2).
Proof.
  apply (signup_keeps_accounts steady sample_hashpw POST ann_form "salt" members).
  exact members_unique.
Defined.

Lemma signup_then_login_witness :
  exists a',
    signup steady sample_hashpw POST ann_form "salt" members =
    (Answer (Redirect "login") [("Signup successful! Please log in.", "success")],
     a') /\
    log_in steady sample_checkpw POST ann_form a' =
    (Answer (Redirect "index") [("Login successful!", "success")],
     {| users := users a'; login := Some 2 |}).
Proof.
  destruct (signup_then_login steady sample_hashpw sample_checkpw ann_form
              "salt" members "ann@example.com" "s3cret" "salts3cret"
              members_unique eq_refl eq_refl eq_refl eq_refl eq_refl)
    as (a' & Hsignup & Hlogin & _); try (vm_compute; reflexivity).
  exists a'. split; [exact Hsignup|exact Hlogin].
Defined.

Lemma chat_history_grows_witness :
  chatbot steady third_answers POST (Some (2, admin_user)) 1000 question ∅ =
  (Answer (ChatJson "OK"
             [chat_message "user" (PStr "Is ibuprofen in stock?");
              chat_message "assistant" (PStr "OK")]) [],
   (<[1 := {| Chat.user_id := 2;
              Chat.message := PStr "Is ibuprofen in stock?";
              Chat.response := "OK"; Chat.timestamp := 1000 |}]> ∅,
    (get_ai_response third_answers (PStr "Is ibuprofen in stock?")
       (Some [])).2)).
Proof.
  apply (chat_history_grows steady third_answers 2 admin_user 1000 question ∅
           [] "OK" _ eq_refl ltac:(discriminate) eq_refl).
  vm_compute. reflexivity.
Defined.

Lemma null_history_loses_the_reply_witness :
  (chatbot steady third_answers POST (Some (2, admin_user)) 1000
     {| message_field := Some (PStr "Is ibuprofen in stock?");
        history_field := Some None |} ∅).1
  = Uncaught (Known TypeError).
Proof.
  rewrite (null_history_loses_the_reply steady third_answers 2 admin_user 1000
             {| message_field := Some (PStr "Is ibuprofen in stock?");
                history_field := Some None |} ∅ "OK"
             (get_ai_response third_answers (PStr "Is ibuprofen in stock?")
                None).2
             eq_refl ltac:(discriminate) eq_refl);
    [reflexivity|].
  vm_compute. reflexivity.
Defined.

Lemma missing_message_is_asked_anyway_witness :
  requests
    (chatbot steady third_answers POST (Some (2, admin_user)) 1000
       {| message_field := None; history_field := None |} ∅).2.2 <> [].
Proof.
  apply (missing_message_is_asked_anyway steady third_answers 2 admin_user 1000
           {| message_field := None; history_field := None |} ∅ eq_refl).
Defined.

Lemma apology_is_recorded_witness :
  exists evs,
    chatbot steady all_down POST (Some (2, admin_user)) 1000 question ∅ =
    (Answer (ChatJson apology
               [chat_message "user" (PStr "Is ibuprofen in stock?");
                chat_message "assistant" (PStr apology)]) [],
     (<[1 := {| Chat.user_id := 2;
                Chat.message := PStr "Is ibuprofen in stock?";
                Chat.response := apology; Chat.timestamp := 1000 |}]> ∅,
      evs)) /\
    length (warnings evs) = 3%nat.
Proof.
  apply (apology_is_recorded steady all_down 2 admin_user 1000 question ∅ []
           eq_refl ltac:(discriminate) eq_refl).
  repeat constructor;
    exists (ProviderError "503 Service Unavailable"); split; reflexivity.
Defined.

Lemma checkout_shows_in_profile_witness :
  exists items,
    In (1, {| Order.user_id := 7; Order.total := NFloat 11.98;
              Order.items := items |})
       (orders_of (fun _ => 0) 7
          (serve_checkout steady 7
             {| cart_field :=
                  Some [cart_line (PInt 1) "Paracetamol" (PFloat 5.99)
                          (PInt 2)] |}
             pharmacy).2).
Proof.
  destruct (checkout_shows_in_profile (fun _ => 0) steady 7
              {| cart_field :=
                   Some [cart_line (PInt 1) "Paracetamol" (PFloat 5.99)
                           (PInt 2)] |}
              pharmacy (NFloat 11.98))
    as (items & _ & Hin & _); [vm_compute; reflexivity|].
  exists items. exact Hin.
Defined.

Lemma admin_reports_success_for_nothing_witness :
  admin steady sample_int sample_float POST
    edit_missing (Some (1, admin_user)) pharmacy
  = (Answer (Redirect "admin") [("Medicine updated successfully.", "success")],
     pharmacy).
Proof.
  apply (admin_reports_success_for_nothing steady sample_int sample_float
           edit_missing 1 admin_user pharmacy
           eq_refl (fun _ => eq_refl)).
  right. split; [reflexivity|]. split; [by left|].
  exists 99. split; vm_compute; reflexivity.
Defined.

Lemma admin_add_is_listed_witness :
  exists db',
    admin steady sample_int sample_float POST
      add_aspirin
      (Some (1, admin_user)) pharmacy
    = (Answer (Redirect "admin") [("Medicine updated successfully.", "success")],
       db') /\
    medicines db' !! 3
    = Some {| Medicine.name := "Aspirin"; Medicine.quantity := NInt 60;
              Medicine.price := NFloat 4 |}.
Proof.
  destruct (admin_add_is_listed steady sample_int sample_float
              add_aspirin
              1 admin_user pharmacy "Aspirin" 60 4%float
              eq_refl (fun _ => eq_refl)
              ltac:(vm_compute; reflexivity) ltac:(vm_compute; reflexivity)
              ltac:(vm_compute; reflexivity) ltac:(vm_compute; reflexivity))
    as (db' & Hrun & _ & Hnew & _).
  exists db'. split; [exact Hrun|exact Hnew].
Defined.

Lemma admin_delete_then_checkout_witness :
  serve_checkout steady 7
    {| cart_field :=
         Some [cart_line (PInt 2) "Ibuprofen" (PFloat 7.49) (PInt 1)] |}
    {| medicines := delete 2 (medicines pharmacy); orders := orders pharmacy |}
  = (Failure 400 (ItemNotFound (PStr "Ibuprofen")),
     {| medicines := delete 2 (medicines pharmacy); orders := orders pharmacy |}).
Proof.
  assert (exists t',
            add_line steady (NInt 0)
              (cart_line (PInt 2) "Ibuprofen" (PFloat 7.49) (PInt 1)) = Ret t')
    as [t' Hsum] by (eexists; vm_compute; reflexivity).
  apply (admin_delete_then_checkout steady sample_int sample_float
           delete_ibuprofen 1 admin_user pharmacy
           2 {| Medicine.name := "Ibuprofen"; Medicine.quantity := NInt 50;
                Medicine.price := NFloat 7.49 |}
           7 {| cart_field :=
                  Some [cart_line (PInt 2) "Ibuprofen" (PFloat 7.49) (PInt 1)] |}
           (cart_line (PInt 2) "Ibuprofen" (PFloat 7.49) (PInt 1)) [] t'
           eq_refl (fun _ => eq_refl)
           ltac:(vm_compute; reflexivity) ltac:(vm_compute; reflexivity)
           ltac:(vm_compute; reflexivity) ltac:(vm_compute; reflexivity)
           ltac:(vm_compute; reflexivity) eq_refl
           ltac:(vm_compute; reflexivity) ltac:(discriminate) Hsum).
Defined.

Lemma search_results_match_witness :
  exists shown has_next has_prev page pages,
    search_medicine steady sqlite_ilike digits_float digits_int POST
      cheap_para
      (medicines pharmacy)
    = Answer (SearchJson shown has_next has_prev page pages) [] /\
    (length shown <= 6)%nat.
Proof.
  destruct (search_results_match steady sqlite_ilike digits_float digits_int
              cheap_para
              (medicines pharmacy) (fun _ => eq_refl))
    as (shown & has_next & has_prev & page & pages & Hrun & Hlen & _).
  exists shown, has_next, has_prev, page, pages. by split.
Defined.

Lemma search_pages_cover_witness :
  search_medicine steady sqlite_ilike digits_float digits_int POST
    (<["page" := "0"]> ∅) (medicines pharmacy)
  = Answer (SearchJson (rows (medicines pharmacy)) false false 1 1) [].
Proof.
  rewrite (proj1 (search_pages_cover steady sqlite_ilike digits_float digits_int
                    ∅ (medicines pharmacy) (fun _ => eq_refl)) "0").
  vm_compute. reflexivity.
Defined.
